(** * TuxSEO front end: a shallow embedding of the Stimulus controllers

    The controllers of [frontend/src/controllers] are event handlers that
    mutate the controller object, the DOM and [localStorage], and talk to the
    Django back end with [fetch].  They are embedded here as programs of a
    small state-and-exception monad: a handler is a function from the state
    before the event to an outcome and the state after it.  An [await] is a
    sequencing point; a rejected promise is a [Throw].

    The back end is a field of the state: a function from the requests issued
    so far and the current request to the response.  Every theorem below
    quantifies over it. *)

From Stdlib Require Import ZArith List Lia Bool QArith.
From stdpp Require Import base option list strings gmap pretty.

Open Scope Z_scope.

(** ** JavaScript idioms shared by the controllers *)

Module JS.

(** What running a statement gives: a value, or a thrown [Error] carrying its
    [message].  The state reached before a [throw] is kept: mutations made
    inside a [try] block survive in its [catch]. *)
Inductive outcome (A : Type) : Type :=
| Return (a : A)
| Throw (e : string).
Arguments Return {A} a.
Arguments Throw {A} e.

Definition M (S A : Type) : Type := S -> outcome A * S.

Definition ret {S A} (a : A) : M S A := fun s => (Return a, s).

Definition bind {S A B} (k : A -> M S B) (m : M S A) : M S B :=
  fun s => match m s with
           | (Return a, s') => k a s'
           | (Throw e, s') => (Throw e, s')
           end.

#[global] Instance M_ret {S} : MRet (M S) := @ret S.
#[global] Instance M_bind {S} : MBind (M S) := @bind S.

(** [throw new Error(e)] *)
Definition throw {S A} (e : string) : M S A := fun s => (Throw e, s).

(** [try { body } catch (error) { handler(error.message) }] *)
Definition try_catch {S A} (body : M S A) (handler : string -> M S A) : M S A :=
  fun s => match body s with
           | (Return a, s') => (Return a, s')
           | (Throw e, s') => handler e s'
           end.

Definition gets {S A} (f : S -> A) : M S A := fun s => (Return (f s), s).
Definition modify {S} (f : S -> S) : M S unit := fun s => (Return tt, f s).

(** [if (c) { body }] *)
Definition when {S} (c : bool) (body : M S unit) : M S unit :=
  if c then body else ret tt.

(** [for (const x of l) { await body(x) }]: a throw leaves the loop. *)
Fixpoint for_of {S A} (l : list A) (body : A -> M S unit) : M S unit :=
  match l with
  | [] => ret tt
  | x :: l' => bind (fun _ => for_of l' body) (body x)
  end.

Definition exec {S A} (m : M S A) (s : S) : S := snd (m s).
Definition result {S A} (m : M S A) (s : S) : outcome A := fst (m s).

(** A string is falsy exactly when it is empty. *)
Definition truthy (s : string) : bool :=
  match s with EmptyString => false | String _ _ => true end.

(** [v || d] for a value that is a string or [undefined]. *)
Definition or_else (v : option string) (d : string) : string :=
  match v with
  | Some s => if truthy s then s else d
  | None => d
  end.

(** [o[k]] for a plain object given by its own properties in enumeration
    order; [None] is [undefined].  Own properties only: for a key that names
    a member of [Object.prototype] ([constructor], [toString], [__proto__]
    and the like) JavaScript gives the inherited member where this gives
    [None], so a statement about the code may use [prop] only at keys that
    name no such member. *)
Fixpoint prop {V} (o : list (string * V)) (k : string) : option V :=
  match o with
  | [] => None
  | (k', v) :: o' => if String.eqb k' k then Some v else prop o' k
  end.

(** [v === "literal"] for a value that is a string or [undefined]. *)
Definition is_str (v : option string) (lit : string) : bool :=
  match v with Some s => String.eqb s lit | None => false end.

(** [m] keeps [P], however it ends. *)
Definition preserves {S A} (P : S -> Prop) (m : M S A) : Prop :=
  forall s, P s -> P (exec m s).

End JS.

Import JS.

(** * The generate-content controller
    ([frontend/src/controllers/generate-content-controller.js])

    Generation runs as a five-step pipeline driven from the browser: a POST
    starts it, then every step is one POST, issued after the previous one has
    answered.  [continue] resumes a pipeline that stopped half way. *)

Module GenerateContent.

(** One entry of [steps] in a pipeline state sent by the back end. *)
Record step_info := {
  si_status : option string;
  si_error : option string
}.

(** The fields the controller reads from a JSON body; [None] is [undefined]. *)
Record body := {
  message : option string;
  blog_post_id : option Z;
  steps : option (list (string * step_info));
  pipeline_state_steps : option (list (string * step_info))
}.

Record response := {
  ok : bool;
  json_body : option body   (* [None]: [response.json()] rejects *)
}.

Inductive fetch_result :=
| NetworkError (e : string)
| Answer (r : response).

Inductive request :=
| PostStart (suggestionId : Z)
| GetStatus (blogPostId : option Z)
| PostStep (blogPostId : option Z) (step_name : string).

Inductive button :=
| GeneratingButton
| ContinuingButton
| ViewPostLink (projectId : Z) (blogPostId : option Z)
| GenerateButton
| ContinueButton (blogPostId : option Z).

Inductive status_badge := Generated | ReadyToGenerate.
Inductive post_button := PostButton | SetupLink | ProOnlyLink.

(** What the handlers do to the outside, in program order. *)
Inductive event :=
| Fetch (r : request)
| ButtonContainer (b : button)
| Status (s : status_badge)
| ShowProgressDialog
| HideProgressDialog
| ProgressStep (step_name status : string) (display_text : option string)
| ClearPostButton
| AppendPostButton (b : post_button) (generatedPostId : option Z)
| ShowMessage (text kind : string).

(** A settings item of [localStorage] as [_appendPostButton] sees it. *)
Inductive stored_flag :=
| NotStored              (* no item, or an empty one: [{}] is used *)
| Malformed              (* [JSON.parse] throws, or gives [null] *)
| Flag (b : bool).       (* the truthiness of the flag in the parsed object *)

Record state := {
  suggestionIdValue : Z;
  projectIdValue : Z;
  hasStatusTarget : bool;
  userProfileSettings : stored_flag;
  projectSettings : stored_flag;
  blogPostId : option Z;
  pipelineSteps : list string;
  backend : list request -> request -> fetch_result;
  trace : list event
}.

Definition set_blogPostId (v : option Z) (s : state) : state :=
  {| suggestionIdValue := suggestionIdValue s; projectIdValue := projectIdValue s;
     hasStatusTarget := hasStatusTarget s;
     userProfileSettings := userProfileSettings s;
     projectSettings := projectSettings s;
     blogPostId := v; pipelineSteps := pipelineSteps s;
     backend := backend s; trace := trace s |}.

Definition set_pipelineSteps (v : list string) (s : state) : state :=
  {| suggestionIdValue := suggestionIdValue s; projectIdValue := projectIdValue s;
     hasStatusTarget := hasStatusTarget s;
     userProfileSettings := userProfileSettings s;
     projectSettings := projectSettings s;
     blogPostId := blogPostId s; pipelineSteps := v;
     backend := backend s; trace := trace s |}.

Definition log (e : event) (s : state) : state :=
  {| suggestionIdValue := suggestionIdValue s; projectIdValue := projectIdValue s;
     hasStatusTarget := hasStatusTarget s;
     userProfileSettings := userProfileSettings s;
     projectSettings := projectSettings s;
     blogPostId := blogPostId s; pipelineSteps := pipelineSteps s;
     backend := backend s; trace := trace s ++ [e] |}.

Definition emit (e : event) : M state unit := modify (log e).

Definition requests (t : list event) : list request :=
  omap (fun e => match e with Fetch r => Some r | _ => None end) t.

(** [await fetch(...)]: the request is issued, then the promise settles. *)
Definition fetch (r : request) : M state response :=
  fun s =>
    let s' := log (Fetch r) s in
    match backend s (requests (trace s)) r with
    | NetworkError e => (Throw e, s')
    | Answer a => (Return a, s')
    end.

Definition json_error : string := "Unexpected token in JSON".

(** [await response.json()] *)
Definition json (r : response) : M state body :=
  match json_body r with
  | Some b => ret b
  | None => throw json_error
  end.

Definition showMessage (text kind : string) : M state unit :=
  emit (ShowMessage text kind).

Definition step_display_names : list (string * string) :=
  [ ("structure", "Generating Structure");
    ("content", "Generating Content");
    ("preliminary_validation", "Validating Content");
    ("internal_links", "Adding Internal Links");
    ("final_validation", "Final Validation") ].

Definition backend_step_names : list (string * string) :=
  [ ("structure", "generate_structure");
    ("content", "generate_content");
    ("preliminary_validation", "preliminary_validation");
    ("internal_links", "insert_internal_links");
    ("final_validation", "final_validation") ].

Definition step_name_map : list (string * string) :=
  [ ("generate_structure", "structure");
    ("generate_content", "content");
    ("preliminary_validation", "preliminary_validation");
    ("insert_internal_links", "internal_links");
    ("final_validation", "final_validation") ].

Definition _showProgressDialog : M state unit := emit ShowProgressDialog.
Definition _hideProgressDialog : M state unit := emit HideProgressDialog.

(** The call is recorded; it changes the page only while the progress
    dialog with a row for [step_name] is open. *)
Definition _updateProgressStep (step_name status : string)
    (display_text : option string) : M state unit :=
  emit (ProgressStep step_name status display_text).

(** [display_names[step_name] || step_name] and
    [backend_names[frontend_step_name] || frontend_step_name], at the names
    the controller calls them with: the five steps of the pipeline.  (At a
    name that [Object.prototype] has a member for, the JavaScript returns
    that member, which is no string.) *)
Definition _getStepDisplayName (step_name : string) : string :=
  or_else (prop step_display_names step_name) step_name.

Definition _getBackendStepName (frontend_step_name : string) : string :=
  or_else (prop backend_step_names frontend_step_name) frontend_step_name.

(** A template literal prints [undefined] for a missing value. *)
Definition interpolate (v : option string) : string := default "undefined" v.

(** [data.pipeline_state?.steps?.[backend_step_names[step_name]]]; a key
    that is [undefined] reads the property named [undefined]. *)
Definition reported_status (data : body) (step_name : string) : option step_info :=
  o ← pipeline_state_steps data ;
  prop o (interpolate (prop backend_step_names step_name)).

Definition _executeStep (step_name : string) : M state unit :=
  let display := prop step_display_names step_name in
  _updateProgressStep step_name "in_progress" display ;;
  try_catch
    (id ← gets blogPostId ;
     response ← fetch (PostStep id step_name) ;
     (if negb (ok response)
      then error ← json response ;
           throw (or_else (message error) ("Failed to execute " +:+ step_name))
      else ret tt) ;;
     data ← json response ;
     match reported_status data step_name with
     | Some info =>
         if is_str (si_status info) "failed"
         then _updateProgressStep step_name "failed"
                (Some (interpolate display +:+ " Failed")) ;;
              throw (or_else (si_error info) ("Step " +:+ step_name +:+ " failed"))
         else _updateProgressStep step_name "completed" display
     | None => _updateProgressStep step_name "completed" display
     end)
    (fun error =>
       _updateProgressStep step_name "failed" display ;;
       throw error).

Definition read_flag (f : stored_flag) : M state bool :=
  match f with
  | NotStored => ret false
  | Malformed => throw json_error
  | Flag b => ret b
  end.

Definition _appendPostButton (generatedPostId : option Z) : M state unit :=
  emit ClearPostButton ;;
  profile ← gets userProfileSettings ;
  project ← gets projectSettings ;
  hasPro ← read_flag profile ;
  hasAutoSubmit ← read_flag project ;
  emit (AppendPostButton
          (if hasPro && hasAutoSubmit then PostButton
           else if hasPro && negb hasAutoSubmit then SetupLink
           else ProOnlyLink)
          generatedPostId).

Definition the_pipeline_steps : list string :=
  [ "structure"; "content"; "preliminary_validation"; "internal_links";
    "final_validation" ].

(** What both handlers do once every step has run. *)
Definition show_generated (success_text : string) : M state unit :=
  _hideProgressDialog ;;
  project ← gets projectIdValue ;
  post ← gets blogPostId ;
  emit (ButtonContainer (ViewPostLink project post)) ;;
  has_status ← gets hasStatusTarget ;
  when has_status (emit (Status Generated)) ;;
  _appendPostButton post ;;
  showMessage success_text "success".

Definition generate : M state unit :=
  try_catch
    (emit (ButtonContainer GeneratingButton) ;;
     _showProgressDialog ;;
     suggestion ← gets suggestionIdValue ;
     startResponse ← fetch (PostStart suggestion) ;
     (if negb (ok startResponse)
      then error ← json startResponse ;
           throw (or_else (message error) "Failed to start generation")
      else ret tt) ;;
     startData ← json startResponse ;
     modify (set_blogPostId (blog_post_id startData)) ;;
     modify (set_pipelineSteps the_pipeline_steps) ;;
     todo ← gets pipelineSteps ;
     for_of todo _executeStep ;;
     show_generated "Blog post generated successfully!")
    (fun error =>
       _hideProgressDialog ;;
       showMessage
         (or_else (Some error) "Failed to generate content. Please try again later.")
         "error" ;;
       emit (ButtonContainer GenerateButton) ;;
       has_status ← gets hasStatusTarget ;
       when has_status (emit (Status ReadyToGenerate))).

(** [!step_status || step_status.status !== "completed"], with
    [step_status = statusData.steps?.[backend_step]]. *)
Definition needs_execution (statusData : body) (frontend_step : string) : bool :=
  let backend_step := _getBackendStepName frontend_step in
  match o ← steps statusData ; prop o backend_step with
  | None => true
  | Some step_status => negb (is_str (si_status step_status) "completed")
  end.

(** The loop that fills [steps_to_execute] with [push]. *)
Definition steps_to_execute (statusData : body) (all : list string) : list string :=
  fold_left
    (fun acc frontend_step =>
       if needs_execution statusData frontend_step
       then acc ++ [frontend_step] else acc)
    all [].

(** The loop over [Object.entries(statusData.steps)] that ticks the steps
    already done; [tick_completed] is its body.  (For an entry named after
    a member of [Object.prototype] the JavaScript looks that member up and
    calls [_updateProgressStep] with it; no row carries such a name, the
    call changes nothing, and it is not recorded here.) *)
Definition tick_completed (entry : string * step_info) : M state unit :=
  let '(backend_step_name, info) := entry in
  match prop step_name_map backend_step_name with
  | Some frontend_step_name =>
      when (truthy frontend_step_name && is_str (si_status info) "completed")
        (_updateProgressStep frontend_step_name "completed"
           (Some (_getStepDisplayName frontend_step_name)))
  | None => ret tt
  end.

Definition show_completed (entries : list (string * step_info)) : M state unit :=
  for_of entries tick_completed.

(** [blog_post_id] is [parseInt] of the button's data attribute. *)
Definition continue (blog_post_id : option Z) : M state unit :=
  modify (set_blogPostId blog_post_id) ;;
  try_catch
    (emit (ButtonContainer ContinuingButton) ;;
     _showProgressDialog ;;
     id ← gets blogPostId ;
     statusResponse ← fetch (GetStatus id) ;
     (if negb (ok statusResponse)
      then throw "Failed to get pipeline status" else ret tt) ;;
     statusData ← json statusResponse ;
     match steps statusData with
     | Some entries => show_completed entries
     | None => ret tt
     end ;;
     modify (set_pipelineSteps the_pipeline_steps) ;;
     all ← gets pipelineSteps ;
     for_of (steps_to_execute statusData all) _executeStep ;;
     show_generated "Blog post generation completed!")
    (fun error =>
       _hideProgressDialog ;;
       showMessage
         (or_else (Some error) "Failed to continue generation. Please try again later.")
         "error" ;;
       id ← gets blogPostId ;
       emit (ButtonContainer (ContinueButton id))).

(** Projections of a trace used to state what a run did. *)
Inductive pipeline_event :=
| Requested (step_name : string)
| Completed (step_name : string).

Definition pipeline_events (t : list event) : list pipeline_event :=
  omap (fun e =>
          match e with
          | Fetch (PostStep _ step_name) => Some (Requested step_name)
          | ProgressStep step_name status _ =>
              if String.eqb status "completed" then Some (Completed step_name)
              else None
          | _ => None
          end) t.

Definition step_requests (t : list event) : list string :=
  omap (fun e =>
          match e with
          | Fetch (PostStep _ step_name) => Some step_name
          | _ => None
          end) t.

(** The trace of a pipeline run over [done], all completed, and then
    possibly one more step that was requested and did not complete. *)
Definition run_of (done : list string) (failed : option string) : list pipeline_event :=
  flat_map (fun s => [Requested s; Completed s]) done
  ++ match failed with Some s => [Requested s] | None => [] end.

(** [logs new s]: the state [s] after the events [new], nothing else
    changed. *)
Definition logs (new : list event) (s : state) : state :=
  fold_left (fun s e => log e s) new s.

(** Events that neither request nor complete a step. *)
Definition quiet (new : list event) : Prop :=
  pipeline_events new = [] /\ requests new = [].

(** The start request of [generate] succeeds: an OK response with the JSON
    body [startData]. *)
Definition start_gives (s : state) (startData : body) : Prop :=
  backend s (requests (trace s)) (PostStart (suggestionIdValue s))
  = Answer {| ok := true; json_body := Some startData |}.

(** The status request of [continue] succeeded and gave [statusData]. *)
Definition status_gives (s : state) (id : option Z) (statusData : body) : Prop :=
  backend s (requests (trace s)) (GetStatus id)
  = Answer {| ok := true; json_body := Some statusData |}.

(** ** Runs to evaluate

    A suggestion card before [generate] is pressed, for a back end given by
    its answers; [every_step_ok] answers every request with an OK response,
    [content_fails] answers the request for the content step with a 500. *)

Definition card (be : list request -> request -> fetch_result) : state :=
  {| suggestionIdValue := 7; projectIdValue := 1; hasStatusTarget := true;
     userProfileSettings := NotStored; projectSettings := NotStored;
     blogPostId := None; pipelineSteps := [];
     backend := be; trace := [] |}.

Definition post_42 : body :=
  {| message := None; blog_post_id := Some 42; steps := None;
     pipeline_state_steps := None |}.

Definition every_step_ok (history : list request) (r : request) : fetch_result :=
  Answer {| ok := true; json_body := Some post_42 |}.

Definition content_fails (history : list request) (r : request) : fetch_result :=
  match r with
  | PostStep _ "content" => Answer {| ok := false; json_body := Some post_42 |}
  | _ => Answer {| ok := true; json_body := Some post_42 |}
  end.

(** A pipeline state in which the first two steps are completed and the
    third one has failed. *)
Definition two_steps_done : body :=
  {| message := None; blog_post_id := None;
     steps := Some
       [ ("generate_structure", {| si_status := Some "completed"; si_error := None |});
         ("generate_content", {| si_status := Some "completed"; si_error := None |});
         ("preliminary_validation", {| si_status := Some "failed"; si_error := None |}) ];
     pipeline_state_steps := None |}.

Definition resumable (history : list request) (r : request) : fetch_result :=
  match r with
  | GetStatus _ => Answer {| ok := true; json_body := Some two_steps_done |}
  | _ => Answer {| ok := true; json_body := Some post_42 |}
  end.

(** The same, with a back end that rejects the internal-links step. *)
Definition resumable_links_fail (history : list request) (r : request) : fetch_result :=
  match r with
  | GetStatus _ => Answer {| ok := true; json_body := Some two_steps_done |}
  | PostStep _ "internal_links" => Answer {| ok := false; json_body := None |}
  | _ => Answer {| ok := true; json_body := Some post_42 |}
  end.

End GenerateContent.

(** * The blog-generation-pipeline controller ([unnamed/part_007])

    The same five steps behind a dialog with a progress bar, a status row per
    step and a retry button.  The targets the handlers use without a guard
    (the step list) and the CSRF token input are taken to be on the page;
    a target the handlers guard with [has...Target] has its flag here. *)

Module BlogGenerationPipeline.

Record step := { key : string; label : string }.

(** The fields read from a JSON body. *)
Record body := {
  status : option string;
  message : option string;
  blog_post_id : option Z
}.

Inductive fetch_result :=
| NetworkError (e : string)
| Answer (json_body : option body).   (* [None]: [response.json()] rejects *)

Inductive request :=
| PostStart (suggestionId : Z)
| PostStep (blogPostId : option Z) (step_key : string)
| PostRetry (blogPostId : option Z) (step_key : string).

Inductive row_status := Pending | InProgress | Completed | Failed.

(** What the handlers do to the outside, in program order: the requests
    they issue, the status they write into a step's row, and the calls of
    [showMessage]. *)
Inductive event :=
| Fetch (r : request)
| StepStatus (stepIndex : nat) (v : row_status)
| ShowMessage (text kind : string).

(** The text [showError] puts into the error target. *)
Inductive error_text :=
| Text (e : string)
| StepFailedAfter (step_label : string) (attempts : Z) (detail : option string)
| StepFailed (step_label : string) (detail : string).

(** The button [showRetryOption] renders, with its [data-step-key],
    [data-step-index] and the number printed on it. *)
Record retry_button := {
  data_step_key : string;
  data_step_index : nat;
  attempts_left : Z
}.

Record page := {
  hasDialogTarget : bool;
  hasProgressBarTarget : bool;
  hasErrorMessageTarget : bool;
  hasRetryButtonTarget : bool;
  hasCloseButtonTarget : bool;
  dialogHidden : bool;
  rows : list row_status;                 (* the rendered step list *)
  progress : option Q;                    (* width of the bar, in percent *)
  errorMessage : option error_text;
  errorMessageHidden : bool;
  retryButton : option retry_button;
  retryButtonHidden : bool;
  closeLink : option (Z * option Z);      (* project and post of the link *)
  closeButtonHidden : bool
}.

Record state := {
  suggestionIdValue : Z;
  projectIdValue : Z;
  blogPostId : option Z;
  currentStep : option string;
  retryCount : gmap string Z;
  maxRetries : Z;
  stepNames : list step;
  ui : page;
  trace : list event;
  backend : list request -> request -> fetch_result
}.

Definition with_ui (f : page -> page) (s : state) : state :=
  let '(Build_state a b c d e g h u r k) := s in Build_state a b c d e g h (f u) r k.
Definition set_blogPostId (v : option Z) (s : state) : state :=
  let '(Build_state a b _ d e g h u r k) := s in Build_state a b v d e g h u r k.
Definition set_currentStep (v : option string) (s : state) : state :=
  let '(Build_state a b c _ e g h u r k) := s in Build_state a b c v e g h u r k.
Definition set_retryCount (v : gmap string Z) (s : state) : state :=
  let '(Build_state a b c d _ g h u r k) := s in Build_state a b c d v g h u r k.
Definition set_maxRetries (v : Z) (s : state) : state :=
  let '(Build_state a b c d e _ h u r k) := s in Build_state a b c d e v h u r k.
Definition set_stepNames (v : list step) (s : state) : state :=
  let '(Build_state a b c d e g _ u r k) := s in Build_state a b c d e g v u r k.
Definition log (v : event) (s : state) : state :=
  let '(Build_state a b c d e g h u r k) := s in
  Build_state a b c d e g h u (r ++ [v]) k.

Definition requests (t : list event) : list request :=
  omap (fun e => match e with Fetch r => Some r | _ => None end) t.

Definition messages (t : list event) : list (string * string) :=
  omap (fun e => match e with ShowMessage text kind => Some (text, kind) | _ => None end) t.

Definition set_dialogHidden (v : bool) (p : page) : page :=
  let '(Build_page a b c d e _ g h i j k l m n) := p in Build_page a b c d e v g h i j k l m n.
Definition set_rows (v : list row_status) (p : page) : page :=
  let '(Build_page a b c d e f _ h i j k l m n) := p in Build_page a b c d e f v h i j k l m n.
Definition set_progress (v : option Q) (p : page) : page :=
  let '(Build_page a b c d e f g _ i j k l m n) := p in Build_page a b c d e f g v i j k l m n.
Definition set_errorMessage (v : option error_text) (p : page) : page :=
  let '(Build_page a b c d e f g h _ j k l m n) := p in Build_page a b c d e f g h v j k l m n.
Definition set_errorMessageHidden (v : bool) (p : page) : page :=
  let '(Build_page a b c d e f g h i _ k l m n) := p in Build_page a b c d e f g h i v k l m n.
Definition set_retryButton (v : option retry_button) (p : page) : page :=
  let '(Build_page a b c d e f g h i j _ l m n) := p in Build_page a b c d e f g h i j v l m n.
Definition set_retryButtonHidden (v : bool) (p : page) : page :=
  let '(Build_page a b c d e f g h i j k _ m n) := p in Build_page a b c d e f g h i j k v m n.
Definition set_closeLink (v : option (Z * option Z)) (p : page) : page :=
  let '(Build_page a b c d e f g h i j k l _ n) := p in Build_page a b c d e f g h i j k l v n.
Definition set_closeButtonHidden (v : bool) (p : page) : page :=
  let '(Build_page a b c d e f g h i j k l m _) := p in Build_page a b c d e f g h i j k l m v.

Definition the_step_names : list step :=
  [ {| key := "structure"; label := "Generate Structure" |};
    {| key := "content"; label := "Generate Content" |};
    {| key := "preliminary_validation"; label := "Preliminary Validation" |};
    {| key := "internal_links"; label := "Insert Internal Links" |};
    {| key := "final_validation"; label := "Final Validation" |} ].

Definition connect : M state unit :=
  modify (set_blogPostId None) ;;
  modify (set_currentStep None) ;;
  modify (set_retryCount ∅) ;;
  modify (set_maxRetries 3) ;;
  modify (set_stepNames the_step_names).

Definition fetch (r : request) : M state (option body) :=
  fun s =>
    let s' := log (Fetch r) s in
    match backend s (requests (trace s)) r with
    | NetworkError e => (Throw e, s')
    | Answer b => (Return b, s')
    end.

Definition json_error : string := "Unexpected token in JSON".

Definition json (r : option body) : M state body :=
  match r with
  | Some b => ret b
  | None => throw json_error
  end.

Definition showMessage (text kind : string) : M state unit :=
  modify (log (ShowMessage text kind)).

Definition renderSteps : M state unit :=
  names ← gets stepNames ;
  modify (with_ui (set_rows (map (fun _ => Pending) names))).

(** The row is looked up by its index; nothing happens when it is not
    there, or for a status the function has no branch for. *)
Definition updateStepStatus (stepIndex : nat) (v : row_status) : M state unit :=
  present ← gets (fun s => bool_decide (stepIndex < length (rows (ui s)))%nat) ;
  match v with
  | Pending => mret tt
  | _ =>
      when present
        (modify (with_ui (fun p => set_rows (<[stepIndex := v]> (rows p)) p)) ;;
         modify (log (StepStatus stepIndex v)))
  end.

Definition updateProgress (percentage : Q) : M state unit :=
  has ← gets (fun s => hasProgressBarTarget (ui s)) ;
  when has (modify (with_ui (set_progress (Some percentage)))).

Definition showError (e : error_text) : M state unit :=
  has ← gets (fun s => hasErrorMessageTarget (ui s)) ;
  when has (modify (with_ui (set_errorMessage (Some e))) ;;
            modify (with_ui (set_errorMessageHidden false))).

Definition hideError : M state unit :=
  has ← gets (fun s => hasErrorMessageTarget (ui s)) ;
  when has (modify (with_ui (set_errorMessageHidden true))).

(** [this.retryCount[k] || 0] *)
Definition retries (s : state) (k : string) : Z := default 0 (retryCount s !! k).

Definition showRetryOption (st : step) (stepIndex : nat) : M state unit :=
  retryCount ← gets (fun s => retries s (key st)) ;
  max ← gets maxRetries ;
  let remainingRetries := max - retryCount in
  has ← gets (fun s => hasRetryButtonTarget (ui s)) ;
  when has
    (modify (with_ui (set_retryButton
       (Some {| data_step_key := key st; data_step_index := stepIndex;
                attempts_left := remainingRetries |}))) ;;
     modify (with_ui (set_retryButtonHidden false))).

Definition onPipelineComplete : M state unit :=
  has ← gets (fun s => hasCloseButtonTarget (ui s)) ;
  when has
    (modify (with_ui (set_closeButtonHidden false)) ;;
     project ← gets projectIdValue ;
     post ← gets blogPostId ;
     modify (with_ui (set_closeLink (Some (project, post))))) ;;
  showMessage "Blog post generated successfully!" "success" ;;
  updateProgress 100.

Definition type_error : string := "Cannot read properties of undefined".

(** [stepNames[stepIndex]] may be [undefined]: then [step.key] throws inside
    the [try], and [step.label] throws again inside the [catch]. *)
Definition executeStep (st : option step) (stepIndex : nat) : M state bool :=
  updateStepStatus stepIndex InProgress ;;
  match st with
  | None => updateStepStatus stepIndex Failed ;; throw type_error
  | Some st =>
      try_catch
        (id ← gets blogPostId ;
         response ← fetch (PostStep id (key st)) ;
         data ← json response ;
         if is_str (status data) "error"
         then
           updateStepStatus stepIndex Failed ;;
           retryCount ← gets (fun s => retries s (key st)) ;
           max ← gets maxRetries ;
           if retryCount <? max
           then showRetryOption st stepIndex ;; mret false
           else showError (StepFailedAfter (label st) max (message data)) ;;
                mret false
         else
           updateStepStatus stepIndex Completed ;;
           names ← gets stepNames ;
           updateProgress
             (inject_Z (Z.of_nat stepIndex + 1) / inject_Z (Z.of_nat (length names))
              * 100)%Q ;;
           mret true)
        (fun error =>
           updateStepStatus stepIndex Failed ;;
           showError (StepFailed (label st) error) ;;
           mret false)
  end.

(** [for (let i = from; i < stepNames.length; i++) { ... if (!success) break }]
    over [todo], the steps from index [i] on.  [startPipeline] also records
    the step as [currentStep]. *)
Fixpoint step_loop (record_current : bool) (i : nat) (todo : list step) : M state unit :=
  match todo with
  | [] => mret tt
  | st :: todo' =>
      when record_current (modify (set_currentStep (Some (key st)))) ;;
      success ← executeStep (Some st) i ;
      if (success : bool) then step_loop record_current (S i) todo' else mret tt
  end.

Definition startPipeline : M state unit :=
  has ← gets (fun s => hasDialogTarget (ui s)) ;
  when has (modify (with_ui (set_dialogHidden false))) ;;
  renderSteps ;;
  updateProgress 0 ;;
  try_catch
    (suggestion ← gets suggestionIdValue ;
     response ← fetch (PostStart suggestion) ;
     data ← json response ;
     (if is_str (status data) "error"
      then throw (or_else (message data) "Failed to start pipeline")
      else mret tt) ;;
     modify (set_blogPostId (blog_post_id data)) ;;
     names ← gets stepNames ;
     step_loop true 0 names ;;
     onPipelineComplete)
    (fun error => showError (Text (or_else (Some error) "Failed to start pipeline"))).

(** [stepKey] and [stepIndex] are the data attributes of the clicked
    button. *)
Definition retryStep (stepKey : string) (stepIndex : nat) : M state unit :=
  names ← gets stepNames ;
  let st := names !! stepIndex in
  count ← gets (fun s => retries s stepKey) ;
  counts ← gets retryCount ;
  modify (set_retryCount (<[stepKey := count + 1]> counts)) ;;
  hideError ;;
  id ← gets blogPostId ;
  fetch (PostRetry id stepKey) ;;
  success ← executeStep st stepIndex ;
  when success
    (step_loop false (stepIndex + 1) (drop (stepIndex + 1) names) ;;
     when (Z.of_nat stepIndex =? Z.of_nat (length names) - 1) onPipelineComplete).

(** The user presses the retry button, if one is on display. *)
Definition click_retry : M state unit :=
  p ← gets ui ;
  match retryButton p with
  | Some b =>
      when (hasRetryButtonTarget p && negb (retryButtonHidden p))
        (retryStep (data_step_key b) (data_step_index b))
  | None => mret tt
  end.

(** Projections used to state what a run did. *)
Definition step_requests (t : list event) : list string :=
  omap (fun e => match e with Fetch (PostStep _ k) => Some k | _ => None end) t.

Inductive pipeline_event :=
| Requested (step_key : string)
| Done (stepIndex : nat).

Definition pipeline_events (t : list event) : list pipeline_event :=
  omap (fun e =>
          match e with
          | Fetch (PostStep _ k) => Some (Requested k)
          | StepStatus i Completed => Some (Done i)
          | _ => None
          end) t.

(** The trace of a run over the steps [done], from index [i] on, all
    completed, and then possibly one more step that was requested and did not
    complete. *)
Fixpoint run_of (i : nat) (done : list step) (failed : option step) : list pipeline_event :=
  match done with
  | [] => match failed with Some st => [Requested (key st)] | None => [] end
  | st :: done' => Requested (key st) :: Done i :: run_of (S i) done' failed
  end.

(** [s'] is [s] after the events [new]: what a run leaves alone. *)
Record extends (s : state) (new : list event) (s' : state) : Prop := {
  ext_trace : trace s' = trace s ++ new;
  ext_backend : backend s' = backend s;
  ext_blogPostId : blogPostId s' = blogPostId s;
  ext_stepNames : stepNames s' = stepNames s;
  ext_maxRetries : maxRetries s' = maxRetries s;
  ext_retryCount : retryCount s' = retryCount s;
  ext_rows : length (rows (ui s')) = length (rows (ui s));
  ext_projectId : projectIdValue s' = projectIdValue s;
  ext_flags :
    hasProgressBarTarget (ui s') = hasProgressBarTarget (ui s)
    /\ hasErrorMessageTarget (ui s') = hasErrorMessageTarget (ui s)
    /\ hasRetryButtonTarget (ui s') = hasRetryButtonTarget (ui s)
    /\ hasCloseButtonTarget (ui s') = hasCloseButtonTarget (ui s)
}.

(** The start request got a JSON body whose status is not [error]. *)
Definition start_gives (s : state) (data : body) : Prop :=
  backend s (requests (trace s)) (PostStart (suggestionIdValue s)) = Answer (Some data)
  /\ is_str (status data) "error" = false.

(** A retry is on offer: the retry button is displayed. *)
Definition retry_offered (s : state) : bool :=
  hasRetryButtonTarget (ui s) && negb (retryButtonHidden (ui s))
  && bool_decide (is_Some (retryButton (ui s))).

Definition completion_reported (s : state) : bool :=
  bool_decide (("Blog post generated successfully!", "success") ∈ messages (trace s)).

(** ** A run to evaluate: the structure step keeps failing

    The page as its template renders it (dialog, error, retry and close
    elements hidden), connected; the back end starts post 42 and answers
    every request for a step with an error. *)

Definition rendered_page : page :=
  {| hasDialogTarget := true; hasProgressBarTarget := true;
     hasErrorMessageTarget := true; hasRetryButtonTarget := true;
     hasCloseButtonTarget := true;
     dialogHidden := true; rows := []; progress := None;
     errorMessage := None; errorMessageHidden := true;
     retryButton := None; retryButtonHidden := true;
     closeLink := None; closeButtonHidden := true |}.

Definition loaded (be : list request -> request -> fetch_result) : state :=
  exec connect
    {| suggestionIdValue := 7; projectIdValue := 1; blogPostId := None;
       currentStep := None; retryCount := ∅; maxRetries := 0; stepNames := [];
       ui := rendered_page; trace := []; backend := be |}.

Definition started_42 : body :=
  {| status := Some "success"; message := None; blog_post_id := Some 42 |}.

Definition steps_fail (history : list request) (r : request) : fetch_result :=
  match r with
  | PostStart _ => Answer (Some started_42)
  | PostStep _ _ =>
      Answer (Some {| status := Some "error"; message := Some "boom";
                      blog_post_id := None |})
  | PostRetry _ _ => Answer (Some started_42)
  end.

Definition steps_succeed (history : list request) (r : request) : fetch_result :=
  Answer (Some started_42).

End BlogGenerationPipeline.

(** * The generate-content controller with a background task
    ([unnamed/part_006])

    This version of the generate-content controller queues one task on the
    back end, records it in [localStorage] so that a reload can pick it up,
    and polls the task status with [setTimeout].  A timer that is armed is
    the closure it will run: [poll] returns the closure of the timer it arms,
    and [poll_chain] runs the timers one after another. *)

Module GenerateContentTask.

Record body := {
  status : option string;
  message : option string;
  task_id : option string;
  blog_post_id : option Z
}.

Record response := {
  ok : bool;
  json_body : option body   (* [None]: [response.json()] rejects *)
}.

Inductive fetch_result :=
| NetworkError (e : string)
| Answer (r : response).

Inductive request :=
| PostGenerate (suggestionId : Z)
| GetTaskStatus (taskId : option string).

Inductive button :=
| ServerRendered              (* what the template put there *)
| GeneratingButton
| ViewPostLink (projectId : Z) (blogPostId : option Z)
| GenerateButton.

Inductive status_badge :=
| Generating
| GeneratingFor (minutes seconds : Z)
| Generated
| ReadyToGenerate.

Inductive post_button := PostButton | SetupLink | ProOnlyLink.

Inductive event :=
| Fetch (r : request)
| SetTimeout (delay : Z)
| ShowMessage (text kind : string).

(** [JSON.parse] and [JSON.stringify], on the texts this controller keeps
    in [localStorage]. *)
Record json_codec := {
  (** [const { taskId, startTime } = JSON.parse(text)]: [None] when it
      throws; else the task id and the start time as a number of
      milliseconds, [None] for a start time that is missing or not a number
      (arithmetic on it gives [NaN]). *)
  parse_task : string -> option (option string * option Z);
  (** [JSON.parse(text).flag || false]: [None] when it throws. *)
  parse_flag : string -> string -> option bool;
  (** [JSON.stringify({ taskId, startTime })] *)
  stringify_task : option string -> Z -> string
}.

(** The variables [poll] closes over. *)
Record poll_closure := {
  poll_taskId : option string;
  attempts : Z
}.

Record state := {
  suggestionIdValue : Z;
  projectIdValue : Z;
  hasStatusTarget : bool;
  expandedValue : bool;
  pollingTimeoutId : option nat;
  localStorage : gmap string string;
  buttonContainer : button;
  statusBadge : option status_badge;
  postButton : option (post_button * option Z);
  trace : list event;
  backend : list request -> request -> fetch_result
}.

Definition set_expandedValue (v : bool) (s : state) : state :=
  let '(Build_state a b c _ e f g h i j k) := s in Build_state a b c v e f g h i j k.
Definition set_pollingTimeoutId (v : option nat) (s : state) : state :=
  let '(Build_state a b c d _ f g h i j k) := s in Build_state a b c d v f g h i j k.
Definition set_localStorage (v : gmap string string) (s : state) : state :=
  let '(Build_state a b c d e _ g h i j k) := s in Build_state a b c d e v g h i j k.
Definition set_buttonContainer (v : button) (s : state) : state :=
  let '(Build_state a b c d e f _ h i j k) := s in Build_state a b c d e f v h i j k.
Definition set_statusBadge (v : option status_badge) (s : state) : state :=
  let '(Build_state a b c d e f g _ i j k) := s in Build_state a b c d e f g v i j k.
Definition set_postButton (v : option (post_button * option Z)) (s : state) : state :=
  let '(Build_state a b c d e f g h _ j k) := s in Build_state a b c d e f g h v j k.
Definition log (v : event) (s : state) : state :=
  let '(Build_state a b c d e f g h i j k) := s in
  Build_state a b c d e f g h i (j ++ [v]) k.

Definition requests (t : list event) : list request :=
  omap (fun e => match e with Fetch r => Some r | _ => None end) t.

Definition timeouts (t : list event) : list Z :=
  omap (fun e => match e with SetTimeout d => Some d | _ => None end) t.

Definition fetch (r : request) : M state response :=
  fun s =>
    let s' := log (Fetch r) s in
    match backend s (requests (trace s)) r with
    | NetworkError e => (Throw e, s')
    | Answer a => (Return a, s')
    end.

Definition json_error : string := "Unexpected token in JSON".

Definition json (r : response) : M state body :=
  match json_body r with
  | Some b => mret b
  | None => throw json_error
  end.

Definition showMessage (text kind : string) : M state unit :=
  modify (log (ShowMessage text kind)).

(** [`blog_generation_task_${this.suggestionIdValue}`] *)
Definition taskKey (s : state) : string :=
  "blog_generation_task_" +:+ pretty (suggestionIdValue s).

Definition removeItem (k : string) : M state unit :=
  modify (fun s => set_localStorage (delete k (localStorage s)) s).

Definition setItem (k v : string) : M state unit :=
  modify (fun s => set_localStorage (<[k := v]> (localStorage s)) s).

Definition set_status (v : status_badge) : M state unit :=
  has ← gets hasStatusTarget ;
  when has (modify (set_statusBadge (Some v))).

(** [setTimeout(poll, delay)], kept in [pollingTimeoutId]: timer ids count
    up from 1. *)
Definition arm (delay : Z) : M state unit :=
  modify (log (SetTimeout delay)) ;;
  t ← gets trace ;
  modify (set_pollingTimeoutId (Some (length (timeouts t)))).

Definition pollInterval : Z := 3000.
Definition initialDelay : Z := 2000.
Definition maxAttempts : Z := 100.

(** [x < y] on the rationals. *)
Definition Qltb (x y : Q) : bool := negb (Qle_bool y x).

(** [(Date.now() - startTime) / 1000 / 60], over the rationals.  The
    controller computes it in double precision; on whole milliseconds its
    comparison with 10 comes out the same, since 600 and 10 are exact and
    rounding is monotone. *)
Definition elapsedMinutes (now startTime : Z) : Q :=
  (inject_Z (now - startTime) / 1000 / 60)%Q.

Section WithJSON.
Context (JSON : json_codec).

(** [item ? JSON.parse(item) : {}] and then [.flag || false] *)
Definition stored_flag (item : option string) (flag : string) : M state bool :=
  match item with
  | Some text =>
      if truthy text
      then match parse_flag JSON flag text with
           | Some b => mret b
           | None => throw json_error
           end
      else mret false
  | None => mret false
  end.

Definition _appendPostButton (generatedPostId : option Z) : M state unit :=
  modify (set_postButton None) ;;
  store ← gets localStorage ;
  project ← gets projectIdValue ;
  hasPro ← stored_flag (store !! "userProfileSettings") "has_pro_subscription" ;
  hasAutoSubmit ← stored_flag (store !! ("projectSettings:" +:+ pretty project))
                    "has_auto_submission_setting" ;
  modify (set_postButton
            (Some (if hasPro && hasAutoSubmit then PostButton
                   else if hasPro && negb hasAutoSubmit then SetupLink
                   else ProOnlyLink,
                   generatedPostId))).

Definition _updateToCompletedState (blogPostId : option Z) : M state unit :=
  k ← gets taskKey ;
  removeItem k ;;
  project ← gets projectIdValue ;
  modify (set_buttonContainer (ViewPostLink project blogPostId)) ;;
  set_status Generated ;;
  _appendPostButton blogPostId ;;
  showMessage "Content generated successfully!" "success".

Definition _resetToInitialState : M state unit :=
  k ← gets taskKey ;
  removeItem k ;;
  modify (set_buttonContainer GenerateButton) ;;
  set_status ReadyToGenerate.

Definition too_long : string :=
  "Content generation is taking longer than expected. Please refresh the page to check status.".

(** One run of the timer callback [poll]; the result is the closure of the
    timer it arms, if it arms one. *)
Definition poll (c : poll_closure) : M state (option poll_closure) :=
  let attempts := attempts c + 1 in
  try_catch
    (response ← fetch (GetTaskStatus (poll_taskId c)) ;
     (if negb (ok response) then throw "Failed to check task status" else mret tt) ;;
     statusData ← json response ;
     if is_str (status statusData) "completed" then
       _updateToCompletedState (blog_post_id statusData) ;;
       mret None
     else if is_str (status statusData) "failed" then
       throw (or_else (message statusData) "Content generation failed")
     else if is_str (status statusData) "processing" then
       (if attempts >=? maxAttempts then throw too_long else mret tt) ;;
       set_status (GeneratingFor ((attempts * pollInterval) / 60000)
                                 (((attempts * pollInterval) `mod` 60000) / 1000)) ;;
       arm pollInterval ;;
       mret (Some {| poll_taskId := poll_taskId c; attempts := attempts |})
     else if is_str (status statusData) "error" then
       throw (or_else (message statusData) "Content generation encountered an error")
     else mret None)
    (fun error =>
       showMessage (or_else (Some error) "Failed to check generation status") "error" ;;
       _resetToInitialState ;;
       mret None).

(** [_pollTaskStatus] arms the first timer and returns. *)
Definition _pollTaskStatus (taskId : option string) : M state poll_closure :=
  arm initialDelay ;;
  mret {| poll_taskId := taskId; attempts := 0 |}.

(** The timers run one after another until a run of [poll] arms none.
    [true]: the chain ended; [false]: [fuel] runs were not enough. *)
Fixpoint poll_chain (fuel : nat) (c : poll_closure) : M state bool :=
  match fuel with
  | O => mret false
  | S fuel' =>
      next ← poll c ;
      match next with
      | Some c' => poll_chain fuel' c'
      | None => mret true
      end
  end.

(** A whole polling session for one task: [_pollTaskStatus] and the timers
    that follow, at most [fuel] of them. *)
Definition polling (fuel : nat) (taskId : option string) : M state bool :=
  c ← _pollTaskStatus taskId ;
  poll_chain fuel c.

(** [now] is [Date.now()].  The result is the timer left armed. *)
Definition _checkForOngoingTask (now : Z) : M state (option poll_closure) :=
  k ← gets taskKey ;
  store ← gets localStorage ;
  match store !! k with
  | Some taskData =>
      if truthy taskData
      then
        try_catch
          (match parse_task JSON taskData with
           | None => throw json_error
           | Some (taskId, startTime) =>
               if match startTime with
                  | Some t => Qltb (elapsedMinutes now t) 10
                  | None => false
                  end
               then
                 modify (set_buttonContainer GeneratingButton) ;;
                 set_status Generating ;;
                 c ← _pollTaskStatus taskId ;
                 mret (Some c)
               else removeItem k ;; mret None
           end)
          (fun _ => removeItem k ;; mret None)
      else mret None
  | None => mret None
  end.

Definition connect (now : Z) : M state (option poll_closure) :=
  modify (set_expandedValue false) ;;
  modify (set_pollingTimeoutId None) ;;
  _checkForOngoingTask now.

Definition started : string :=
  "Blog post generation started! We're doing extensive research which can take several minutes. We'll send you an email once it's ready.".

Definition generate (now : Z) : M state (option poll_closure) :=
  try_catch
    (modify (set_buttonContainer GeneratingButton) ;;
     set_status Generating ;;
     suggestion ← gets suggestionIdValue ;
     response ← fetch (PostGenerate suggestion) ;
     (if negb (ok response)
      then error ← json response ;
           throw (or_else (message error) "Generation failed")
      else mret tt) ;;
     data ← json response ;
     (if is_str (status data) "error"
      then throw (or_else (message data) "Generation failed")
      else mret tt) ;;
     if is_str (status data) "processing"
        && match task_id data with Some i => truthy i | None => false end
     then
       k ← gets taskKey ;
       setItem k (stringify_task JSON (task_id data) now) ;;
       showMessage started "success" ;;
       c ← _pollTaskStatus (task_id data) ;
       mret (Some c)
     else throw "Unexpected response status")
    (fun error =>
       showMessage (or_else (Some error) "Failed to generate content. Please try again later.")
         "error" ;;
       _resetToInitialState ;;
       mret None).

(** A handler that may leave a timer armed, followed by the timers. *)
Definition then_timers (handler : M state (option poll_closure)) : M state bool :=
  armed ← handler ;
  match armed with
  | Some c => poll_chain (Z.to_nat maxAttempts) c
  | None => mret true
  end.

(** A handler and the [fuel] timers that fire before the page is left: a
    timer still pending then is lost with the page, [localStorage] stays. *)
Definition until_the_page_is_left (fuel : nat) (handler : M state (option poll_closure)) :
    M state bool :=
  armed ← handler ;
  match armed with
  | Some c => poll_chain fuel c
  | None => mret true
  end.

(** The user presses Generate at [pressed], the page is reloaded after
    [fuel] status requests, the card connects again at [loaded], and the
    timers run to their end.  What the new page shows in the card is set by
    [connect] when it resumes the task. *)
Definition generate_and_reload (pressed loaded : Z) (fuel : nat) : M state bool :=
  until_the_page_is_left fuel (generate pressed) ;;
  then_timers (connect loaded).

End WithJSON.

(** The task of [taskId] is resumed: the generating state is on display and
    the first timer of its polling is armed. *)
Definition resumes (taskId : option string) (s : state)
    (run : outcome (option poll_closure) * state) : Prop :=
  fst run = Return (Some {| poll_taskId := taskId; attempts := 0 |})
  /\ buttonContainer (snd run) = GeneratingButton
  /\ trace (snd run) = trace s ++ [SetTimeout initialDelay]
  /\ localStorage (snd run) = localStorage s.

(** The entry is dropped and nothing is resumed. *)
Definition discards (s : state) (run : outcome (option poll_closure) * state) : Prop :=
  fst run = Return None
  /\ localStorage (snd run) = delete (taskKey s) (localStorage s)
  /\ buttonContainer (snd run) = buttonContainer s
  /\ trace (snd run) = trace s.

(** In a polling session for [taskId] that starts in [s], the answer to
    status request number [i], counted from 0, is OK and says [processing].
    The back end has seen by then the requests made before the session and
    [i] status requests of the task. *)
Definition processing_at (s : state) (taskId : option string) (i : nat) : Prop :=
  exists b,
    backend s (requests (trace s) ++ repeat (GetTaskStatus taskId) i) (GetTaskStatus taskId)
    = Answer {| ok := true; json_body := Some b |}
    /\ status b = Some "processing".

(** The requests and timers of a trace, in order. *)
Definition timeline (t : list event) : list event :=
  List.filter (fun e => match e with ShowMessage _ _ => false | _ => true end) t.

(** [n] more polls of a task: each a timer of one interval and then the
    request. *)
Definition polls (taskId : option string) (n : nat) : list event :=
  concat (repeat [SetTimeout pollInterval; Fetch (GetTaskStatus taskId)] n).

(** ** Runs to evaluate

    A card of suggestion 7 after a reload, with [store] as its
    [localStorage].  [one_text] is a codec that is right on the one text the
    runs keep there: a task [abc] started at time 1000. *)

Definition stored_text : string := "{taskId:abc,startTime:1000}".

Definition one_text : json_codec :=
  {| parse_task text :=
       if String.eqb text stored_text then Some (Some "abc", Some 1000) else None;
     parse_flag flag text := Some false;
     stringify_task taskId startTime := stored_text |}.

Definition reloaded (store : gmap string string)
    (be : list request -> request -> fetch_result) : state :=
  {| suggestionIdValue := 7; projectIdValue := 1; hasStatusTarget := true;
     expandedValue := false; pollingTimeoutId := None;
     localStorage := store;
     buttonContainer := ServerRendered; statusBadge := None; postButton := None;
     trace := []; backend := be |}.

Definition says (text : string) : body :=
  {| status := Some text; message := None; task_id := Some "abc"; blog_post_id := Some 42 |}.

Definition always_processing (history : list request) (r : request) : fetch_result :=
  Answer {| ok := true; json_body := Some (says "processing") |}.

(** The task is queued, and every status request is answered with the
    status [pending]. *)
Definition answers_pending (history : list request) (r : request) : fetch_result :=
  match r with
  | GetTaskStatus _ => Answer {| ok := true; json_body := Some (says "pending") |}
  | PostGenerate _ => Answer {| ok := true; json_body := Some (says "processing") |}
  end.

(** Two answers [processing], then [completed]. *)
Definition done_at_third (history : list request) (r : request) : fetch_result :=
  match r with
  | GetTaskStatus _ =>
      Answer {| ok := true;
                json_body := Some (says (if (length history <? 2)%nat
                                         then "processing" else "completed")) |}
  | PostGenerate _ => Answer {| ok := true; json_body := Some (says "processing") |}
  end.

End GenerateContentTask.

(** * The onboarding modal
    ([frontend/src/controllers/onboarding_modal_controller.js]) *)

Module OnboardingModal.

(** [element.classList]: an ordered set of tokens. *)
Definition classList := list string.

Definition contains (c : classList) (token : string) : bool :=
  bool_decide (token ∈ c).

(** [classList.add(...tokens)] *)
Definition add (tokens : list string) (c : classList) : classList :=
  fold_left (fun c token => if contains c token then c else c ++ [token]) tokens c.

(** [classList.remove(...tokens)] *)
Definition remove (tokens : list string) (c : classList) : classList :=
  List.filter (fun token => negb (bool_decide (token ∈ tokens))) c.

Definition active_classes : list string := ["bg-gray-800"; "border-gray-800"; "w-6"].
Definition inactive_classes : list string := ["bg-gray-300"; "border-gray-300"; "w-4"].

Record body := {
  reachable : bool;              (* the truthiness of [data.reachable] *)
  status : option string;
  message : option string;
  id : option Z
}.

Record response := {
  ok : bool;
  json_body : option body
}.

Inductive fetch_result :=
| NetworkError (e : string)
| Answer (r : response).

Inductive request :=
| PostValidateUrl (url : string)
| PostProject (url : string).

Inductive event :=
| Fetch (r : request)
| SetTimeout (delay : Z)
| Alert (text : string)
| ConsoleLog (text : string)
| ConsoleError (text : string).

Record state := {
  currentStep : Z;
  createdProjectId : option Z;
  validationTimeout : option nat;
  isUrlReachable : bool;
  urlInputValue : string;
  urlErrorTarget : classList;
  continueButtonDisabled : bool;
  step1Target : classList;
  step2Target : classList;
  step3Target : classList;
  step1IndicatorTarget : classList;
  step2IndicatorTarget : classList;
  step3IndicatorTarget : classList;
  checkingIndicatorTarget : classList;
  reachableIndicatorTarget : classList;
  unreachableIndicatorTarget : classList;
  unreachableMessage : string;
  hasProjectLinkTarget : bool;
  hasPlaceholderLink : bool;       (* [element.querySelector('a[href="#"]')] finds one *)
  projectLinkHref : option string;
  trace : list event;
  backend : list request -> request -> fetch_result
}.

Definition set_currentStep (v : Z) (s : state) : state :=
  let '(Build_state _ a2 a3 a4 a5 a6 a7 a8 a9 a10 a11 a12 a13 a14 a15 a16 a17 a18 a19 a20 a21 a22) := s in
  Build_state v a2 a3 a4 a5 a6 a7 a8 a9 a10 a11 a12 a13 a14 a15 a16 a17 a18 a19 a20 a21 a22.
Definition set_createdProjectId (v : option Z) (s : state) : state :=
  let '(Build_state a1 _ a3 a4 a5 a6 a7 a8 a9 a10 a11 a12 a13 a14 a15 a16 a17 a18 a19 a20 a21 a22) := s in
  Build_state a1 v a3 a4 a5 a6 a7 a8 a9 a10 a11 a12 a13 a14 a15 a16 a17 a18 a19 a20 a21 a22.
Definition set_validationTimeout (v : option nat) (s : state) : state :=
  let '(Build_state a1 a2 _ a4 a5 a6 a7 a8 a9 a10 a11 a12 a13 a14 a15 a16 a17 a18 a19 a20 a21 a22) := s in
  Build_state a1 a2 v a4 a5 a6 a7 a8 a9 a10 a11 a12 a13 a14 a15 a16 a17 a18 a19 a20 a21 a22.
Definition set_isUrlReachable (v : bool) (s : state) : state :=
  let '(Build_state a1 a2 a3 _ a5 a6 a7 a8 a9 a10 a11 a12 a13 a14 a15 a16 a17 a18 a19 a20 a21 a22) := s in
  Build_state a1 a2 a3 v a5 a6 a7 a8 a9 a10 a11 a12 a13 a14 a15 a16 a17 a18 a19 a20 a21 a22.
Definition on_urlError (f : classList -> classList) (s : state) : state :=
  let '(Build_state a1 a2 a3 a4 a5 a6 a7 a8 a9 a10 a11 a12 a13 a14 a15 a16 a17 a18 a19 a20 a21 a22) := s in
  Build_state a1 a2 a3 a4 a5 (f a6) a7 a8 a9 a10 a11 a12 a13 a14 a15 a16 a17 a18 a19 a20 a21 a22.
Definition set_continueButtonDisabled (v : bool) (s : state) : state :=
  let '(Build_state a1 a2 a3 a4 a5 a6 _ a8 a9 a10 a11 a12 a13 a14 a15 a16 a17 a18 a19 a20 a21 a22) := s in
  Build_state a1 a2 a3 a4 a5 a6 v a8 a9 a10 a11 a12 a13 a14 a15 a16 a17 a18 a19 a20 a21 a22.
Definition on_step1 (f : classList -> classList) (s : state) : state :=
  let '(Build_state a1 a2 a3 a4 a5 a6 a7 a8 a9 a10 a11 a12 a13 a14 a15 a16 a17 a18 a19 a20 a21 a22) := s in
  Build_state a1 a2 a3 a4 a5 a6 a7 (f a8) a9 a10 a11 a12 a13 a14 a15 a16 a17 a18 a19 a20 a21 a22.
Definition on_step2 (f : classList -> classList) (s : state) : state :=
  let '(Build_state a1 a2 a3 a4 a5 a6 a7 a8 a9 a10 a11 a12 a13 a14 a15 a16 a17 a18 a19 a20 a21 a22) := s in
  Build_state a1 a2 a3 a4 a5 a6 a7 a8 (f a9) a10 a11 a12 a13 a14 a15 a16 a17 a18 a19 a20 a21 a22.
Definition on_step3 (f : classList -> classList) (s : state) : state :=
  let '(Build_state a1 a2 a3 a4 a5 a6 a7 a8 a9 a10 a11 a12 a13 a14 a15 a16 a17 a18 a19 a20 a21 a22) := s in
  Build_state a1 a2 a3 a4 a5 a6 a7 a8 a9 (f a10) a11 a12 a13 a14 a15 a16 a17 a18 a19 a20 a21 a22.
Definition on_step1Indicator (f : classList -> classList) (s : state) : state :=
  let '(Build_state a1 a2 a3 a4 a5 a6 a7 a8 a9 a10 a11 a12 a13 a14 a15 a16 a17 a18 a19 a20 a21 a22) := s in
  Build_state a1 a2 a3 a4 a5 a6 a7 a8 a9 a10 (f a11) a12 a13 a14 a15 a16 a17 a18 a19 a20 a21 a22.
Definition on_step2Indicator (f : classList -> classList) (s : state) : state :=
  let '(Build_state a1 a2 a3 a4 a5 a6 a7 a8 a9 a10 a11 a12 a13 a14 a15 a16 a17 a18 a19 a20 a21 a22) := s in
  Build_state a1 a2 a3 a4 a5 a6 a7 a8 a9 a10 a11 (f a12) a13 a14 a15 a16 a17 a18 a19 a20 a21 a22.
Definition on_step3Indicator (f : classList -> classList) (s : state) : state :=
  let '(Build_state a1 a2 a3 a4 a5 a6 a7 a8 a9 a10 a11 a12 a13 a14 a15 a16 a17 a18 a19 a20 a21 a22) := s in
  Build_state a1 a2 a3 a4 a5 a6 a7 a8 a9 a10 a11 a12 (f a13) a14 a15 a16 a17 a18 a19 a20 a21 a22.
Definition on_checkingIndicator (f : classList -> classList) (s : state) : state :=
  let '(Build_state a1 a2 a3 a4 a5 a6 a7 a8 a9 a10 a11 a12 a13 a14 a15 a16 a17 a18 a19 a20 a21 a22) := s in
  Build_state a1 a2 a3 a4 a5 a6 a7 a8 a9 a10 a11 a12 a13 (f a14) a15 a16 a17 a18 a19 a20 a21 a22.
Definition on_reachableIndicator (f : classList -> classList) (s : state) : state :=
  let '(Build_state a1 a2 a3 a4 a5 a6 a7 a8 a9 a10 a11 a12 a13 a14 a15 a16 a17 a18 a19 a20 a21 a22) := s in
  Build_state a1 a2 a3 a4 a5 a6 a7 a8 a9 a10 a11 a12 a13 a14 (f a15) a16 a17 a18 a19 a20 a21 a22.
Definition on_unreachableIndicator (f : classList -> classList) (s : state) : state :=
  let '(Build_state a1 a2 a3 a4 a5 a6 a7 a8 a9 a10 a11 a12 a13 a14 a15 a16 a17 a18 a19 a20 a21 a22) := s in
  Build_state a1 a2 a3 a4 a5 a6 a7 a8 a9 a10 a11 a12 a13 a14 a15 (f a16) a17 a18 a19 a20 a21 a22.
Definition set_unreachableMessage (v : string) (s : state) : state :=
  let '(Build_state a1 a2 a3 a4 a5 a6 a7 a8 a9 a10 a11 a12 a13 a14 a15 a16 _ a18 a19 a20 a21 a22) := s in
  Build_state a1 a2 a3 a4 a5 a6 a7 a8 a9 a10 a11 a12 a13 a14 a15 a16 v a18 a19 a20 a21 a22.
Definition set_projectLinkHref (v : option string) (s : state) : state :=
  let '(Build_state a1 a2 a3 a4 a5 a6 a7 a8 a9 a10 a11 a12 a13 a14 a15 a16 a17 a18 a19 _ a21 a22) := s in
  Build_state a1 a2 a3 a4 a5 a6 a7 a8 a9 a10 a11 a12 a13 a14 a15 a16 a17 a18 a19 v a21 a22.
Definition log (v : event) (s : state) : state :=
  let '(Build_state a1 a2 a3 a4 a5 a6 a7 a8 a9 a10 a11 a12 a13 a14 a15 a16 a17 a18 a19 a20 a21 a22) := s in
  Build_state a1 a2 a3 a4 a5 a6 a7 a8 a9 a10 a11 a12 a13 a14 a15 a16 a17 a18 a19 a20 (a21 ++ [v]) a22.

Definition requests (t : list event) : list request :=
  omap (fun e => match e with Fetch r => Some r | _ => None end) t.

Definition timeouts (t : list event) : list Z :=
  omap (fun e => match e with SetTimeout d => Some d | _ => None end) t.

Definition fetch (r : request) : M state response :=
  fun s =>
    let s' := log (Fetch r) s in
    match backend s (requests (trace s)) r with
    | NetworkError e => (Throw e, s')
    | Answer a => (Return a, s')
    end.

Definition json_error : string := "Unexpected token in JSON".

Definition json (r : response) : M state body :=
  match json_body r with
  | Some b => mret b
  | None => throw json_error
  end.

Definition connect : M state unit :=
  modify (set_currentStep 1) ;;
  modify (set_createdProjectId None) ;;
  modify (set_validationTimeout None) ;;
  modify (set_isUrlReachable false).

Definition hideAllIndicators : M state unit :=
  modify (on_checkingIndicator (add ["hidden"])) ;;
  modify (on_checkingIndicator (remove ["flex"])) ;;
  modify (on_reachableIndicator (add ["hidden"])) ;;
  modify (on_reachableIndicator (remove ["flex"])) ;;
  modify (on_unreachableIndicator (add ["hidden"])) ;;
  modify (on_unreachableIndicator (remove ["flex"])).

(** [setTimeout(callback, delay)]; timer ids count up from 1. *)
Definition setTimeout (delay : Z) : M state nat :=
  modify (log (SetTimeout delay)) ;;
  t ← gets trace ;
  mret (length (timeouts t)).

Definition show_unreachable (text : string) : M state unit :=
  modify (on_unreachableIndicator (remove ["hidden"])) ;;
  modify (on_unreachableIndicator (add ["flex"])) ;;
  modify (set_unreachableMessage text) ;;
  modify (set_isUrlReachable false) ;;
  modify (set_continueButtonDisabled true).

Definition checkUrlReachability (url_value : string) : M state unit :=
  try_catch
    (response ← fetch (PostValidateUrl url_value) ;
     (if negb (ok response) then throw "Failed to validate URL" else mret tt) ;;
     data ← json response ;
     hideAllIndicators ;;
     if reachable data
     then
       modify (on_reachableIndicator (remove ["hidden"])) ;;
       modify (on_reachableIndicator (add ["flex"])) ;;
       modify (set_isUrlReachable true) ;;
       modify (set_continueButtonDisabled false)
     else show_unreachable (or_else (message data) "URL is not reachable"))
    (fun error =>
       modify (log (ConsoleError "Error checking URL reachability:")) ;;
       hideAllIndicators ;;
       show_unreachable "Could not verify URL reachability").

(** [`/project/${id}/`] *)
Definition project_url (id : Z) : string := "/project/" +:+ pretty id +:+ "/".

Definition goToStep (step_number : Z) : M state unit :=
  modify (set_currentStep step_number) ;;
  modify (on_step1 (add ["hidden"])) ;;
  modify (on_step2 (add ["hidden"])) ;;
  modify (on_step3 (add ["hidden"])) ;;
  modify (on_step1Indicator (remove active_classes)) ;;
  modify (on_step1Indicator (add inactive_classes)) ;;
  modify (on_step2Indicator (remove active_classes)) ;;
  modify (on_step2Indicator (add inactive_classes)) ;;
  modify (on_step3Indicator (remove active_classes)) ;;
  modify (on_step3Indicator (add inactive_classes)) ;;
  if step_number =? 1 then
    modify (on_step1 (remove ["hidden"])) ;;
    modify (on_step1 (add ["flex"])) ;;
    modify (on_step1Indicator (remove inactive_classes)) ;;
    modify (on_step1Indicator (add active_classes))
  else if step_number =? 2 then
    modify (on_step2 (remove ["hidden"])) ;;
    modify (on_step2 (add ["flex"])) ;;
    modify (on_step2Indicator (remove inactive_classes)) ;;
    modify (on_step2Indicator (add active_classes))
  else if step_number =? 3 then
    modify (on_step3 (remove ["hidden"])) ;;
    modify (on_step3 (add ["flex"])) ;;
    modify (on_step3Indicator (remove inactive_classes)) ;;
    modify (on_step3Indicator (add active_classes)) ;;
    created ← gets createdProjectId ;
    match created with
    | Some project =>
        if project =? 0 then mret tt
        else
          has_target ← gets hasProjectLinkTarget ;
          has_placeholder ← gets hasPlaceholderLink ;
          if (has_target : bool) then
            modify (set_projectLinkHref (Some (project_url project))) ;;
            modify (log (ConsoleLog "Project link updated to:"))
          else if (has_placeholder : bool) then
            modify (set_projectLinkHref (Some (project_url project))) ;;
            modify (log (ConsoleLog "Project link updated via fallback to:"))
          else modify (log (ConsoleError "Could not find project link element"))
    | None => mret tt
    end
  else mret tt.

Section WithBuiltins.
(** [String.prototype.trim] and [/^https?:\/\/.+/i.test]. *)
Context (trim : string -> string) (url_pattern_test : string -> bool).

(** The result is the URL of the reachability check that was scheduled. *)
Definition validateUrl : M state (option string) :=
  url_value ← gets (fun s => trim (urlInputValue s)) ;
  let is_valid := url_pattern_test url_value in
  hideAllIndicators ;;
  (* [clearTimeout] of a pending check: the caller drops its closure *)
  if is_valid then
    modify (on_urlError (add ["hidden"])) ;;
    modify (set_continueButtonDisabled true) ;;
    modify (set_isUrlReachable false) ;;
    modify (on_checkingIndicator (remove ["hidden"])) ;;
    modify (on_checkingIndicator (add ["flex"])) ;;
    timer ← setTimeout 500 ;
    modify (set_validationTimeout (Some timer)) ;;
    mret (Some url_value)
  else
    when (truthy url_value) (modify (on_urlError (remove ["hidden"]))) ;;
    modify (set_continueButtonDisabled true) ;;
    modify (set_isUrlReachable false) ;;
    mret None.

(** [true] when the timer that shows step 3 was armed. *)
Definition submitProject : M state bool :=
  url_value ← gets (fun s => trim (urlInputValue s)) ;
  reachable ← gets isUrlReachable ;
  if negb (truthy url_value) || negb reachable then mret false
  else
    goToStep 2 ;;
    try_catch
      (response ← fetch (PostProject url_value) ;
       (if negb (ok response) then throw "Failed to create project" else mret tt) ;;
       data ← json response ;
       (if negb (is_str (status data) "success")
        then throw (or_else (message data) "Failed to create project")
        else mret tt) ;;
       modify (set_createdProjectId (id data)) ;;
       setTimeout 1500 ;;
       mret true)
      (fun error =>
         modify (log (ConsoleError "Error creating project:")) ;;
         modify (log (Alert "There was an error creating your project. Please try again.")) ;;
         goToStep 1 ;;
         mret false).

End WithBuiltins.

(** A panel is on display when it does not carry [hidden]. *)
Definition visible (panel : classList) : bool := negb (contains panel "hidden").

Definition carries (tokens : list string) (c : classList) : Prop :=
  forall token, token ∈ tokens -> token ∈ c.

Definition carries_none (tokens : list string) (c : classList) : Prop :=
  forall token, token ∈ tokens -> token ∉ c.

Definition marked_active (indicator : classList) : Prop :=
  carries active_classes indicator /\ carries_none inactive_classes indicator.

Definition marked_inactive (indicator : classList) : Prop :=
  carries inactive_classes indicator /\ carries_none active_classes indicator.

(** The panel and the indicator of step [i]. *)
Definition panel (s : state) (i : Z) : classList :=
  if i =? 1 then step1Target s else if i =? 2 then step2Target s else step3Target s.

Definition indicator (s : state) (i : Z) : classList :=
  if i =? 1 then step1IndicatorTarget s
  else if i =? 2 then step2IndicatorTarget s else step3IndicatorTarget s.

(** ** Runs to evaluate

    The modal as it opens: step 1 on display, its indicator active, the
    controller connected; [typed] is the text in the URL field. *)

Definition opened (typed : string) (be : list request -> request -> fetch_result) : state :=
  exec connect
    {| currentStep := 0; createdProjectId := None; validationTimeout := None;
       isUrlReachable := false; urlInputValue := typed;
       urlErrorTarget := ["hidden"]; continueButtonDisabled := true;
       step1Target := ["flex"]; step2Target := ["hidden"]; step3Target := ["hidden"];
       step1IndicatorTarget := "rounded-full" :: active_classes;
       step2IndicatorTarget := "rounded-full" :: inactive_classes;
       step3IndicatorTarget := "rounded-full" :: inactive_classes;
       checkingIndicatorTarget := ["hidden"]; reachableIndicatorTarget := ["hidden"];
       unreachableIndicatorTarget := ["hidden"]; unreachableMessage := EmptyString;
       hasProjectLinkTarget := true; hasPlaceholderLink := true;
       projectLinkHref := None; trace := []; backend := be |}.

Definition site_is_up (history : list request) (r : request) : fetch_result :=
  Answer {| ok := true;
            json_body := Some {| reachable := true; status := Some "success";
                                 message := None; id := Some 5 |} |}.

(** [trim] on text without white space at its ends, which is all the runs
    type. *)
Definition no_trim (text : string) : string := text.

End OnboardingModal.

(** * The analytics event constants
    ([frontend/src/constants/analytics_events.js])

    The taxonomy is the JSON file [core/analytics/event_taxonomy.json]; the
    module is embedded for any taxonomy.  An object is the list of its
    properties in enumeration order, its keys all different. *)

Module AnalyticsEvents.

Section WithTaxonomy.
Context {event_info : Type}.
(** [String.prototype.toUpperCase] *)
Context (toUpperCase : string -> string).

Record taxonomy := {
  events : option (list (string * event_info));
  deprecated_aliases : option (list (string * string))
}.

Definition Object_keys {V} (o : list (string * V)) : list string := map fst o.

(** [Object.keys(eventTaxonomy.events || {})] *)
Definition canonicalEventNames (eventTaxonomy : taxonomy) : list string :=
  Object_keys (default [] (events eventTaxonomy)).

(** The [reduce] that fills [analyticsEvents]. *)
Definition analyticsEvents (eventTaxonomy : taxonomy) : gmap string string :=
  fold_left
    (fun events eventName => <[toUpperCase eventName := eventName]> events)
    (canonicalEventNames eventTaxonomy) ∅.

Definition ANALYTICS_EVENT_TAXONOMY (eventTaxonomy : taxonomy) : taxonomy := eventTaxonomy.
Definition ANALYTICS_EVENT_NAMES (eventTaxonomy : taxonomy) : list string :=
  canonicalEventNames eventTaxonomy.
Definition ANALYTICS_EVENTS (eventTaxonomy : taxonomy) : gmap string string :=
  analyticsEvents eventTaxonomy.
Definition DEPRECATED_ANALYTICS_EVENT_ALIASES (eventTaxonomy : taxonomy)
    : list (string * string) :=
  default [] (deprecated_aliases eventTaxonomy).

(** The names of the list that upper-case to [k]. *)
Definition upper_cased_to (k : string) (names : list string) : list string :=
  List.filter (fun name => String.eqb (toUpperCase name) k) names.

End WithTaxonomy.

(** [toUpperCase] on ASCII text. *)
Definition upper_ascii (c : Ascii.ascii) : Ascii.ascii :=
  let n := Ascii.nat_of_ascii c in
  if ((97 <=? n) && (n <=? 122))%nat then Ascii.ascii_of_nat (n - 32) else c.

Fixpoint toUpperCase_ascii (s : string) : string :=
  match s with
  | EmptyString => EmptyString
  | String c s' => String (upper_ascii c) (toUpperCase_ascii s')
  end.

(** The canonical events listed in [docs/event-taxonomy.md] (v1). *)
Definition taxonomy_v1 : @taxonomy unit :=
  {| events := Some (map (fun name => (name, tt))
       [ "site_visited"; "signup_completed"; "project_created"; "project_deleted";
         "first_title_generated"; "first_post_generated"; "first_publish_attempt";
         "pricing_cta_clicked"; "checkout_started"; "checkout_completed";
         "checkout_failed"; "subscription_created"; "subscription_upgraded";
         "subscription_cancelled"; "subscription_deleted" ]);
     deprecated_aliases := Some [("user_signed_up", "signup_completed")] |}.

End AnalyticsEvents.

(** * The progress dialog of the generate-content controller
    ([frontend/src/controllers/generate-content-controller.js])

    The handlers of [GenerateContent] record their calls of
    [_showProgressDialog], [_hideProgressDialog] and [_updateProgressStep];
    here is what those calls do to the document.  The document is given by
    the elements with the id [generation-progress-dialog], in document order,
    each by its rows; no other element of the page carries that id or a
    [data-step] attribute, and a step name holds no quote or backslash. *)

Module ProgressDialog.

(** What [innerHTML] of a [.step-icon] holds. *)
Inductive icon := NoIcon | Spinner | CheckMark | CrossMark.

(** A [div] with a [data-step] attribute: its icon, and the class and the
    text of its [.step-text]. *)
Record row := {
  data_step : string;
  step_icon : icon;
  text_className : string;
  textContent : string
}.

Definition dialog := list row.
Definition document := list dialog.

Definition new_row (step text : string) : row :=
  {| data_step := step; step_icon := NoIcon;
     text_className := "step-text text-sm"; textContent := text |}.

(** [document.body.appendChild(dialog)] *)
Definition _showProgressDialog (doc : document) : document :=
  doc ++ [[ new_row "structure" "Generating Structure";
            new_row "content" "Generating Content";
            new_row "preliminary_validation" "Validating Content";
            new_row "internal_links" "Adding Internal Links";
            new_row "final_validation" "Final Validation" ]].

(** [document.getElementById] gives the first element with the id. *)
Definition _hideProgressDialog (doc : document) : document :=
  match doc with
  | [] => []
  | _ :: rest => rest
  end.

(** The three branches on [status]; any other status leaves the icon and
    the class alone. *)
Definition restyle (status : string) (r : row) : row :=
  if String.eqb status "in_progress" then
    {| data_step := data_step r; step_icon := Spinner;
       text_className := "step-text text-sm font-medium text-blue-600";
       textContent := textContent r |}
  else if String.eqb status "completed" then
    {| data_step := data_step r; step_icon := CheckMark;
       text_className := "step-text text-sm text-gray-600 line-through";
       textContent := textContent r |}
  else if String.eqb status "failed" then
    {| data_step := data_step r; step_icon := CrossMark;
       text_className := "step-text text-sm font-medium text-red-600";
       textContent := textContent r |}
  else r.

(** [text.textContent = display_text]: [undefined] empties the text. *)
Definition set_textContent (display_text : option string) (r : row) : row :=
  {| data_step := data_step r; step_icon := step_icon r;
     text_className := text_className r;
     textContent := default EmptyString display_text |}.

(** The first row of a dialog with the given [data-step], changed by [f]. *)
Fixpoint update_row (step_name : string) (f : row -> row) (d : dialog) : option dialog :=
  match d with
  | [] => None
  | r :: d' =>
      if String.eqb (data_step r) step_name then Some (f r :: d')
      else cons r <$> update_row step_name f d'
  end.

(** [document.querySelector] gives the first match in document order;
    without one the function returns at once. *)
Fixpoint _updateProgressStep (step_name status : string) (display_text : option string)
    (doc : document) : document :=
  match doc with
  | [] => []
  | d :: rest =>
      match update_row step_name
              (fun r => set_textContent display_text (restyle status r)) d with
      | Some d' => d' :: rest
      | None => d :: _updateProgressStep step_name status display_text rest
      end
  end.

(** What a recorded event does to the document. *)
Definition apply (e : GenerateContent.event) (doc : document) : document :=
  match e with
  | GenerateContent.ShowProgressDialog => _showProgressDialog doc
  | GenerateContent.HideProgressDialog => _hideProgressDialog doc
  | GenerateContent.ProgressStep step_name status display_text =>
      _updateProgressStep step_name status display_text doc
  | _ => doc
  end.

Definition replay (t : list GenerateContent.event) (doc : document) : document :=
  fold_left (fun doc e => apply e doc) t doc.

(** The document after the handler [m] has run from the state [s], given
    the document before. *)
Definition page_after {A} (m : M GenerateContent.state A) (s : GenerateContent.state)
    (doc : document) : document :=
  replay (drop (length (GenerateContent.trace s)) (GenerateContent.trace (exec m s))) doc.

(** The row that [document.querySelector] finds for a step. *)
Definition row_of (step_name : string) (doc : document) : option row :=
  head (List.filter (fun r => String.eqb (data_step r) step_name) (concat doc)).

(** A row as [_updateProgressStep] leaves it for the status [completed]
    and for the status [failed]. *)
Definition completed_row (step text : string) : row :=
  {| data_step := step; step_icon := CheckMark;
     text_className := "step-text text-sm text-gray-600 line-through";
     textContent := text |}.

Definition failed_row (step text : string) : row :=
  {| data_step := step; step_icon := CrossMark;
     text_className := "step-text text-sm font-medium text-red-600";
     textContent := text |}.

(** Events of a step: its request and the updates of its row. *)
Definition step_event (e : GenerateContent.event) : Prop :=
  match e with
  | GenerateContent.Fetch (GenerateContent.PostStep _ _) => True
  | GenerateContent.ProgressStep _ _ _ => True
  | _ => False
  end.

End ProgressDialog.

(** * What a suggestion card shows after a handler of the generate-content
    controller ([frontend/src/controllers/generate-content-controller.js]) *)

Module GenerateContentView.
Import GenerateContent.

(** What the button container, written with [innerHTML], holds after the
    events of a trace; [None] when none of them wrote it. *)
Definition buttons (t : list event) : list button :=
  omap (fun e => match e with ButtonContainer b => Some b | _ => None end) t.

Definition final_button (t : list event) : option button := last (buttons t).

Definition messages (t : list event) : list (string * string) :=
  omap (fun e => match e with ShowMessage text kind => Some (text, kind) | _ => None end) t.

(** The events a handler added to the trace. *)
Definition added {A} (m : M state A) (s : state) : list event :=
  drop (length (trace s)) (trace (exec m s)).

(** Both settings items of [localStorage] can be read: neither makes
    [JSON.parse] throw. *)
Definition settings_readable (s : state) : bool :=
  match userProfileSettings s, projectSettings s with
  | Malformed, _ | _, Malformed => false
  | _, _ => true
  end.

(** The error that the first request of [generate] ends in, if it does:
    the rejection of [fetch], the rejection of [response.json()], or the
    message of a response that is not OK. *)
Definition start_error (s : state) : option string :=
  match backend s (requests (trace s)) (PostStart (suggestionIdValue s)) with
  | NetworkError e => Some e
  | Answer r =>
      match json_body r with
      | None => Some json_error
      | Some b =>
          if ok r then None
          else Some (or_else (message b) "Failed to start generation")
      end
  end.

(** The same for the status request of [continue], which does not read the
    body of a response that is not OK. *)
Definition status_error (s : state) (id : option Z) : option string :=
  match backend s (requests (trace s)) (GetStatus id) with
  | NetworkError e => Some e
  | Answer r =>
      if ok r
      then match json_body r with None => Some json_error | Some _ => None end
      else Some "Failed to get pipeline status"
  end.

(** The status badge is written only when the card has one. *)
Definition status_update (s : state) (b : status_badge) : list event :=
  if hasStatusTarget s then [Status b] else [].

(** The events of the [catch] block of [generate], for an error with the
    message [e]. *)
Definition generate_catch (s : state) (e : string) : list event :=
  [ HideProgressDialog;
    ShowMessage (or_else (Some e) "Failed to generate content. Please try again later.")
      "error";
    ButtonContainer GenerateButton ]
  ++ status_update s ReadyToGenerate.

(** The events of the [catch] block of [continue]. *)
Definition continue_catch (id : option Z) (e : string) : list event :=
  [ HideProgressDialog;
    ShowMessage (or_else (Some e) "Failed to continue generation. Please try again later.")
      "error";
    ButtonContainer (ContinueButton id) ].

(** The events of both handlers after the last step, up to the point where
    the settings are read. *)
Definition closing (s : state) (post : option Z) : list event :=
  [ HideProgressDialog; ButtonContainer (ViewPostLink (projectIdValue s) post) ]
  ++ status_update s Generated ++ [ClearPostButton].

(** The rows that [continue] ticks before it runs a step: one for every
    entry of [statusData.steps] that is completed and whose name is one of
    the five back-end names. *)
Definition ticks (entries : list (string * step_info)) : list event :=
  flat_map
    (fun entry : string * step_info =>
       match prop step_name_map entry.1 with
       | Some frontend_step_name =>
           if truthy frontend_step_name && is_str (si_status entry.2) "completed"
           then [ProgressStep frontend_step_name "completed"
                   (Some (_getStepDisplayName frontend_step_name))]
           else []
       | None => []
       end)
    entries.

(** Every one of the steps was requested and completed. *)
Definition all_completed (todo : list string) (t : list event) : Prop :=
  pipeline_events t = run_of todo None.

(** ** A run to evaluate: the network is down. *)
Definition offline (history : list request) (r : request) : fetch_result :=
  NetworkError "Failed to fetch".

(** The card of a user whose stored profile settings are not JSON. *)
Definition card_with_broken_settings
    (be : list request -> request -> fetch_result) : state :=
  {| suggestionIdValue := 7; projectIdValue := 1; hasStatusTarget := true;
     userProfileSettings := Malformed; projectSettings := NotStored;
     blogPostId := None; pipelineSteps := [];
     backend := be; trace := [] |}.

End GenerateContentView.

(** * What the dialog of the blog-generation-pipeline controller shows
    ([unnamed/part_007]) *)

Module BlogGenerationPipelineView.
Import BlogGenerationPipeline.

(** The events a handler added to the trace. *)
Definition added {A} (m : M state A) (s : state) : list event :=
  drop (length (trace s)) (trace (exec m s)).

(** The error that the start request of [startPipeline] ends in, if it
    does: the rejection of [fetch] or of [response.json()], or the message of
    a body whose status is [error].  The handler does not look at
    [response.ok]. *)
Definition start_error (s : state) : option string :=
  match backend s (requests (trace s)) (PostStart (suggestionIdValue s)) with
  | NetworkError e => Some e
  | Answer None => Some json_error
  | Answer (Some data) =>
      if is_str (status data) "error"
      then Some (or_else (message data) "Failed to start pipeline")
      else None
  end.

(** The step list after a run: the rows of the steps that completed, the
    row of the step that failed, and the rows of the steps not reached. *)
Definition rows_of_run (done : list step) (failed : option step) (rest : list step)
    : list row_status :=
  map (fun _ => Completed) done
  ++ map (fun _ => Failed) (option_list failed)
  ++ map (fun _ => Pending) rest.

(** Nothing was reported as complete between [s0] and [s]: no message was
    shown, and the close button and its link, which [onPipelineComplete]
    writes, are as they were. *)
Definition unreported (s0 s : state) : Prop :=
  messages (trace s) = messages (trace s0)
  /\ closeButtonHidden (ui s) = closeButtonHidden (ui s0)
  /\ closeLink (ui s) = closeLink (ui s0).

(** ** A run to evaluate: the structure step fails until it is retried. *)
Definition fails_until_retried (history : list request) (r : request) : fetch_result :=
  match r with
  | PostStep _ "structure" =>
      if existsb (fun q => match q with PostRetry _ _ => true | _ => false end) history
      then Answer (Some started_42)
      else Answer (Some {| status := Some "error"; message := Some "boom";
                           blog_post_id := None |})
  | _ => Answer (Some started_42)
  end.

End BlogGenerationPipelineView.

(** * The dropdown of a suggestion card
    ([frontend/src/controllers/generate-content-controller.js] and
    [unnamed/part_006], [connect] and [toggle])

    A target the handler guards with [has...Target] is an option: [None]
    when the card has no such element. *)

Module CardToggle.

Record card := {
  expandedValue : bool;
  dropdownTarget : option OnboardingModal.classList;
  chevronTarget : option OnboardingModal.classList
}.

(** [classList.toggle(token)] *)
Definition classList_toggle (token : string) (c : OnboardingModal.classList)
    : OnboardingModal.classList :=
  if OnboardingModal.contains c token
  then OnboardingModal.remove [token] c
  else OnboardingModal.add [token] c.

Definition connect (v : card) : card :=
  {| expandedValue := false;
     dropdownTarget := dropdownTarget v; chevronTarget := chevronTarget v |}.

Definition toggle (v : card) : card :=
  {| expandedValue := negb (expandedValue v);
     dropdownTarget := classList_toggle "hidden" <$> dropdownTarget v;
     chevronTarget := classList_toggle "rotate-180" <$> chevronTarget v |}.

(** Two class lists hold the same tokens. *)
Definition same_tokens (c c' : OnboardingModal.classList) : Prop :=
  forall token, token ∈ c <-> token ∈ c'.

(** The same for a target that may be missing. *)
Definition same_target (t t' : option OnboardingModal.classList) : Prop :=
  match t, t' with
  | Some c, Some c' => same_tokens c c'
  | None, None => True
  | _, _ => False
  end.

(** A card as its template renders it: the dropdown hidden. *)
Definition collapsed : card :=
  {| expandedValue := false;
     dropdownTarget := Some ["mt-4"; "hidden"];
     chevronTarget := Some ["w-5"; "h-5"] |}.

End CardToggle.

(** * The monthly/yearly switch of the pricing page ([unnamed/part_007],
    the second controller of the file)

    The two label targets are used without a guard and are taken to be on
    the page; the price and checkout targets are the lists that the plural
    [...Targets] properties give. *)

Module PricingToggle.

Record state := {
  isMonthly : bool;
  monthlyPriceDisplayTargets : list OnboardingModal.classList;
  yearlyPriceDisplayTargets : list OnboardingModal.classList;
  monthlyLabelTarget : OnboardingModal.classList;
  yearlyLabelTarget : OnboardingModal.classList;
  monthlyCheckoutTargets : list OnboardingModal.classList;
  yearlyCheckoutTargets : list OnboardingModal.classList
}.

Definition set_isMonthly (v : bool) (s : state) : state :=
  let '(Build_state _ a b c d e f) := s in Build_state v a b c d e f.

Definition selected_classes : list string := ["bg-white"; "text-gray-900"; "shadow-md"].
Definition unselected_classes : list string := ["text-gray-500"; "bg-transparent"].

Definition show : OnboardingModal.classList -> OnboardingModal.classList :=
  OnboardingModal.remove ["hidden"].
Definition hide : OnboardingModal.classList -> OnboardingModal.classList :=
  OnboardingModal.add ["hidden"].

(** The label of the period on display, and the other label. *)
Definition select (label : OnboardingModal.classList) : OnboardingModal.classList :=
  OnboardingModal.remove unselected_classes (OnboardingModal.add selected_classes label).
Definition unselect (label : OnboardingModal.classList) : OnboardingModal.classList :=
  OnboardingModal.remove selected_classes (OnboardingModal.add unselected_classes label).

Definition updateUI (s : state) : state :=
  if isMonthly s then
    {| isMonthly := isMonthly s;
       monthlyPriceDisplayTargets := map show (monthlyPriceDisplayTargets s);
       yearlyPriceDisplayTargets := map hide (yearlyPriceDisplayTargets s);
       monthlyCheckoutTargets := map show (monthlyCheckoutTargets s);
       yearlyCheckoutTargets := map hide (yearlyCheckoutTargets s);
       monthlyLabelTarget := select (monthlyLabelTarget s);
       yearlyLabelTarget := unselect (yearlyLabelTarget s) |}
  else
    {| isMonthly := isMonthly s;
       yearlyPriceDisplayTargets := map show (yearlyPriceDisplayTargets s);
       monthlyPriceDisplayTargets := map hide (monthlyPriceDisplayTargets s);
       yearlyCheckoutTargets := map show (yearlyCheckoutTargets s);
       monthlyCheckoutTargets := map hide (monthlyCheckoutTargets s);
       yearlyLabelTarget := select (yearlyLabelTarget s);
       monthlyLabelTarget := unselect (monthlyLabelTarget s) |}.

Definition connect (s : state) : state := updateUI (set_isMonthly true s).

Definition switch (s : state) : state := updateUI (set_isMonthly (negb (isMonthly s)) s).

(** A label carries the classes of the selected period and none of the
    other ones. *)
Definition selected (label : OnboardingModal.classList) : Prop :=
  OnboardingModal.carries selected_classes label
  /\ OnboardingModal.carries_none unselected_classes label.

Definition unselected (label : OnboardingModal.classList) : Prop :=
  OnboardingModal.carries unselected_classes label
  /\ OnboardingModal.carries_none selected_classes label.

(** The page shows the monthly prices ([monthly] true) or the yearly ones,
    and nothing of the other period. *)
Definition showing (monthly : bool) (s : state) : Prop :=
  Forall (fun c => OnboardingModal.visible c = monthly) (monthlyPriceDisplayTargets s)
  /\ Forall (fun c => OnboardingModal.visible c = monthly) (monthlyCheckoutTargets s)
  /\ Forall (fun c => OnboardingModal.visible c = negb monthly) (yearlyPriceDisplayTargets s)
  /\ Forall (fun c => OnboardingModal.visible c = negb monthly) (yearlyCheckoutTargets s)
  /\ (if monthly
      then selected (monthlyLabelTarget s) /\ unselected (yearlyLabelTarget s)
      else selected (yearlyLabelTarget s) /\ unselected (monthlyLabelTarget s)).

End PricingToggle.

(** * The Open Graph image button ([unnamed/part_007], the third controller
    of the file) *)

Module OgImage.

(** The fields read from the JSON body. *)
Record body := {
  status : option string;
  message : option string;
  image_url : option string
}.

Record response := {
  ok : bool;
  json_body : option body   (* [None]: [response.json()] rejects *)
}.

Inductive fetch_result :=
| NetworkError (e : string)
| Answer (r : response).

Inductive event :=
| Fetch (blog_post_id : Z)       (* the POST to [/api/generate-og-image] *)
| ShowMessage (text kind : string)
| ConsoleError (text : string)
| ReloadAfter (delay : Z).       (* [setTimeout] of [window.location.reload] *)

(** What [innerHTML] of the button holds: the markup of the template, or
    the spinner with the text [Generating...]. *)
Inductive button_content :=
| Markup (html : string)
| Generating.

Record state := {
  blogPostIdValue : Z;
  buttonDisabled : bool;
  buttonInnerHTML : button_content;
  emptyStateTarget : option OnboardingModal.classList;
  imageContainerTarget : option OnboardingModal.classList;
  hasImageUrlTarget : bool;
  imageUrlValue : option string;       (* what was assigned to [value] *)
  hasImageDisplayTarget : bool;
  imageDisplaySrc : option string;     (* what was assigned to [src] *)
  trace : list event;
  backend : list Z -> Z -> fetch_result
}.

Definition set_buttonDisabled (v : bool) (s : state) : state :=
  let '(Build_state a _ c d e f g h i j k) := s in Build_state a v c d e f g h i j k.
Definition set_buttonInnerHTML (v : button_content) (s : state) : state :=
  let '(Build_state a b _ d e f g h i j k) := s in Build_state a b v d e f g h i j k.
Definition on_emptyState (f : OnboardingModal.classList -> OnboardingModal.classList)
    (s : state) : state :=
  let '(Build_state a b c d e g h i j k l) := s in Build_state a b c (f <$> d) e g h i j k l.
Definition on_imageContainer (f : OnboardingModal.classList -> OnboardingModal.classList)
    (s : state) : state :=
  let '(Build_state a b c d e g h i j k l) := s in Build_state a b c d (f <$> e) g h i j k l.
Definition set_imageUrlValue (v : option string) (s : state) : state :=
  let '(Build_state a b c d e f _ h i j k) := s in Build_state a b c d e f v h i j k.
Definition set_imageDisplaySrc (v : option string) (s : state) : state :=
  let '(Build_state a b c d e f g h _ j k) := s in Build_state a b c d e f g h v j k.
Definition log (v : event) (s : state) : state :=
  let '(Build_state a b c d e f g h i j k) := s in
  Build_state a b c d e f g h i (j ++ [v]) k.

Definition requests (t : list event) : list Z :=
  omap (fun e => match e with Fetch r => Some r | _ => None end) t.

Definition messages (t : list event) : list (string * string) :=
  omap (fun e => match e with ShowMessage text kind => Some (text, kind) | _ => None end) t.

Definition fetch (blog_post_id : Z) : M state response :=
  fun s =>
    let s' := log (Fetch blog_post_id) s in
    match backend s (requests (trace s)) blog_post_id with
    | NetworkError e => (Throw e, s')
    | Answer a => (Return a, s')
    end.

Definition json_error : string := "Unexpected token in JSON".

Definition json (r : response) : M state body :=
  match json_body r with
  | Some b => mret b
  | None => throw json_error
  end.

Definition showMessage (text kind : string) : M state unit :=
  modify (log (ShowMessage text kind)).

Definition generate : M state unit :=
  original_button_content ← gets buttonInnerHTML ;
  try_catch
    (modify (set_buttonDisabled true) ;;
     modify (set_buttonInnerHTML Generating) ;;
     id ← gets blogPostIdValue ;
     response ← fetch id ;
     data ← json response ;
     (if negb (ok response) || is_str (status data) "error"
      then throw (or_else (message data) "Failed to generate image")
      else mret tt) ;;
     showMessage "OG image generated successfully!" "success" ;;
     modify (on_emptyState (OnboardingModal.add ["hidden"])) ;;
     container ← gets imageContainerTarget ;
     match container with
     | Some _ =>
         modify (on_imageContainer (OnboardingModal.remove ["hidden"])) ;;
         has_url ← gets hasImageUrlTarget ;
         when has_url (modify (set_imageUrlValue (image_url data))) ;;
         has_display ← gets hasImageDisplayTarget ;
         when has_display (modify (set_imageDisplaySrc (image_url data)))
     | None => modify (log (ReloadAfter 1000))
     end)
    (fun error =>
       modify (log (ConsoleError "Error generating OG image:")) ;;
       showMessage (or_else (Some error) "Failed to generate OG image. Please try again.")
         "error" ;;
       modify (set_buttonDisabled false) ;;
       modify (set_buttonInnerHTML original_button_content)).

(** The answer to the request of [generate] is an OK response with a JSON
    body whose status is not [error]. *)
Definition generated (s : state) : option body :=
  match backend s (requests (trace s)) (blogPostIdValue s) with
  | NetworkError _ => None
  | Answer r =>
      match json_body r with
      | Some data => if negb (ok r) || is_str (status data) "error" then None else Some data
      | None => None
      end
  end.

(** ** A page to evaluate: a post without an image yet. *)
Definition post_page (be : list Z -> Z -> fetch_result) : state :=
  {| blogPostIdValue := 42; buttonDisabled := false;
     buttonInnerHTML := Markup "Generate OG image";
     emptyStateTarget := Some ["text-center"];
     imageContainerTarget := Some ["hidden"];
     hasImageUrlTarget := true; imageUrlValue := None;
     hasImageDisplayTarget := true; imageDisplaySrc := None;
     trace := []; backend := be |}.

Definition image_ready (history : list Z) (r : Z) : fetch_result :=
  Answer {| ok := true;
            json_body := Some {| status := Some "success"; message := None;
                                 image_url := Some "https://cdn.example/og.png" |} |}.

End OgImage.

(** * More of the generate-content controller with a background task
    ([unnamed/part_006]) *)

Module GenerateContentTaskView.
Import GenerateContentTask.

(** [clearTimeout] of the pending timer: the closure of the timer is dropped
    by the caller. *)
Definition disconnect : M state unit :=
  pending ← gets pollingTimeoutId ;
  match pending with
  | Some _ => modify (set_pollingTimeoutId None)
  | None => mret tt
  end.

Definition messages (t : list event) : list (string * string) :=
  omap (fun e => match e with ShowMessage text kind => Some (text, kind) | _ => None end) t.

(** The events a handler added to the trace. *)
Definition added {A} (m : M state A) (s : state) : list event :=
  drop (length (trace s)) (trace (exec m s)).

(** The task that the request of [generate] queued: the answer is OK, its
    JSON body says [processing] and carries a task id that is not empty. *)
Definition queued (s : state) : option string :=
  match backend s (requests (trace s)) (PostGenerate (suggestionIdValue s)) with
  | NetworkError _ => None
  | Answer r =>
      match json_body r with
      | Some data =>
          if ok r && is_str (status data) "processing"
          then match task_id data with
               | Some i => if truthy i then Some i else None
               | None => None
               end
          else None
      | None => None
      end
  end.

(** A settings item of [localStorage] can be read: it is missing or empty,
    or [JSON.parse] accepts it. *)
Definition readable (JSON : json_codec) (item : option string) (flag : string) : bool :=
  match item with
  | Some text =>
      if truthy text then bool_decide (is_Some (parse_flag JSON flag text)) else true
  | None => true
  end.

(** Both settings items that [_appendPostButton] parses can be read. *)
Definition settings_readable (JSON : json_codec) (s : state) : bool :=
  readable JSON (localStorage s !! "userProfileSettings") "has_pro_subscription"
  && readable JSON (localStorage s !! ("projectSettings:" +:+ pretty (projectIdValue s)))
       "has_auto_submission_setting".

(** The card is still the card of suggestion [sid], and the store holds
    [v] under the key [k]. *)
Definition kept (sid : Z) (k : string) (v : option string) (s : state) : Prop :=
  suggestionIdValue s = sid /\ localStorage s !! k = v.

(** The answer to the next status request of a task is OK and says
    [processing]. *)
Definition still_processing (s : state) (taskId : option string) : Prop :=
  exists b,
    backend s (requests (trace s)) (GetTaskStatus taskId)
    = Answer {| ok := true; json_body := Some b |}
    /\ status b = Some "processing".

End GenerateContentTaskView.

(** * Sessions with the onboarding modal
    ([frontend/src/controllers/onboarding_modal_controller.js])

    The user types into the URL field, timers fire, buttons are pressed.
    [validateUrl] is taken to be the action of the input event of the URL
    field.  It clears the timer that is pending, which is always the last
    one armed, and may arm a new one, so a session holds at most one pending
    reachability check: the URL it will check. *)

Module OnboardingModalView.
Import OnboardingModal.

Definition set_urlInputValue (v : string) (s : state) : state :=
  let '(Build_state a1 a2 a3 a4 _ a6 a7 a8 a9 a10 a11 a12 a13 a14 a15 a16 a17 a18 a19 a20 a21 a22) := s in
  Build_state a1 a2 a3 a4 v a6 a7 a8 a9 a10 a11 a12 a13 a14 a15 a16 a17 a18 a19 a20 a21 a22.

(** The events a handler added to the trace. *)
Definition added {A} (m : M state A) (s : state) : list event :=
  drop (length (trace s)) (trace (exec m s)).

Definition alerts (t : list event) : list string :=
  omap (fun e => match e with Alert text => Some text | _ => None end) t.

(** The continue button is enabled exactly while the URL counts as
    reachable. *)
Definition button_in_step (s : state) : Prop :=
  continueButtonDisabled s = negb (isUrlReachable s).

(** The error that the request of [submitProject] ends in, if it does. *)
Definition project_error (s : state) (url_value : string) : option string :=
  match backend s (requests (trace s)) (PostProject url_value) with
  | NetworkError e => Some e
  | Answer r =>
      if ok r
      then match json_body r with
           | None => Some json_error
           | Some data =>
               if is_str (status data) "success" then None
               else Some (or_else (message data) "Failed to create project")
           end
      else Some "Failed to create project"
  end.

(** The text of the unreachable indicator after a check that did not find
    the URL reachable. *)
Definition unreachable_text (s : state) (url_value : string) : string :=
  match backend s (requests (trace s)) (PostValidateUrl url_value) with
  | Answer {| ok := true; json_body := Some data |} =>
      or_else (message data) "URL is not reachable"
  | _ => "Could not verify URL reachability"
  end.

Section WithBuiltins.
Context (trim : string -> string) (url_pattern_test : string -> bool).

(** An input event: the field holds [text], and [validateUrl] runs. *)
Definition type (text : string) : M state (option string) :=
  modify (set_urlInputValue text) ;;
  validateUrl trim url_pattern_test.

(** Input events in a row, no timer firing in between: each one replaces
    the pending check. *)
Fixpoint typing (texts : list string) (pending : option string) : M state (option string) :=
  match texts with
  | [] => mret pending
  | text :: texts' => pending' ← type text ; typing texts' pending'
  end.

(** The pending timer fires. *)
Definition fire (pending : option string) : M state unit :=
  match pending with
  | Some url_value => checkUrlReachability url_value
  | None => mret tt
  end.

Inductive action :=
| Typed (text : string)
| TimerFired
| ContinuePressed
| StepShown (step_number : Z).

(** A session is a state of the controller and the pending check. *)
Definition perform (a : action) (session : option string * state) : option string * state :=
  let '(pending, s) := session in
  match a with
  | Typed text =>
      match type text s with
      | (Return pending', s') => (pending', s')
      | (Throw _, s') => (None, s')
      end
  | TimerFired => (None, exec (fire pending) s)
  | ContinuePressed => (pending, exec (submitProject trim) s)
  | StepShown step_number => (pending, exec (goToStep step_number) s)
  end.

Definition perform_all (actions : list action) (session : option string * state)
    : option string * state :=
  fold_left (fun session a => perform a session) actions session.

End WithBuiltins.

(** ** Runs to evaluate *)

Definition site_is_down (history : list request) (r : request) : fetch_result :=
  match r with
  | PostValidateUrl _ =>
      Answer {| ok := true;
                json_body := Some {| reachable := false; status := None;
                                     message := Some "Connection refused"; id := None |} |}
  | PostProject _ => Answer {| ok := false; json_body := None |}
  end.

(** The site is up, and the project cannot be created. *)
Definition project_refused (history : list request) (r : request) : fetch_result :=
  match r with
  | PostValidateUrl _ =>
      Answer {| ok := true;
                json_body := Some {| reachable := true; status := None;
                                     message := None; id := None |} |}
  | PostProject _ =>
      Answer {| ok := true;
                json_body := Some {| reachable := false; status := Some "error";
                                     message := Some "Project already exists";
                                     id := None |} |}
  end.

(** [/^https?:\/\/.+/i.test] on ASCII text: the letters of [http] in
    either case, an optional [s], [://], and one more character that is not
    a line break. *)
Definition letter (upper : string) (c : Ascii.ascii) : bool :=
  String.eqb (AnalyticsEvents.toUpperCase_ascii (String c EmptyString)) upper.

Definition line_break (c : Ascii.ascii) : bool :=
  let n := Ascii.nat_of_ascii c in ((n =? 10) || (n =? 13))%nat.

Definition after_scheme (text : string) : bool :=
  String.prefix "://" text
  && match String.get 3 text with
     | Some c => negb (line_break c)
     | None => false
     end.

Definition url_pattern_test_ascii (text : string) : bool :=
  match text with
  | String h (String t1 (String t2 (String p rest))) =>
      letter "H" h && letter "T" t1 && letter "T" t2 && letter "P" p
      && (after_scheme rest
          || match rest with
             | String c rest' => letter "S" c && after_scheme rest'
             | EmptyString => false
             end)
  | _ => false
  end.

End OnboardingModalView.

(* ------------------------------------------------------------------ *)
(** * Reasoning about runs *)

Module JSFacts.

Lemma exec_bind {S A B} (m : M S A) (k : A -> M S B) (s : S) :
  exec (m ≫= k) s
  = match m s with
    | (Return a, s') => exec (k a) s'
    | (Throw _, s') => s'
    end.
Proof.
  unfold exec, mbind, M_bind, bind. destruct (m s) as [[a|e] s']; reflexivity.
Qed.

Lemma exec_gets_bind {S A B} (f : S -> A) (k : A -> M S B) (s : S) :
  exec (gets f ≫= k) s = exec (k (f s)) s.
Proof. reflexivity. Qed.

Lemma exec_modify_bind {S B} (f : S -> S) (k : unit -> M S B) (s : S) :
  exec (modify f ≫= k) s = exec (k tt) (f s).
Proof. reflexivity. Qed.

Lemma preserves_elim {S A} (P : S -> Prop) (m : M S A) s :
  preserves P m -> P s -> P (exec m s).
Proof. intros H. apply H. Qed.

Lemma preserves_bind {S A B} (P : S -> Prop) (m : M S A) (k : A -> M S B) :
  preserves P m -> (forall a, preserves P (k a)) -> preserves P (m ≫= k).
Proof.
  intros Hm Hk s Hs. rewrite exec_bind.
  specialize (Hm s Hs). unfold exec in Hm.
  destruct (m s) as [[a|e] s']; cbn in Hm; [apply Hk|]; assumption.
Qed.

Lemma preserves_try_catch {S A} (P : S -> Prop) (m : M S A) (h : string -> M S A) :
  preserves P m -> (forall e, preserves P (h e)) -> preserves P (try_catch m h).
Proof.
  intros Hm Hh s Hs. specialize (Hm s Hs). unfold exec, try_catch in *.
  destruct (m s) as [[a|e] s']; cbn in *; [|apply Hh]; assumption.
Qed.

Lemma preserves_ret {S A} (P : S -> Prop) (a : A) : preserves P (mret a : M S A).
Proof. intros s Hs. exact Hs. Qed.

Lemma preserves_throw {S A} (P : S -> Prop) (e : string) : preserves P (throw e : M S A).
Proof. intros s Hs. exact Hs. Qed.

Lemma preserves_gets {S A} (P : S -> Prop) (f : S -> A) : preserves P (gets f).
Proof. intros s Hs. exact Hs. Qed.

Lemma preserves_modify {S} (P : S -> Prop) (f : S -> S) :
  (forall s, P s -> P (f s)) -> preserves P (modify f).
Proof. intros H s Hs. apply H, Hs. Qed.

Lemma preserves_when {S} (P : S -> Prop) (c : bool) (m : M S unit) :
  preserves P m -> preserves P (when c m).
Proof. destruct c; [trivial|]. intros _. apply preserves_ret. Qed.

End JSFacts.

Import JSFacts.

(** * Properties of the generate-content controller *)

Module GenerateContentFacts.
Import GenerateContent.

Lemma logs_app a b s : logs (a ++ b) s = logs b (logs a s).
Proof. apply fold_left_app. Qed.

Lemma trace_logs new s : trace (logs new s) = trace s ++ new.
Proof.
  revert s. induction new as [|e new IH]; intros s; simpl.
  - now rewrite app_nil_r.
  - rewrite IH. simpl. now rewrite <- app_assoc.
Qed.

Lemma backend_logs new s : backend (logs new s) = backend s.
Proof. revert s. induction new as [|e new IH]; intros s; simpl; [easy|now rewrite IH]. Qed.

Lemma blogPostId_logs new s : blogPostId (logs new s) = blogPostId s.
Proof. revert s. induction new as [|e new IH]; intros s; simpl; [easy|now rewrite IH]. Qed.

Lemma pipeline_events_app a b :
  pipeline_events (a ++ b) = pipeline_events a ++ pipeline_events b.
Proof. apply omap_app. Qed.

Lemma requests_app a b : requests (a ++ b) = requests a ++ requests b.
Proof. apply omap_app. Qed.

Lemma run_of_cons s done failed :
  run_of (s :: done) failed = Requested s :: Completed s :: run_of done failed.
Proof. reflexivity. Qed.

(** One step: exactly one request; it either completes and returns, or
    throws without completing. *)
#[local] Arguments prop : simpl never.
#[local] Arguments is_str : simpl never.
#[local] Arguments or_else : simpl never.
#[local] Arguments reported_status : simpl never.
#[local] Arguments String.append : simpl never.

Lemma _executeStep_run step_name s :
  exists new o,
    _executeStep step_name s = (o, logs new s)
    /\ requests new = [PostStep (blogPostId s) step_name]
    /\ ((o = Return tt /\ pipeline_events new = run_of [step_name] None)
        \/ ((exists e, o = Throw e) /\ pipeline_events new = run_of [] (Some step_name))).
Proof.
  unfold _executeStep, try_catch, fetch, mbind, M_bind, bind, _updateProgressStep,
    emit, modify, gets.
  cbn [log trace backend blogPostId].
  destruct (backend s _ _) as [e | [[] [b|]]]; cbn.
  - eexists [_; _; _], _. split; [reflexivity|]. split; [reflexivity|]. right.
    split; [eauto | reflexivity].
  - destruct (reported_status b step_name) as [info|]; cbn.
    + destruct (is_str (si_status info) "failed"); cbn.
      * eexists [_; _; _; _], _. split; [reflexivity|]. split; [reflexivity|]. right.
        split; [eauto | reflexivity].
      * eexists [_; _; _], _. split; [reflexivity|]. split; [reflexivity|]. left.
        split; reflexivity.
    + eexists [_; _; _], _. split; [reflexivity|]. split; [reflexivity|]. left.
      split; reflexivity.
  - eexists [_; _; _], _. split; [reflexivity|]. split; [reflexivity|]. right.
    split; [eauto | reflexivity].
  - eexists [_; _; _], _. split; [reflexivity|]. split; [reflexivity|]. right.
    split; [eauto | reflexivity].
  - eexists [_; _; _], _. split; [reflexivity|]. split; [reflexivity|]. right.
    split; [eauto | reflexivity].
Qed.

(** The step loop: the steps are requested in list order, each after the
    previous one completed, and the first one that throws ends the loop. *)
Lemma pipeline_loop todo s :
  exists new o done failed rest,
    for_of todo _executeStep s = (o, logs new s)
    /\ todo = done ++ option_list failed ++ rest
    /\ requests new = map (PostStep (blogPostId s)) (done ++ option_list failed)
    /\ pipeline_events new = run_of done failed
    /\ match failed with
       | None => o = Return tt /\ rest = []
       | Some _ => exists e, o = Throw e
       end.
Proof.
  revert s. induction todo as [|step_name todo IH]; intros s.
  - exists [], (Return tt), [], None, []. repeat split.
  - cbn [for_of]. unfold bind.
    destruct (_executeStep_run step_name s) as (new1 & o1 & -> & Hreq & [[-> Hev] | [[e ->] Hev]]).
    + destruct (IH (logs new1 s)) as (new2 & o & done & failed & rest & -> & -> & Hreq2 & Hev2 & Hout).
      exists (new1 ++ new2), o, (step_name :: done), failed, rest.
      rewrite logs_app, requests_app, pipeline_events_app, Hreq, Hreq2, Hev, Hev2.
      rewrite blogPostId_logs. repeat split; auto.
    + exists new1, (Throw e), [], (Some step_name), todo.
      rewrite Hreq, Hev. repeat split; eauto.
Qed.

Lemma show_generated_quiet text s :
  exists new o, show_generated text s = (o, logs new s) /\ quiet new.
Proof.
  unfold show_generated, _appendPostButton, _hideProgressDialog, showMessage, when,
    read_flag, emit, modify, gets, mbind, M_bind, bind, mret, ret, throw.
  destruct s as [sid pid [] [| |[]] [| |[]] post todo be t]; cbn;
    (eexists _, _; split; [ | split; shelve ]);
    first [ exact (eq_refl : _ = (_, logs [_; _; _; _; _; _] _))
          | exact (eq_refl : _ = (_, logs [_; _; _; _; _] _))
          | exact (eq_refl : _ = (_, logs [_; _; _; _] _))
          | exact (eq_refl : _ = (_, logs [_; _; _] _))
          | exact (eq_refl : _ = (_, logs [_; _] _)) ].
  Unshelve. all: reflexivity.
Qed.

Lemma hasStatusTarget_logs new s : hasStatusTarget (logs new s) = hasStatusTarget s.
Proof. revert s. induction new as [|e new IH]; intros s; simpl; [easy|now rewrite IH]. Qed.

Ltac trace_eq :=
  cbn [when mret ret M_ret snd];
  repeat first [ rewrite trace_logs
               | progress cbn [trace log set_pipelineSteps set_blogPostId] ];
  rewrite <- ?app_assoc; reflexivity.

(** The start request of [generate] got an OK response with the JSON body
    [startData]. *)
Lemma generate_pipeline s startData :
  start_gives s startData ->
  exists new done failed rest,
    trace (exec generate s) = trace s ++ new
    /\ requests new
       = PostStart (suggestionIdValue s)
         :: map (PostStep (blog_post_id startData)) (done ++ option_list failed)
    /\ pipeline_events new = run_of done failed
    /\ the_pipeline_steps = done ++ option_list failed ++ rest
    /\ (failed = None -> rest = []).
Proof.
  intros Hb.
  unfold generate, exec, try_catch, fetch, json, _showProgressDialog, _hideProgressDialog,
    showMessage, emit, modify, gets, mbind, M_bind, bind, mret, ret, throw.
  cbn [log trace backend suggestionIdValue].
  rewrite !requests_app. cbn [requests omap]. rewrite !app_nil_r, Hb.
  cbn [ok json_body negb].
  cbn [pipelineSteps set_pipelineSteps].
  match goal with |- context [for_of _ _ ?s1] => set (s1' := s1) end.
  destruct (pipeline_loop the_pipeline_steps s1')
    as (new & o & done & failed & rest & -> & Hsplit & Hreq & Hev & Hout).
  change (blogPostId s1') with (blog_post_id startData) in Hreq.
  destruct failed as [f|].
  - destruct Hout as [e ->].
    cbn [hasStatusTarget log]. rewrite hasStatusTarget_logs.
    subst s1'. cbn [hasStatusTarget log set_pipelineSteps set_blogPostId].
    destruct (hasStatusTarget s);
      (eexists; exists done, (Some f), rest; split; [trace_eq|]);
      rewrite ?pipeline_events_app, ?requests_app, Hev, Hreq; cbn;
      rewrite ?app_nil_r; repeat split; auto; discriminate.
  - destruct Hout as [-> ->].
    cbn [option_list app] in Hsplit. rewrite app_nil_r in Hsplit.
    cbn [hasStatusTarget log].
    destruct (show_generated_quiet "Blog post generated successfully!" (logs new s1'))
      as (new2 & o2 & -> & Hq1 & Hq2).
    destruct o2 as [[]|e]; cbn [hasStatusTarget log]; rewrite ?hasStatusTarget_logs;
      subst s1'; cbn [hasStatusTarget log set_pipelineSteps set_blogPostId];
      try destruct (hasStatusTarget s);
      (eexists; exists done, None, []; split; [trace_eq|]);
      rewrite ?pipeline_events_app, ?requests_app, Hev, Hreq, Hq1, Hq2; cbn;
      rewrite ?app_nil_r; repeat split; auto.
Qed.

(** The [push] loop of [continue] keeps, in order, the steps that need
    execution. *)
Lemma steps_to_execute_filter statusData all :
  steps_to_execute statusData all = List.filter (needs_execution statusData) all.
Proof.
  unfold steps_to_execute.
  enough (H : forall acc,
             fold_left (fun acc frontend_step =>
                          if needs_execution statusData frontend_step
                          then acc ++ [frontend_step] else acc) all acc
             = acc ++ List.filter (needs_execution statusData) all)
    by apply (H []).
  induction all as [|x all IH]; intros acc; cbn [fold_left List.filter].
  - now rewrite app_nil_r.
  - rewrite IH. destruct (needs_execution statusData x); [|reflexivity].
    now rewrite <- app_assoc.
Qed.

Lemma tick_completed_quiet entry s :
  exists new, tick_completed entry s = (Return tt, logs new s) /\ requests new = [].
Proof.
  destruct entry as [k info]. unfold tick_completed.
  destruct (prop step_name_map k) as [f|]; [|now exists []].
  destruct (truthy f && is_str (si_status info) "completed"); [|now exists []].
  now eexists [_].
Qed.

Lemma show_completed_quiet entries s :
  exists new, show_completed entries s = (Return tt, logs new s) /\ requests new = [].
Proof.
  unfold show_completed. revert s.
  induction entries as [|entry entries IH]; intros s; cbn [for_of].
  - now exists [].
  - unfold bind. destruct (tick_completed_quiet entry s) as (new1 & -> & H1).
    destruct (IH (logs new1 s)) as (new2 & -> & H2).
    exists (new1 ++ new2). rewrite logs_app, requests_app, H1, H2. now split.
Qed.


Example generate_all_steps :
  requests (trace (exec generate (card every_step_ok)))
  = PostStart 7 :: map (PostStep (Some 42)) the_pipeline_steps.
Proof. reflexivity. Qed.

Example generate_stops_at_content :
  requests (trace (exec generate (card content_fails)))
  = [PostStart 7; PostStep (Some 42) "structure"; PostStep (Some 42) "content"].
Proof. reflexivity. Qed.

Example continue_skips_completed :
  requests (trace (exec (continue (Some 42)) (card resumable)))
  = [ GetStatus (Some 42); PostStep (Some 42) "preliminary_validation";
      PostStep (Some 42) "internal_links"; PostStep (Some 42) "final_validation" ].
Proof. reflexivity. Qed.




(** A step with no recorded status, and any step whose recorded status is
    not [completed], needs execution; a completed one does not. *)
Lemma needs_execution_spec statusData frontend_step :
  needs_execution statusData frontend_step = false
  <-> exists entries info,
        steps statusData = Some entries
        /\ prop entries (_getBackendStepName frontend_step) = Some info
        /\ si_status info = Some "completed".
Proof.
  unfold needs_execution.
  destruct (steps statusData) as [entries|]; cbn.
  - destruct (prop entries (_getBackendStepName frontend_step)) as [info|] eqn:E; cbn.
    + unfold is_str. destruct (si_status info) as [v|] eqn:Ev; cbn.
      * destruct (String.eqb_spec v "completed") as [->|Hne]; cbn.
        -- split; [eauto 6|reflexivity].
        -- split; [discriminate|]. intros (? & ? & [= <-] & E' & Ev').
           rewrite E in E'. injection E' as <-. congruence.
      * split; [discriminate|]. intros (? & ? & [= <-] & E' & Ev').
        rewrite E in E'. injection E' as <-. congruence.
    + split; [discriminate|]. intros (? & ? & [= <-] & E' & _). congruence.
  - split; [discriminate|]. intros (? & ? & ? & _). discriminate.
Qed.

End GenerateContentFacts.

Module BlogGenerationPipelineFacts.
Import BlogGenerationPipeline.

Lemma extends_refl s : extends s [] s.
Proof. split; rewrite ?app_nil_r; auto. Qed.

Lemma extends_trans s1 new1 s2 new2 s3 :
  extends s1 new1 s2 -> extends s2 new2 s3 -> extends s1 (new1 ++ new2) s3.
Proof.
  intros [] []. split; try congruence.
  - rewrite app_assoc. congruence.
  - intuition congruence.
Qed.

Lemma dialog_requests_app a b : requests (a ++ b) = requests a ++ requests b.
Proof. apply omap_app. Qed.

Lemma dialog_events_app a b :
  pipeline_events (a ++ b) = pipeline_events a ++ pipeline_events b.
Proof. apply omap_app. Qed.

#[local] Arguments is_str : simpl never.
#[local] Arguments or_else : simpl never.
#[local] Arguments Z.ltb : simpl never.
#[local] Arguments Qmult : simpl never.
#[local] Arguments Qdiv : simpl never.
#[local] Arguments inject_Z : simpl never.

Lemma executeStep_run st i s :
  (i < length (rows (ui s)))%nat ->
  exists new success s',
    executeStep (Some st) i s = (Return success, s')
    /\ extends s new s'
    /\ requests new = [PostStep (blogPostId s) (key st)]
    /\ pipeline_events new
       = Requested (key st) :: (if success then [Done i] else []).
Proof.
  intros Hi.
  destruct s as [sid pid post cur counts max names
                   [hd hp he hr hc dh rws pr em eh rb rh cl ch] t be].
  cbn in Hi.
  unfold executeStep, updateStepStatus, try_catch, fetch, json, showRetryOption, showError,
    updateProgress, when, retries, modify, gets, mbind, M_bind, bind, mret, M_ret, ret, throw.
  repeat (first
    [ progress cbn
    | rewrite length_insert
    | rewrite bool_decide_eq_true_2 by exact Hi
    | match goal with
          | |- context [match be ?h ?r with _ => _ end] => destruct (be h r) as [e|[b|]]
          | |- context [if is_str ?a ?b then _ else _] => destruct (is_str a b)
          | |- context [if ?x <? ?y then _ else _] => destruct (x <? y)
          | |- context [if ?b then _ else _] => is_var b; destruct b
          end ]).
  all: eexists _, _, _; (split; [reflexivity|]).
  all: split; [split; cbn; rewrite ?length_insert; auto; rewrite <- ?app_assoc; reflexivity|].
  all: split; reflexivity.
Qed.

Lemma extends_currentStep v s : extends s [] (set_currentStep v s).
Proof. destruct s. split; cbn; rewrite ?app_nil_r; auto. Qed.

Lemma run_of_app i done more failed :
  run_of i (done ++ more) failed
  = run_of i done None ++ run_of (i + length done) more failed.
Proof.
  revert i. induction done as [|st done IH]; intros i; cbn.
  - now rewrite Nat.add_0_r.
  - rewrite IH. now replace (S i + length done)%nat with (i + S (length done))%nat by lia.
Qed.

(** The step loop never throws; it requests the steps in list order, each
    after the previous one completed, and stops after the first one that
    does not complete. *)
Lemma step_loop_run record_current todo i s :
  (i + length todo <= length (rows (ui s)))%nat ->
  exists new s' done failed rest,
    step_loop record_current i todo s = (Return tt, s')
    /\ extends s new s'
    /\ todo = done ++ option_list failed ++ rest
    /\ requests new = map (fun st => PostStep (blogPostId s) (key st)) (done ++ option_list failed)
    /\ pipeline_events new = run_of i done failed
    /\ (failed = None -> rest = []).
Proof.
  revert i s. induction todo as [|st todo IH]; intros i s Hlen.
  - exists [], s, [], None, []. repeat split; auto using extends_refl.
    all: apply extends_refl.
  - cbn [step_loop]. cbn [length] in Hlen.
    set (s0 := exec (when record_current (modify (set_currentStep (Some (key st))))) s).
    assert (H0 : when record_current (modify (set_currentStep (Some (key st)))) s = (Return tt, s0)
                 /\ extends s [] s0).
    { subst s0. destruct record_current; cbn; split; auto using extends_refl, extends_currentStep. }
    destruct H0 as [E0 X0].
    unfold mbind, M_bind, bind. rewrite E0.
    destruct (executeStep_run st i s0) as (new1 & success & s1 & E1 & X1 & R1 & P1).
    { rewrite (ext_rows _ _ _ X0). lia. }
    rewrite E1. rewrite (ext_blogPostId _ _ _ X0) in R1.
    destruct success.
    + destruct (IH (S i) s1) as (new2 & s2 & done & failed & rest & E2 & X2 & -> & R2 & P2 & Hrest).
      { rewrite (ext_rows _ _ _ X1), (ext_rows _ _ _ X0). lia. }
      rewrite (ext_blogPostId _ _ _ X1), (ext_blogPostId _ _ _ X0) in R2.
      exists (new1 ++ new2), s2, (st :: done), failed, rest.
      rewrite dialog_requests_app, dialog_events_app, R1, R2, P1, P2.
      repeat split; auto.
      all: try apply (extends_trans _ _ _ _ _ (extends_trans _ _ _ _ _ X0 X1) X2).
    + exists new1, s1, [], (Some st), todo.
      rewrite R1, P1. repeat split; auto; try discriminate.
      all: try apply (extends_trans _ _ _ _ _ X0 X1).
Qed.

Lemma startPipeline_run s data :
  start_gives s data ->
  exists run s' done failed rest,
    startPipeline s = (Return tt, s')
    /\ trace s' = trace s ++ [Fetch (PostStart (suggestionIdValue s))] ++ run
                  ++ [ShowMessage "Blog post generated successfully!" "success"]
    /\ requests run
       = map (fun st => PostStep (blog_post_id data) (key st)) (done ++ option_list failed)
    /\ pipeline_events run = run_of 0 done failed
    /\ stepNames s = done ++ option_list failed ++ rest
    /\ (failed = None -> rest = []).
Proof.
  intros [Hb Hok].
  destruct s as [sid pid post cur counts max names
                   [hd hp he hr hc dh rws pr em eh rb rh cl ch] t be].
  cbn in Hb.
  unfold startPipeline, renderSteps, onPipelineComplete, showMessage, try_catch, fetch, json,
    showError, updateProgress, when, modify, gets, mbind, M_bind, bind, mret, M_ret, ret, throw.
  destruct hd, hp; cbn; rewrite Hb; cbn; rewrite Hok; cbn.
  all: match goal with |- context [step_loop true 0 ?todo ?s1] =>
         destruct (step_loop_run true todo 0 s1)
           as (run & s2 & done & failed & rest & E & X & Hsplit & R & P & Hrest);
         [cbn; rewrite length_map; lia|]
       end.
  all: rewrite E; cbn in R.
  all: destruct X as [Xt _ _ _ _ _ _ Xp [Xf1 [Xf2 [Xf3 Xf4]]]]; cbn in Xt, Xp, Xf1, Xf4.
  all: destruct s2 as [sid2 pid2 post2 cur2 counts2 max2 names2
                   [hd2 hp2 he2 hr2 hc2 dh2 rws2 pr2 em2 eh2 rb2 rh2 cl2 ch2] t2 be2].
  all: cbn in *; subst.
  all: destruct hc; cbn.
  all: exists run; eexists; exists done, failed, rest.
  all: split; [reflexivity|]; cbn; rewrite <- ?app_assoc; repeat split; auto.
Qed.

(** [startPipeline] reports completion whenever the start succeeded,
    whatever the steps did. *)
Lemma startPipeline_always_reports_completion s data :
  start_gives s data -> completion_reported (exec startPipeline s) = true.
Proof.
  intros H. destruct (startPipeline_run s data H) as (run & s' & done & failed & rest & E & T & _).
  unfold completion_reported, exec. rewrite E. cbn [snd]. rewrite T.
  apply bool_decide_eq_true_2. unfold messages.
  rewrite !omap_app. cbn. rewrite !elem_of_app. right. right. apply list_elem_of_here.
Qed.

(** Solves goals about one run of a handler on a state given by its fields:
    case analysis on the answer of the back end and on the tests the handler
    makes. *)
Ltac crunch :=
  repeat (first
    [ progress cbn
    | match goal with
      | |- context [match ?be ?h ?r with NetworkError _ => _ | Answer _ => _ end] =>
          destruct (be h r) as [?|[?|]]
      | |- context [if is_str ?a ?b then _ else _] => destruct (is_str a b) eqn:?
      | |- context [if ?x <? ?y then _ else _] => destruct (x <? y) eqn:?
      | |- context [if ?x =? ?y then _ else _] => destruct (x =? y) eqn:?
      | |- context [if bool_decide ?P then _ else _] => destruct (bool_decide P) eqn:?
      | |- context [if ?b then _ else _] => is_var b; destruct b
      | |- context [match ?o with Some _ => _ | None => _ end] => is_var o; destruct o
      end ]).

Ltac unfold_handlers :=
  unfold retryStep, executeStep, onPipelineComplete, hideError, updateStepStatus, try_catch,
    fetch, json, showRetryOption, showError, showMessage, updateProgress, when, retries,
    modify, gets, mbind, M_bind, bind, mret, M_ret, ret, throw.

Lemma executeStep_keeps_counts st i s :
  retryCount (exec (executeStep st i) s) = retryCount s
  /\ maxRetries (exec (executeStep st i) s) = maxRetries s.
Proof.
  destruct s as [sid pid post cur counts max names
                   [hd hp he hr hc dh rws pr em eh rb rh cl ch] t be].
  unfold exec. unfold_handlers. destruct st as [st|]; crunch; auto.
Qed.

Lemma step_loop_keeps_counts record_current todo i s :
  retryCount (exec (step_loop record_current i todo) s) = retryCount s.
Proof.
  revert i s. induction todo as [|st todo IH]; intros i s; [reflexivity|].
  unfold exec in *. cbn [step_loop]. unfold mbind, M_bind, bind.
  assert (H0 : exists s0, when record_current (modify (set_currentStep (Some (key st)))) s
                          = (Return tt, s0) /\ retryCount s0 = retryCount s).
  { destruct record_current; cbn; eexists; split; eauto. now destruct s. }
  destruct H0 as (s0 & -> & <-).
  pose proof (proj1 (executeStep_keeps_counts (Some st) i s0)) as H1. unfold exec in H1.
  destruct (executeStep (Some st) i s0) as [[[]|e] s1]; cbn in *; try assumption.
  now rewrite IH.
Qed.

(** What [executeStep] does when the step request answers with an error:
    below the maximum it renders the retry button and leaves the error text
    alone; at the maximum it shows the error text and leaves the retry
    button as it was. *)
Lemma executeStep_on_error st i s data :
  backend s (requests (trace s)) (PostStep (blogPostId s) (key st)) = Answer (Some data) ->
  is_str (status data) "error" = true ->
  let s' := exec (executeStep (Some st) i) s in
  result (executeStep (Some st) i) s = Return false
  /\ if retries s (key st) <? maxRetries s
     then (hasRetryButtonTarget (ui s) = true ->
           retryButton (ui s')
           = Some {| data_step_key := key st; data_step_index := i;
                     attempts_left := maxRetries s - retries s (key st) |}
           /\ retryButtonHidden (ui s') = false)
          /\ errorMessage (ui s') = errorMessage (ui s)
          /\ errorMessageHidden (ui s') = errorMessageHidden (ui s)
     else (hasErrorMessageTarget (ui s) = true ->
           errorMessage (ui s')
           = Some (StepFailedAfter (label st) (maxRetries s) (message data))
           /\ errorMessageHidden (ui s') = false)
          /\ retryButton (ui s') = retryButton (ui s)
          /\ retryButtonHidden (ui s') = retryButtonHidden (ui s).
Proof.
  destruct s as [sid pid post cur counts max names
                   [hd hp he hr hc dh rws pr em eh rb rh cl ch] t be].
  cbn. intros Hb Herr. unfold exec, result. unfold_handlers. cbn.
  destruct (bool_decide (i < length rws)%nat); cbn;
    rewrite ?omap_app; cbn; rewrite ?app_nil_r; rewrite Hb; cbn;
    rewrite Herr; cbn.
  all: destruct (default 0 (counts !! key st) <? max) eqn:Hlt; cbn.
  all: crunch; try congruence; repeat split; auto; discriminate.
Qed.

Lemma retryStep_increments stepKey stepIndex s :
  retries (exec (retryStep stepKey stepIndex) s) stepKey = retries s stepKey + 1.
Proof.
  unfold retryStep.
  rewrite !exec_gets_bind, exec_modify_bind.
  set (s1 := set_retryCount _ s).
  assert (H1 : retries s1 stepKey = retries s stepKey + 1).
  { subst s1. destruct s. unfold retries. cbn. now rewrite lookup_insert_eq. }
  rewrite <- H1. unfold retries. f_equal. f_equal.
  generalize (stepNames s). intros names.
  apply (preserves_elim (fun s' => retryCount s' = retryCount s1)); [|reflexivity].
  apply preserves_bind; [|intros _; apply preserves_bind; [|intros id; apply preserves_bind;
    [|intros _; apply preserves_bind; [|intros []; cbn [when]]]]].
  - intros [? ? ? ? ? ? ? [] ? ?] H. unfold exec. unfold_handlers. crunch; exact H.
  - intros s' H; exact H.
  - intros [? ? ? ? ? ? ? [] ? ?] H. unfold exec. unfold_handlers. crunch; exact H.
  - intros s' H. now rewrite (proj1 (executeStep_keeps_counts _ _ _)).
  - apply preserves_bind.
    + intros s' H. now rewrite step_loop_keeps_counts.
    + intros _. intros [? ? ? ? ? ? ? [] ? ?] H. unfold exec. unfold_handlers. crunch; exact H.
  - intros s' H; exact H.
Qed.



Example startPipeline_all_steps :
  pipeline_events (trace (exec startPipeline (loaded steps_succeed)))
  = run_of 0 the_step_names None.
Proof. reflexivity. Qed.

(** C2 (the code departs from it): the back end starts the pipeline and
    answers the request for the first step, structure, with an error.  The
    loop of [startPipeline] stops after that one request, the row of the step
    shows [Failed] and the other four stay [Pending]; [onPipelineComplete]
    runs all the same: it reports success, shows the link to the post and
    sets the progress to 100. *)
Theorem startPipeline_completes_after_a_failed_step :
  let s' := exec startPipeline (loaded steps_fail) in
  step_requests (trace s') = ["structure"]
  /\ rows (ui s') = [Failed; Pending; Pending; Pending; Pending]
  /\ completion_reported s' = true
  /\ closeButtonHidden (ui s') = false
  /\ closeLink (ui s') = Some (1, Some 42)
  /\ progress (ui s') = Some 100%Q.
Proof. cbv zeta. repeat split; vm_compute; reflexivity. Qed.

(** C4 (the code departs from it): the structure step fails, and fails again
    after each of three uses of the retry button.  The count is then 3 and
    the error text says that the step failed after 3 attempts, but the retry
    button, which no handler hides again, is still on display; pressing it
    runs [retryStep] once more: the count becomes 4 and the step is requested
    a fifth time. *)
Theorem retry_button_outlives_the_maximum :
  let s1 := exec startPipeline (loaded steps_fail) in
  let s4 := exec (click_retry ;; click_retry ;; click_retry) s1 in
  let s5 := exec click_retry s4 in
  retries s4 "structure" = 3
  /\ maxRetries s4 = 3
  /\ errorMessage (ui s4) = Some (StepFailedAfter "Generate Structure" 3 (Some "boom"))
  /\ errorMessageHidden (ui s4) = false
  /\ retry_offered s4 = true
  /\ retries s5 "structure" = 4
  /\ step_requests (trace s5)
     = ["structure"; "structure"; "structure"; "structure"; "structure"].
Proof. cbv zeta. repeat split; vm_compute; reflexivity. Qed.

End BlogGenerationPipelineFacts.

Module GenerateContentTaskFacts.
Import GenerateContentTask.

#[local] Arguments is_str : simpl never.
#[local] Arguments or_else : simpl never.
#[local] Arguments truthy : simpl never.
#[local] Arguments Z.geb : simpl never.
#[local] Arguments Z.mul : simpl never.
#[local] Arguments Z.div : simpl never.
#[local] Arguments Z.modulo : simpl never.
#[local] Arguments Z.add : simpl never.
#[local] Arguments String.append : simpl never.
#[local] Arguments pretty : simpl never.

(** Ten minutes, in milliseconds. *)
Lemma less_than_ten_minutes now startTime :
  Qltb (elapsedMinutes now startTime) 10 = (now - startTime <? 600000).
Proof.
  unfold Qltb, elapsedMinutes, Qle_bool, Qdiv, Qmult, Qinv, inject_Z. cbn.
  change (Z.pos (1 * 1000 * 60)) with 60000.
  destruct (Z.leb_spec (10 * 60000) ((now - startTime) * 1 * 1 * 1));
    destruct (Z.ltb_spec (now - startTime) 600000); cbn; try reflexivity; lia.
Qed.

Ltac crunch :=
  repeat (first
    [ progress cbn
    | match goal with
      | |- context [match ?be ?h ?r with NetworkError _ => _ | Answer _ => _ end] =>
          destruct (be h r) as [?|[[] [?|]]] eqn:?
      | |- context [if is_str ?a ?b then _ else _] => destruct (is_str a b) eqn:?
      | |- context [if truthy ?a then _ else _] => destruct (truthy a) eqn:?
      | |- context [if ?x >=? ?y then _ else _] => destruct (x >=? y) eqn:?
      | |- context [match parse_flag ?j ?f ?x with Some _ => _ | None => _ end] =>
          destruct (parse_flag j f x) as [[]|]
      | |- context [match parse_task ?j ?x with Some _ => _ | None => _ end] =>
          destruct (parse_task j x) as [[? [?|]]|] eqn:?
      | |- context [match ?m !! ?k with Some _ => _ | None => _ end] =>
          destruct (m !! k) eqn:?
      | |- context [if ?b then _ else _] => is_var b; destruct b
      | |- context [if ?a && ?b then _ else _] => destruct (a && b) eqn:?
      end ]).

Ltac unfold_handlers :=
  unfold polling, poll, generate, connect, _checkForOngoingTask, _pollTaskStatus,
    _updateToCompletedState, _resetToInitialState, _appendPostButton, stored_flag, arm,
    set_status, removeItem, setItem, showMessage, try_catch, fetch, json, when,
    modify, gets, mbind, M_bind, bind, mret, M_ret, ret, throw.

Lemma completed_state_drops_entry JSON blogPostId s :
  localStorage (exec (_updateToCompletedState JSON blogPostId) s) !! taskKey s = None.
Proof.
  destruct s as [sid pid hs ex tid store btn badge pb t be].
  unfold exec, taskKey. unfold_handlers. crunch; apply lookup_delete_eq.
Qed.

Lemma reset_drops_entry s :
  localStorage (exec _resetToInitialState s) !! taskKey s = None.
Proof.
  destruct s as [sid pid hs ex tid store btn badge pb t be].
  unfold exec, taskKey. unfold_handlers. crunch; apply lookup_delete_eq.
Qed.

Lemma truthy_nonempty text : text <> EmptyString -> truthy text = true.
Proof. destruct text; [congruence|reflexivity]. Qed.

Lemma resumes_excludes_discards taskId s run : resumes taskId s run -> discards s run -> False.
Proof.
  intros (_ & _ & T & _) (_ & _ & _ & T'). rewrite T' in T.
  apply (f_equal length) in T. rewrite length_app in T. cbn in T. lia.
Qed.

(** What [connect] does with a non-empty entry, by what the entry parses
    to. *)
Lemma connect_on_entry JSON now s taskData :
  localStorage s !! taskKey s = Some taskData ->
  taskData <> EmptyString ->
  match parse_task JSON taskData with
  | Some (taskId, Some startTime) =>
      if now - startTime <? 600000
      then resumes taskId s (connect JSON now s)
      else discards s (connect JSON now s)
  | _ => discards s (connect JSON now s)
  end.
Proof.
  intros Hentry Hne. apply truthy_nonempty in Hne.
  destruct s as [sid pid hs ex tid store btn badge pb t be].
  unfold taskKey in Hentry. cbn in Hentry.
  unfold resumes, discards. do 2 unfold_handlers. unfold taskKey. cbn.
  rewrite Hentry, Hne.
  destruct (parse_task JSON taskData) as [[taskId [startTime|]]|]; cbn.
  - rewrite less_than_ten_minutes.
    destruct (now - startTime <? 600000); destruct hs; cbn; auto.
  - auto.
  - auto.
Qed.

Lemma task_requests_app a b : requests (a ++ b) = requests a ++ requests b.
Proof. apply omap_app. Qed.

Lemma timeline_app a b : timeline (a ++ b) = timeline a ++ timeline b.
Proof. apply List.filter_app. Qed.

(** One run of [poll]: one request, and then either the next timer, armed
    below the maximum, or no timer and no further request. *)
Lemma poll_run JSON c s :
  exists next tail s',
    poll JSON c s = (Return next, s')
    /\ trace s' = trace s ++ Fetch (GetTaskStatus (poll_taskId c)) :: tail
    /\ backend s' = backend s
    /\ suggestionIdValue s' = suggestionIdValue s
    /\ hasStatusTarget s' = hasStatusTarget s
    /\ match next with
       | Some c' =>
           c' = {| poll_taskId := poll_taskId c; attempts := attempts c + 1 |}
           /\ attempts c + 1 < maxAttempts
           /\ tail = [SetTimeout pollInterval]
       | None => timeline tail = []
       end.
Proof.
  destruct s as [sid pid hs ex tid store btn badge pb t be].
  do 2 unfold_handlers. unfold taskKey.
  crunch.
  all: eexists _, _, _; (split; [reflexivity|]); cbn; rewrite <- ?app_assoc.
  all: split; [reflexivity|]; split; [reflexivity|].
  all: split; [reflexivity|]; split; [reflexivity|].
  all: try reflexivity.
  all: repeat split; lia.
Qed.

(** A run of [poll] whose answer says [processing]: the next timer below the
    maximum; at the maximum the error message, and the reset. *)
Lemma poll_processing JSON c s b :
  backend s (requests (trace s)) (GetTaskStatus (poll_taskId c))
  = Answer {| ok := true; json_body := Some b |} ->
  status b = Some "processing" ->
  if attempts c + 1 <? maxAttempts
  then fst (poll JSON c s)
       = Return (Some {| poll_taskId := poll_taskId c; attempts := attempts c + 1 |})
  else fst (poll JSON c s) = Return None
       /\ trace (snd (poll JSON c s))
          = trace s ++ [Fetch (GetTaskStatus (poll_taskId c)); ShowMessage too_long "error"]
       /\ buttonContainer (snd (poll JSON c s)) = GenerateButton
       /\ (hasStatusTarget s = true ->
           statusBadge (snd (poll JSON c s)) = Some ReadyToGenerate)
       /\ localStorage (snd (poll JSON c s)) = delete (taskKey s) (localStorage s).
Proof.
  destruct s as [sid pid hs ex tid store btn badge pb t be].
  cbn. intros Hb Hst.
  do 2 unfold_handlers. unfold taskKey. cbn. rewrite Hb. cbn. rewrite Hst.
  unfold is_str. cbn.
  destruct (Z.ltb_spec (attempts c + 1) maxAttempts) as [Hlt|Hge].
  - destruct (Z.geb_spec (attempts c + 1) maxAttempts) as [?|_]; [lia|].
    destruct hs; reflexivity.
  - destruct (Z.geb_spec (attempts c + 1) maxAttempts) as [_|?]; [|lia].
    cbn. destruct hs; cbn; rewrite <- ?app_assoc; repeat split; auto; discriminate.
Qed.

Lemma polls_S taskId n :
  polls taskId (S n)
  = SetTimeout pollInterval :: Fetch (GetTaskStatus taskId) :: polls taskId n.
Proof. reflexivity. Qed.

Lemma not_bottom_last {A} (l : list A) (x y : A) : last (x :: y :: l) = last (y :: l).
Proof. reflexivity. Qed.

Lemma is_str_true v lit : is_str v lit = true -> v = Some lit.
Proof. destruct v as [x|]; [|discriminate]. cbn. now intros ->%String.eqb_eq. Qed.

(** [poll] arms the next timer only on an answer that says [processing]. *)
Lemma poll_rearms_on_processing JSON c s c' :
  fst (poll JSON c s) = Return (Some c') -> processing_at s (poll_taskId c) 0.
Proof.
  destruct s as [sid pid hs ex tid store btn badge pb t be].
  unfold processing_at. cbn [repeat trace backend]. rewrite app_nil_r.
  do 2 unfold_handlers. unfold taskKey.
  crunch; try discriminate.
  all: intros _; eexists; split; [eassumption|]; now apply is_str_true.
Qed.

(** After one status request of the task, answer number [i] is what was
    answer number [i + 1] before. *)
Lemma processing_at_next s s1 taskId tail i :
  backend s1 = backend s ->
  trace s1 = trace s ++ Fetch (GetTaskStatus taskId) :: tail ->
  requests tail = [] ->
  processing_at s1 taskId i <-> processing_at s taskId (S i).
Proof.
  intros B T R. unfold processing_at.
  rewrite B, T, task_requests_app.
  change (requests (Fetch (GetTaskStatus taskId) :: tail))
    with (GetTaskStatus taskId :: requests tail).
  rewrite R, <- app_assoc. reflexivity.
Qed.

(** The timers of a task run out: the attempts counted in the closure go up
    by one with every timer, and no timer is armed at the maximum.  Every
    answer but the last says [processing]; when the last one does too, the
    maximum was reached. *)
Lemma poll_chain_run JSON fuel c s :
  0 <= attempts c < maxAttempts ->
  maxAttempts - attempts c <= Z.of_nat fuel ->
  exists n tail s',
    poll_chain JSON fuel c s = (Return true, s')
    /\ (n < Z.to_nat (maxAttempts - attempts c))%nat
    /\ trace s' = trace s ++ tail
    /\ timeline tail = Fetch (GetTaskStatus (poll_taskId c)) :: polls (poll_taskId c) n
    /\ (forall i, (i < n)%nat -> processing_at s (poll_taskId c) i)
    /\ (processing_at s (poll_taskId c) n ->
        S n = Z.to_nat (maxAttempts - attempts c)
        /\ last tail = Some (ShowMessage too_long "error")
        /\ buttonContainer s' = GenerateButton
        /\ (hasStatusTarget s = true -> statusBadge s' = Some ReadyToGenerate)
        /\ localStorage s' !! taskKey s = None).
Proof.
  revert c s. induction fuel as [|fuel IH]; intros c s Ha Hfuel; [unfold maxAttempts in *; lia|].
  cbn [poll_chain]. unfold mbind, M_bind, bind.
  destruct (poll_run JSON c s) as (next & tail & s1 & E & T & B & I & Hs & Hnext).
  pose proof (poll_processing JSON c s) as Hproc.
  pose proof (poll_rearms_on_processing JSON c s) as Hrearm.
  rewrite E in Hproc, Hrearm |- *. cbn [fst snd] in Hproc, Hrearm.
  destruct next as [c'|].
  - destruct Hnext as (-> & Hlt & ->).
    specialize (Hrearm _ eq_refl).
    pose proof (fun i => processing_at_next s s1 (poll_taskId c) [SetTimeout pollInterval] i
                           B T eq_refl) as Hshift.
    destruct (IH {| poll_taskId := poll_taskId c; attempts := attempts c + 1 |} s1)
      as (n & tail' & s2 & E2 & Hn & T2 & L2 & A2 & P2); cbn [attempts poll_taskId] in *; try lia.
    rewrite E2. exists (S n), ([Fetch (GetTaskStatus (poll_taskId c)); SetTimeout pollInterval] ++ tail'), s2.
    split; [reflexivity|]. split; [lia|]. split; [rewrite T2, T, <- app_assoc; reflexivity|].
    split; [rewrite timeline_app, L2; reflexivity|].
    split.
    { intros [|i] Hi; [exact Hrearm|]. apply Hshift, A2. lia. }
    intros Hk. apply Hshift in Hk. destruct (P2 Hk) as (Hn' & Hlast & Hbtn & Hbadge & Hstore).
    split; [lia|]. split; [|split; [exact Hbtn|split]].
    + destruct tail' as [|e tail']; [discriminate|]. exact Hlast.
    + rewrite <- Hs. exact Hbadge.
    + unfold taskKey in *. rewrite <- I. exact Hstore.
  - exists 0%nat, (Fetch (GetTaskStatus (poll_taskId c)) :: tail), s1.
    split; [reflexivity|]. split; [lia|]. split; [exact T|].
    split; [cbn; change (List.filter _ tail) with (timeline tail); now rewrite Hnext|].
    split; [intros i Hi; lia|].
    intros (b & Hb & Hst). cbn [repeat] in Hb. rewrite app_nil_r in Hb.
    specialize (Hproc b Hb Hst).
    destruct (Z.ltb_spec (attempts c + 1) maxAttempts) as [Hlt|Hge]; [discriminate|].
    destruct Hproc as (_ & T' & Hbtn & Hbadge & Hstore).
    rewrite T in T'. apply app_inv_head in T'. injection T' as ->.
    split; [lia|]. split; [reflexivity|]. split; [exact Hbtn|]. split; [exact Hbadge|].
    rewrite Hstore. apply lookup_delete_eq.
Qed.

Lemma requests_timeline t : requests (timeline t) = requests t.
Proof.
  induction t as [|[r|d|text kind] t IH]; cbn; [reflexivity| | |]; try (f_equal; exact IH).
  all: exact IH.
Qed.

Lemma timeouts_timeline t : timeouts (timeline t) = timeouts t.
Proof.
  induction t as [|[r|d|text kind] t IH]; cbn; [reflexivity| | |]; try (f_equal; exact IH).
  all: exact IH.
Qed.

Lemma requests_polls taskId n : requests (polls taskId n) = repeat (GetTaskStatus taskId) n.
Proof. induction n as [|n IH]; [reflexivity|]. rewrite polls_S. cbn. f_equal. exact IH. Qed.

Lemma timeouts_polls taskId n : timeouts (polls taskId n) = repeat pollInterval n.
Proof. induction n as [|n IH]; [reflexivity|]. rewrite polls_S. cbn. f_equal. exact IH. Qed.


(** What a run of [poll] does to the entry of the task, by the answer to
    its request.  On [completed], [failed] and [error], on [processing] at
    the limit, and on every answer that cannot be read, no timer is armed
    and the entry is removed; on [processing] below the limit the next timer
    is armed and the store is as before.  On any other status [poll] does
    nothing: no timer, no message, and the card and the store as they
    were. *)
Lemma poll_by_answer JSON c s :
  match backend s (requests (trace s)) (GetTaskStatus (poll_taskId c)) with
  | Answer {| ok := true; json_body := Some b |} =>
      if is_str (status b) "completed" || is_str (status b) "failed"
         || is_str (status b) "error"
      then fst (poll JSON c s) = Return None
           /\ localStorage (snd (poll JSON c s)) !! taskKey s = None
      else if is_str (status b) "processing"
      then if attempts c + 1 <? maxAttempts
           then fst (poll JSON c s)
                = Return (Some {| poll_taskId := poll_taskId c; attempts := attempts c + 1 |})
                /\ localStorage (snd (poll JSON c s)) = localStorage s
           else fst (poll JSON c s) = Return None
                /\ localStorage (snd (poll JSON c s)) !! taskKey s = None
      else poll JSON c s = (Return None, log (Fetch (GetTaskStatus (poll_taskId c))) s)
  | _ => fst (poll JSON c s) = Return None
         /\ localStorage (snd (poll JSON c s)) !! taskKey s = None
  end.
Proof.
  destruct s as [sid pid hs ex tid store btn badge pb t be].
  cbn [backend trace].
  remember (be (requests t) (GetTaskStatus (poll_taskId c))) as answer eqn:E.
  do 2 unfold_handlers. unfold taskKey. cbn.
  unfold requests in E. rewrite <- E. clear E.
  destruct answer as [e|[[] [b|]]]; cbn.
  2: destruct (is_str (status b) "completed") eqn:H1,
              (is_str (status b) "failed") eqn:H2,
              (is_str (status b) "processing") eqn:H3,
              (is_str (status b) "error") eqn:H4;
       try (apply is_str_true in H3; apply is_str_true in H4; congruence);
       cbn;
       try (destruct (Z.ltb_spec (attempts c + 1) maxAttempts);
            destruct (Z.geb_spec (attempts c + 1) maxAttempts); try lia).
  all: crunch.
  all: first [ reflexivity | split; [reflexivity|]; first [reflexivity|apply lookup_delete_eq] ].
Qed.

(** The claim C6, as stated, does not hold: the count of status requests
    belongs to one call of [_pollTaskStatus], not to the task.  The user
    presses Generate, the page is reloaded after 50 status requests, and the
    card, which finds the task in [localStorage], polls it 100 times more:
    150 status requests for one task. *)
Lemma a_reload_restarts_the_count :
  exists JSON s pressed loaded,
    requests (trace (exec (generate_and_reload JSON pressed loaded 50) s))
    = PostGenerate (suggestionIdValue s) :: repeat (GetTaskStatus (Some "abc")) 150
    /\ (100 < length (List.filter (fun r => match r with
                                           | GetTaskStatus (Some "abc") => true
                                           | _ => false
                                           end)
                        (requests (trace (exec (generate_and_reload JSON pressed loaded 50)
                                            s)))))%nat.
Proof.
  exists one_text, (reloaded ∅ always_processing), 1000, 160000.
  split; vm_compute; [reflexivity|lia].
Qed.

(** C6, amended: one polling session, that is one call of [_pollTaskStatus]
    and the timers it arms, issues at most 100 status requests, the first
    2 seconds after the session starts and each later one 3 seconds after the
    answer before it, so that the timers of a session add up to less than 5
    minutes; given room for 100 timers or more, the session ends by itself.
    Every answer but the last one says [processing].  When the last answer
    says [processing] too, it is the answer to the 100th request: polling
    stops, the error message is shown, and the card is reset to the Generate
    button (the ready state, and no entry in [localStorage]).  So a task
    that says [processing] 100 times in a row is polled exactly 100 times,
    whatever the back end would answer later. *)
Theorem polling_stops_within_100_requests JSON fuel taskId s :
  (100 <= fuel)%nat ->
  exists n tail,
    fst (polling JSON fuel taskId s) = Return true
    /\ trace (exec (polling JSON fuel taskId) s) = trace s ++ tail
    /\ (1 <= n <= 100)%nat
    /\ timeline tail
       = SetTimeout initialDelay :: Fetch (GetTaskStatus taskId) :: polls taskId (n - 1)
    /\ requests tail = repeat (GetTaskStatus taskId) n
    /\ timeouts tail = initialDelay :: repeat pollInterval (n - 1)
    /\ initialDelay + pollInterval * Z.of_nat (n - 1) < 5 * 60 * 1000
    /\ (forall i, (i < n - 1)%nat -> processing_at s taskId i)
    /\ (processing_at s taskId (n - 1) ->
        n = 100%nat
        /\ last tail = Some (ShowMessage too_long "error")
        /\ buttonContainer (exec (polling JSON fuel taskId) s) = GenerateButton
        /\ (hasStatusTarget s = true ->
            statusBadge (exec (polling JSON fuel taskId) s) = Some ReadyToGenerate)
        /\ localStorage (exec (polling JSON fuel taskId) s) !! taskKey s = None)
    /\ ((forall i, (i < 100)%nat -> processing_at s taskId i) -> n = 100%nat).
Proof.
  intros Hfuel.
  unfold polling, exec, _pollTaskStatus, arm, mbind, M_bind, bind, modify, gets, mret, M_ret, ret.
  cbn [fst snd].
  set (c := {| poll_taskId := taskId; attempts := 0 |}).
  match goal with |- context [poll_chain _ _ _ ?s1] => set (s1' := s1) end.
  assert (H1 : trace s1' = trace s ++ [SetTimeout initialDelay]
               /\ backend s1' = backend s /\ suggestionIdValue s1' = suggestionIdValue s
               /\ hasStatusTarget s1' = hasStatusTarget s)
    by (subst s1'; destruct s; repeat split).
  destruct H1 as (T1 & B1 & I1 & Hs1).
  assert (Hsame : forall i, processing_at s1' taskId i <-> processing_at s taskId i).
  { intros i. unfold processing_at. rewrite B1, T1, task_requests_app.
    change (requests [SetTimeout initialDelay]) with (@nil request).
    now rewrite app_nil_r. }
  destruct (poll_chain_run JSON fuel c s1')
    as (n & tail & s2 & E & Hn & T & L & A & P); [cbn; unfold maxAttempts; lia..|].
  rewrite E. cbn [fst snd]. cbn [attempts poll_taskId c] in *.
  exists (S n), (SetTimeout initialDelay :: tail).
  replace (S n - 1)%nat with n by lia.
  split; [reflexivity|]. split; [rewrite T, T1, <- app_assoc; reflexivity|].
  split; [unfold maxAttempts in Hn; lia|].
  assert (L' : timeline (SetTimeout initialDelay :: tail)
               = SetTimeout initialDelay :: Fetch (GetTaskStatus taskId) :: polls taskId n)
    by (cbn; f_equal; exact L).
  split; [exact L'|].
  split; [rewrite <- requests_timeline, L'; cbn; f_equal; apply requests_polls|].
  split; [rewrite <- timeouts_timeline, L'; cbn; f_equal; apply timeouts_polls|].
  split; [unfold maxAttempts, initialDelay, pollInterval in *; lia|].
  split; [intros i Hi; now apply Hsame, A|].
  assert (Hend : processing_at s taskId n ->
                 S n = 100%nat
                 /\ last (SetTimeout initialDelay :: tail) = Some (ShowMessage too_long "error")
                 /\ buttonContainer s2 = GenerateButton
                 /\ (hasStatusTarget s = true -> statusBadge s2 = Some ReadyToGenerate)
                 /\ localStorage s2 !! taskKey s = None).
  { intros Hk. apply Hsame in Hk. destruct (P Hk) as (Hn' & Hlast & Hbtn & Hbadge & Hstore).
    split; [unfold maxAttempts in Hn'; lia|].
    split; [destruct tail; [discriminate|exact Hlast]|].
    split; [exact Hbtn|]. split; [rewrite <- Hs1; exact Hbadge|].
    unfold taskKey in *. rewrite <- I1. exact Hstore. }
  split; [exact Hend|].
  intros Hall. apply Hend, Hall. unfold maxAttempts in Hn. lia.
Qed.

Lemma polling_stops_within_100_requests_witness :
  let s := reloaded ∅ always_processing in
  exists tail,
    trace (exec (polling one_text 150 (Some "abc")) s) = trace s ++ tail
    /\ requests tail = repeat (GetTaskStatus (Some "abc")) 100
    /\ timeouts tail = initialDelay :: repeat pollInterval 99
    /\ last tail = Some (ShowMessage too_long "error")
    /\ buttonContainer (exec (polling one_text 150 (Some "abc")) s) = GenerateButton
    /\ statusBadge (exec (polling one_text 150 (Some "abc")) s) = Some ReadyToGenerate.
Proof.
  cbv zeta.
  destruct (polling_stops_within_100_requests one_text 150 (Some "abc")
              (reloaded ∅ always_processing))
    as (n & tail & _ & T & _ & _ & R & D & _ & _ & P & _); [lia|].
  destruct P as (-> & Hlast & Hbtn & Hbadge & _).
  { exists (says "processing"). split; reflexivity. }
  exists tail. repeat split; auto.
Defined.

(** A back end that says [processing] 100 times and [completed] from then
    on: the session stops at the limit all the same. *)
Example limit_before_a_late_completion :
  let late (history : list request) (r : request) :=
    Answer {| ok := true;
              json_body := Some (says (if (length history <? 100)%nat
                                       then "processing" else "completed")) |} in
  let s := exec (polling one_text 150 (Some "abc")) (reloaded ∅ late) in
  length (requests (trace s)) = 100%nat
  /\ last (trace s) = Some (ShowMessage too_long "error")
  /\ buttonContainer s = GenerateButton.
Proof. cbv zeta. repeat split; vm_compute; reflexivity. Qed.

Example polling_until_completed :
  requests (trace (exec (polling one_text 100 (Some "abc")) (reloaded ∅ done_at_third)))
  = repeat (GetTaskStatus (Some "abc")) 3
  /\ timeouts (trace (exec (polling one_text 100 (Some "abc")) (reloaded ∅ done_at_third)))
     = [2000; 3000; 3000].
Proof. split; vm_compute; reflexivity. Qed.

(** [generate] either leaves the task polling, with the generating button
    on display, or ends with the entry removed. *)
Lemma generate_outcome JSON now s :
  (exists c, fst (generate JSON now s) = Return (Some c)
             /\ buttonContainer (snd (generate JSON now s)) = GeneratingButton
             /\ suggestionIdValue (snd (generate JSON now s)) = suggestionIdValue s)
  \/ (fst (generate JSON now s) = Return None
      /\ localStorage (snd (generate JSON now s)) !! taskKey s = None).
Proof.
  destruct s as [sid pid hs ex tid store btn badge pb t be].
  do 2 unfold_handlers. unfold taskKey.
  crunch.
  all: first [ left; eexists; repeat split; reflexivity
             | right; split; [reflexivity|apply lookup_delete_eq] ].
Qed.


(** [generate], the sibling path, has a branch for a status it does not
    expect: the error is shown, the card is reset and no record is kept. *)
Example generate_rejects_an_unknown_status :
  let be (history : list request) (r : request) :=
    Answer {| ok := true; json_body := Some (says "pending") |} in
  let s := reloaded {[ "blog_generation_task_7" := stored_text ]} be in
  fst (generate one_text 1000 s) = Return None
  /\ trace (exec (generate one_text 1000) s)
     = [ Fetch (PostGenerate 7); ShowMessage "Unexpected response status" "error" ]
  /\ buttonContainer (exec (generate one_text 1000) s) = GenerateButton
  /\ localStorage (exec (generate one_text 1000) s) !! taskKey s = None.
Proof. cbv zeta. repeat split; vm_compute; reflexivity. Qed.

(** C5, as stated, does not hold for an entry that is the empty string: it
    cannot be parsed, and [connect] neither resumes nor removes it. *)
Lemma empty_entry_is_kept :
  exists JSON now s,
    localStorage s !! taskKey s = Some EmptyString
    /\ parse_task JSON EmptyString = None
    /\ fst (connect JSON now s) = Return None
    /\ localStorage (exec (connect JSON now) s) !! taskKey s = Some EmptyString.
Proof.
  exists one_text, 5000, (reloaded {[ "blog_generation_task_7" := EmptyString ]} always_processing).
  repeat split; vm_compute; reflexivity.
Qed.

(** An entry that is the empty string is left as it is, in every state:
    [connect] resumes nothing, removes nothing and shows nothing. *)
Lemma connect_leaves_an_empty_entry JSON now s :
  localStorage s !! taskKey s = Some EmptyString ->
  fst (connect JSON now s) = Return None
  /\ localStorage (exec (connect JSON now) s) = localStorage s
  /\ buttonContainer (exec (connect JSON now) s) = buttonContainer s
  /\ trace (exec (connect JSON now) s) = trace s.
Proof.
  destruct s as [sid pid hs ex tid store btn badge pb t be].
  unfold taskKey, exec. cbn. intros Hentry.
  do 2 unfold_handlers. unfold taskKey. cbn. rewrite Hentry. cbn. auto.
Qed.

(** C5, amended: on connect, a task recorded with non-empty data under the
    key [blog_generation_task_<suggestionId>] is resumed (the generating state
    is shown and polling restarts with the stored task id) if and only if the
    data parses and the stored start time is less than 10 minutes before now;
    a non-empty entry whose elapsed time is 10 minutes or more, or whose data
    cannot be parsed, is removed without resuming (and so is one whose start
    time is not a number). *)
Theorem connect_resumes_recent_task JSON now s taskData :
  localStorage s !! taskKey s = Some taskData ->
  taskData <> EmptyString ->
  ((exists taskId, resumes taskId s (connect JSON now s))
   <-> exists taskId startTime,
         parse_task JSON taskData = Some (taskId, Some startTime)
         /\ now - startTime < 600000)
  /\ (forall taskId, resumes taskId s (connect JSON now s) ->
        exists startTime, parse_task JSON taskData = Some (taskId, Some startTime))
  /\ (forall taskId startTime,
        parse_task JSON taskData = Some (taskId, Some startTime) ->
        600000 <= now - startTime -> discards s (connect JSON now s))
  /\ (parse_task JSON taskData = None -> discards s (connect JSON now s))
  /\ (forall taskId,
        parse_task JSON taskData = Some (taskId, None) -> discards s (connect JSON now s)).
Proof.
  intros Hentry Hne.
  pose proof (connect_on_entry JSON now s taskData Hentry Hne) as H.
  assert (Hno : discards s (connect JSON now s) ->
                forall taskId, ~ resumes taskId s (connect JSON now s))
    by (intros Hd taskId Hr; exact (resumes_excludes_discards _ _ _ Hr Hd)).
  destruct (parse_task JSON taskData) as [[taskId [startTime|]]|].
  - destruct (Z.ltb_spec (now - startTime) 600000) as [Hlt|Hge].
    + split; [split; eauto|]. split; [|split; [|split]].
      * intros taskId' H'. exists startTime.
        destruct H as (E & _), H' as (E' & _). rewrite E in E'. congruence.
      * intros ? ? [= <- <-] ?. lia.
      * discriminate.
      * discriminate.
    + split; [split|]; [| |split; [|split; [|split]]].
      * intros [taskId' H']. destruct (Hno H _ H').
      * intros (? & ? & [= <- <-] & ?). lia.
      * intros taskId' H'. destruct (Hno H _ H').
      * intros ? ? _ _. exact H.
      * discriminate.
      * discriminate.
  - split; [split|]; [| |split; [|split; [|split]]].
    + intros [taskId' H']. destruct (Hno H _ H').
    + intros (? & ? & [=] & _).
    + intros taskId' H'. destruct (Hno H _ H').
    + discriminate.
    + discriminate.
    + intros _ _. exact H.
  - split; [split|]; [| |split; [|split; [|split]]].
    + intros [taskId' H']. destruct (Hno H _ H').
    + intros (? & ? & [=] & _).
    + intros taskId' H'. destruct (Hno H _ H').
    + discriminate.
    + intros _. exact H.
    + discriminate.
Qed.

Lemma connect_resumes_recent_task_witness :
  let s := reloaded {[ "blog_generation_task_7" := stored_text ]} always_processing in
  ((exists taskId, resumes taskId s (connect one_text 5000 s))
   <-> exists taskId startTime,
         parse_task one_text stored_text = Some (taskId, Some startTime)
         /\ 5000 - startTime < 600000)
  /\ (forall taskId, resumes taskId s (connect one_text 5000 s) ->
        exists startTime, parse_task one_text stored_text = Some (taskId, Some startTime))
  /\ (forall taskId startTime,
        parse_task one_text stored_text = Some (taskId, Some startTime) ->
        600000 <= 5000 - startTime -> discards s (connect one_text 5000 s))
  /\ (parse_task one_text stored_text = None -> discards s (connect one_text 5000 s))
  /\ (forall taskId,
        parse_task one_text stored_text = Some (taskId, None) ->
        discards s (connect one_text 5000 s)).
Proof.
  apply (connect_resumes_recent_task one_text 5000
           (reloaded {[ "blog_generation_task_7" := stored_text ]} always_processing)
           stored_text).
  - vm_compute. reflexivity.
  - discriminate.
Defined.

Example connect_resumes :
  resumes (Some "abc")
    (reloaded {[ "blog_generation_task_7" := stored_text ]} always_processing)
    (connect one_text 5000
       (reloaded {[ "blog_generation_task_7" := stored_text ]} always_processing)).
Proof. repeat split. Qed.

Example connect_discards_old_task :
  discards
    (reloaded {[ "blog_generation_task_7" := stored_text ]} always_processing)
    (connect one_text 601000
       (reloaded {[ "blog_generation_task_7" := stored_text ]} always_processing)).
Proof. repeat split. Qed.

End GenerateContentTaskFacts.

Module OnboardingModalFacts.
Import OnboardingModal.

Lemma elem_of_add token tokens c : token ∈ add tokens c <-> token ∈ tokens \/ token ∈ c.
Proof.
  unfold add. revert c. induction tokens as [|x tokens IH]; intros c; cbn.
  - rewrite elem_of_nil. tauto.
  - rewrite IH, elem_of_cons. unfold contains.
    destruct (bool_decide_reflect (x ∈ c)) as [Hin|Hout].
    + split; [tauto|]. intros [[->|?]|?]; auto.
    + rewrite elem_of_app, list_elem_of_singleton. tauto.
Qed.

Lemma elem_of_remove token tokens c :
  token ∈ remove tokens c <-> token ∈ c /\ token ∉ tokens.
Proof.
  unfold remove. induction c as [|x c IH]; cbn.
  - rewrite elem_of_nil. tauto.
  - destruct (bool_decide_reflect (x ∈ tokens)) as [Hin|Hout]; cbn.
    + rewrite IH, elem_of_cons. split; [tauto|]. intros [[->|?] ?]; tauto.
    + rewrite !elem_of_cons, IH. split; [|tauto]. intros [->|?]; tauto.
Qed.

Lemma visible_spec c : visible c = true <-> "hidden" ∉ c.
Proof. unfold visible, contains. rewrite negb_true_iff, bool_decide_eq_false. tauto. Qed.

(** An indicator that was switched off and then on again is marked active;
    one that was only switched off is marked inactive. *)
Lemma switched_on c :
  marked_active (add active_classes (remove inactive_classes
                   (add inactive_classes (remove active_classes c)))).
Proof.
  split; intros token Htoken.
  - apply elem_of_add. now left.
  - rewrite elem_of_add, elem_of_remove. intros [Hin|[_ Hout]]; [|tauto].
    revert Htoken Hin. unfold active_classes, inactive_classes.
    rewrite !elem_of_cons, !elem_of_nil. intuition congruence.
Qed.

Lemma switched_off c :
  marked_inactive (add inactive_classes (remove active_classes c)).
Proof.
  split; intros token Htoken.
  - apply elem_of_add. now left.
  - rewrite elem_of_add, elem_of_remove. intros [Hin|[_ Hout]]; [|tauto].
    revert Htoken Hin. unfold active_classes, inactive_classes.
    rewrite !elem_of_cons, !elem_of_nil. intuition congruence.
Qed.

Lemma shown c : visible (add ["flex"] (remove ["hidden"] (add ["hidden"] c))) = true.
Proof.
  apply visible_spec. rewrite elem_of_add, elem_of_remove, list_elem_of_singleton.
  intros [[=]|[_ H]]. apply H, list_elem_of_here.
Qed.

Lemma hidden c : visible (add ["hidden"] c) = false.
Proof.
  apply not_true_iff_false. rewrite visible_spec, elem_of_add.
  intros H. apply H. left. apply list_elem_of_here.
Qed.

Ltac crunch :=
  repeat (first
    [ progress cbn
    | match goal with
      | |- context [match ?be ?h ?r with NetworkError _ => _ | Answer _ => _ end] =>
          destruct (be h r) as [?|[[] [?|]]] eqn:?
      | |- context [if is_str ?a ?b then _ else _] => destruct (is_str a b) eqn:?
      | |- context [if truthy ?a then _ else _] => destruct (truthy a) eqn:?
      | |- context [if ?x =? ?y then _ else _] => destruct (x =? y) eqn:?
      | |- context [if reachable ?b then _ else _] => destruct (reachable b) eqn:?
      | |- context [if negb ?c then _ else _] => destruct c eqn:?
      | |- context [if ?b then _ else _] => is_var b; destruct b
      | |- context [match ?o with Some _ => _ | None => _ end] => is_var o; destruct o
      end ]).

Ltac unfold_handlers :=
  unfold submitProject, validateUrl, checkUrlReachability, show_unreachable, goToStep,
    hideAllIndicators, connect, setTimeout, try_catch, fetch, json, when,
    modify, gets, mbind, M_bind, bind, mret, M_ret, ret, throw.

#[local] Arguments is_str : simpl never.
#[local] Arguments or_else : simpl never.
#[local] Arguments truthy : simpl never.
#[local] Arguments add : simpl never.
#[local] Arguments remove : simpl never.
#[local] Arguments project_url : simpl never.

(** C10: after [goToStep n], for [n] one of 1, 2 and 3, the panel of step
    [n] is the one panel on display, the indicator of step [n] carries the
    active classes and none of the inactive ones, and the other two
    indicators carry the inactive classes and none of the active ones. *)
Theorem goToStep_shows_one_step n s :
  n = 1 \/ n = 2 \/ n = 3 ->
  forall i, i = 1 \/ i = 2 \/ i = 3 ->
    (visible (panel (exec (goToStep n) s) i) = true <-> i = n)
    /\ (i = n -> marked_active (indicator (exec (goToStep n) s) i))
    /\ (i <> n -> marked_inactive (indicator (exec (goToStep n) s) i)).
Proof.
  intros Hn i Hi.
  destruct s as [a1 a2 a3 a4 a5 a6 a7 a8 a9 a10 a11 a12 a13 a14 a15 a16 a17 a18 a19 a20 a21 a22].
  unfold exec, panel, indicator.
  destruct Hn as [-> | [-> | ->]]; destruct Hi as [-> | [-> | ->]];
    do 2 unfold_handlers; crunch.
  all: rewrite ?shown, ?hidden.
  all: split; [split; [try discriminate; try reflexivity|try reflexivity; try discriminate]|].
  all: try (intros _; reflexivity).
  all: split; intros H; try discriminate; try (exfalso; apply H; reflexivity).
  all: first [apply switched_on | apply switched_off].
Qed.

Lemma goToStep_shows_one_step_witness :
  (visible (panel (exec (goToStep 2) (opened "https://example.com" site_is_up)) 2) = true
   <-> 2 = 2)
  /\ (2 = 2 ->
      marked_active (indicator (exec (goToStep 2) (opened "https://example.com" site_is_up)) 2))
  /\ (2 <> 2 ->
      marked_inactive (indicator (exec (goToStep 2) (opened "https://example.com" site_is_up)) 2)).
Proof.
  apply (goToStep_shows_one_step 2 (opened "https://example.com" site_is_up)).
  - right. left. reflexivity.
  - right. left. reflexivity.
Defined.

Example goToStep_2_panels :
  let s' := exec (goToStep 2) (opened "https://example.com" site_is_up) in
  (visible (step1Target s'), visible (step2Target s'), visible (step3Target s'))
  = (false, true, false)
  /\ step2IndicatorTarget s' = "rounded-full" :: active_classes
  /\ step1IndicatorTarget s' = "rounded-full" :: inactive_classes.
Proof. cbv zeta. repeat split. Qed.

Lemma goToStep_keeps_reachability n s :
  isUrlReachable (exec (goToStep n) s) = isUrlReachable s.
Proof.
  destruct s as [a1 a2 a3 a4 a5 a6 a7 a8 a9 a10 a11 a12 a13 a14 a15 a16 a17 a18 a19 a20 a21 a22].
  unfold exec. do 2 unfold_handlers. crunch; reflexivity.
Qed.

(** The flag is set by a reachability check that got an OK answer saying
    the URL is reachable, and by nothing else. *)
Lemma checkUrlReachability_marks url_value s :
  isUrlReachable (exec (checkUrlReachability url_value) s) = true
  <-> exists b, backend s (requests (trace s)) (PostValidateUrl url_value)
                = Answer {| ok := true; json_body := Some b |}
                /\ reachable b = true.
Proof.
  destruct s as [a1 a2 a3 a4 a5 a6 a7 a8 a9 a10 a11 a12 a13 a14 a15 a16 a17 a18 a19 a20 a21 a22].
  unfold exec. do 2 unfold_handlers. cbn.
  destruct (a22 _ _) as [e|[[] [b|]]]; cbn; try destruct (reachable b) eqn:Hb; cbn.
  all: split; [try discriminate; eauto|].
  all: intros (b' & [=] & Hb'); subst; congruence.
Qed.

Lemma validateUrl_clears_reachability trim url_pattern_test s :
  isUrlReachable (exec (validateUrl trim url_pattern_test) s) = false.
Proof.
  destruct s as [a1 a2 a3 a4 a5 a6 a7 a8 a9 a10 a11 a12 a13 a14 a15 a16 a17 a18 a19 a20 a21 a22].
  unfold exec. do 2 unfold_handlers. cbn.
  destruct (url_pattern_test _); cbn; [reflexivity|]. destruct (truthy _); reflexivity.
Qed.

(** C7: [submitProject] sends the project-creation request only when the
    trimmed URL is not empty and [isUrlReachable] is true, a flag that only a
    reachability check with a positive answer sets; when either fails it
    returns at once and changes nothing: no request, no change of step. *)
Theorem submitProject_needs_a_reachable_url trim url_pattern_test s :
  (if truthy (trim (urlInputValue s)) && isUrlReachable s
   then requests (trace (exec (submitProject trim) s))
        = requests (trace s) ++ [PostProject (trim (urlInputValue s))]
   else submitProject trim s = (Return false, s))
  /\ (truthy (trim (urlInputValue s)) = false <-> trim (urlInputValue s) = EmptyString)
  /\ isUrlReachable (exec connect s) = false
  /\ isUrlReachable (exec (validateUrl trim url_pattern_test) s) = false
  /\ (forall n, isUrlReachable (exec (goToStep n) s) = isUrlReachable s)
  /\ (forall url_value,
        isUrlReachable (exec (checkUrlReachability url_value) s) = true
        <-> exists b, backend s (requests (trace s)) (PostValidateUrl url_value)
                      = Answer {| ok := true; json_body := Some b |}
                      /\ reachable b = true).
Proof.
  split; [|split; [|split; [|split; [|split]]]].
  - destruct s as [a1 a2 a3 a4 a5 a6 a7 a8 a9 a10 a11 a12 a13 a14 a15 a16 a17 a18 a19 a20 a21 a22].
    unfold exec. do 2 unfold_handlers. cbn.
    destruct (truthy (trim a5)); cbn; [|reflexivity].
    destruct a4; cbn; [|reflexivity].
    crunch; rewrite ?omap_app; cbn; rewrite ?app_nil_r; reflexivity.
  - unfold truthy. destruct (trim (urlInputValue s)); split; congruence.
  - now destruct s.
  - apply validateUrl_clears_reachability.
  - intros n. apply goToStep_keeps_reachability.
  - intros url_value. apply checkUrlReachability_marks.
Qed.

Example submitProject_posts :
  requests (trace (exec (submitProject no_trim)
                     (exec (checkUrlReachability "https://example.com")
                        (opened "https://example.com" site_is_up))))
  = [PostValidateUrl "https://example.com"; PostProject "https://example.com"].
Proof. reflexivity. Qed.

Example submitProject_before_the_check :
  submitProject no_trim (opened "https://example.com" site_is_up)
  = (Return false, opened "https://example.com" site_is_up).
Proof. reflexivity. Qed.

End OnboardingModalFacts.

Module AnalyticsEventsFacts.
Import AnalyticsEvents.

Section WithTaxonomy.
Context {event_info : Type} (toUpperCase : string -> string).

(** The object built by the [reduce]: a key holds the last name of the list
    that upper-cases to it. *)
Lemma reduce_lookup (names : list string) (acc : gmap string string) (k : string) :
  fold_left (fun events eventName => <[toUpperCase eventName := eventName]> events) names acc
  !! k
  = match last (upper_cased_to toUpperCase k names) with
    | Some name => Some name
    | None => acc !! k
    end.
Proof.
  revert acc. induction names as [|x names IH]; intros acc; [reflexivity|].
  cbn [fold_left]. rewrite IH. unfold upper_cased_to. cbn [List.filter].
  destruct (String.eqb_spec (toUpperCase x) k) as [<-|Hne].
  - destruct (List.filter _ names) as [|y l] eqn:E.
    + cbn. apply lookup_insert_eq.
    + change (last (x :: y :: l)) with (last (y :: l)).
      destruct (last (y :: l)) eqn:El; [reflexivity|].
      apply last_None in El. discriminate.
  - destruct (last _); [reflexivity|]. now apply lookup_insert_ne.
Qed.

Lemma last_unique {A} (l : list A) (x : A) :
  x ∈ l -> (forall y, y ∈ l -> y = x) -> last l = Some x.
Proof.
  intros Hx Hall. destruct (last l) as [y|] eqn:E.
  - f_equal. apply Hall. apply last_Some in E as [l' ->]. apply elem_of_app. right.
    apply list_elem_of_here.
  - apply last_None in E. subst. inversion Hx.
Qed.

Lemma elem_of_upper_cased_to k names name :
  name ∈ upper_cased_to toUpperCase k names <-> name ∈ names /\ toUpperCase name = k.
Proof.
  unfold upper_cased_to. rewrite !list_elem_of_In, List.filter_In, String.eqb_eq. tauto.
Qed.

(** C8, amended: [ANALYTICS_EVENT_NAMES] is the list of keys of the events
    object of the taxonomy, empty when there is none, and for every name [n]
    of that list [ANALYTICS_EVENTS] maps [n.toUpperCase()] to the last name of
    the list with the same upper-case form: to [n] itself whenever no other
    name of the list has the upper-case form of [n]. *)
Theorem analytics_constants (eventTaxonomy : @taxonomy event_info) (n : string) :
  n ∈ ANALYTICS_EVENT_NAMES eventTaxonomy ->
  ANALYTICS_EVENT_NAMES eventTaxonomy = Object_keys (default [] (events eventTaxonomy))
  /\ ANALYTICS_EVENT_NAMES
      ({| events := None; deprecated_aliases := deprecated_aliases eventTaxonomy |}
       : @taxonomy event_info) = []
  /\ ANALYTICS_EVENTS toUpperCase eventTaxonomy !! toUpperCase n
     = last (upper_cased_to toUpperCase (toUpperCase n) (ANALYTICS_EVENT_NAMES eventTaxonomy))
  /\ (exists m, ANALYTICS_EVENTS toUpperCase eventTaxonomy !! toUpperCase n = Some m
                /\ m ∈ ANALYTICS_EVENT_NAMES eventTaxonomy
                /\ toUpperCase m = toUpperCase n)
  /\ ((forall m, m ∈ ANALYTICS_EVENT_NAMES eventTaxonomy ->
                 toUpperCase m = toUpperCase n -> m = n) ->
      ANALYTICS_EVENTS toUpperCase eventTaxonomy !! toUpperCase n = Some n).
Proof.
  intros Hn.
  assert (Hin : n ∈ upper_cased_to toUpperCase (toUpperCase n)
                      (ANALYTICS_EVENT_NAMES eventTaxonomy))
    by (apply elem_of_upper_cased_to; auto).
  assert (Hlookup : ANALYTICS_EVENTS toUpperCase eventTaxonomy !! toUpperCase n
                    = last (upper_cased_to toUpperCase (toUpperCase n)
                              (ANALYTICS_EVENT_NAMES eventTaxonomy))).
  { unfold ANALYTICS_EVENTS, analyticsEvents. rewrite reduce_lookup.
    fold (ANALYTICS_EVENT_NAMES eventTaxonomy).
    destruct (last _) eqn:E; [reflexivity|]. apply last_None in E.
    rewrite E in Hin. inversion Hin. }
  split; [reflexivity|]. split; [reflexivity|]. split; [exact Hlookup|]. split.
  - rewrite Hlookup. destruct (last _) as [m|] eqn:E.
    + exists m. split; [reflexivity|]. apply elem_of_upper_cased_to.
      apply last_Some in E as [l' E]. rewrite E. apply elem_of_app. right.
      apply list_elem_of_here.
    + apply last_None in E. rewrite E in Hin. inversion Hin.
  - intros Huniq. rewrite Hlookup. apply last_unique; [exact Hin|].
    intros m Hm. apply elem_of_upper_cased_to in Hm as [Hm Hup]. auto.
Qed.

End WithTaxonomy.

Lemma analytics_constants_witness :
  ANALYTICS_EVENT_NAMES taxonomy_v1 = Object_keys (default [] (events taxonomy_v1))
  /\ ANALYTICS_EVENT_NAMES
      ({| events := None; deprecated_aliases := deprecated_aliases taxonomy_v1 |}
       : @taxonomy unit) = []
  /\ ANALYTICS_EVENTS toUpperCase_ascii taxonomy_v1 !! toUpperCase_ascii "signup_completed"
     = last (upper_cased_to toUpperCase_ascii (toUpperCase_ascii "signup_completed")
               (ANALYTICS_EVENT_NAMES taxonomy_v1))
  /\ (exists m, ANALYTICS_EVENTS toUpperCase_ascii taxonomy_v1
                !! toUpperCase_ascii "signup_completed" = Some m
                /\ m ∈ ANALYTICS_EVENT_NAMES taxonomy_v1
                /\ toUpperCase_ascii m = toUpperCase_ascii "signup_completed")
  /\ ((forall m, m ∈ ANALYTICS_EVENT_NAMES taxonomy_v1 ->
                 toUpperCase_ascii m = toUpperCase_ascii "signup_completed" ->
                 m = "signup_completed") ->
      ANALYTICS_EVENTS toUpperCase_ascii taxonomy_v1 !! toUpperCase_ascii "signup_completed"
      = Some "signup_completed").
Proof.
  apply (analytics_constants toUpperCase_ascii taxonomy_v1 "signup_completed").
  vm_compute. apply list_elem_of_further, list_elem_of_here.
Defined.

(** C8, as stated, does not hold for every taxonomy: two names that differ
    only in case share one constant, which holds the later of the two. *)
Lemma names_that_differ_in_case :
  exists (eventTaxonomy : @taxonomy unit) n,
    NoDup (ANALYTICS_EVENT_NAMES eventTaxonomy)
    /\ n ∈ ANALYTICS_EVENT_NAMES eventTaxonomy
    /\ ANALYTICS_EVENTS toUpperCase_ascii eventTaxonomy !! toUpperCase_ascii n
       = Some "signUp_completed"
    /\ ANALYTICS_EVENTS toUpperCase_ascii eventTaxonomy !! toUpperCase_ascii n <> Some n.
Proof.
  exists {| events := Some [("signup_completed", tt); ("signUp_completed", tt)];
            deprecated_aliases := None |}, "signup_completed".
  split; [|split; [|split]].
  - repeat constructor; rewrite ?elem_of_cons, ?elem_of_nil; intuition discriminate.
  - apply list_elem_of_here.
  - vm_compute. reflexivity.
  - vm_compute. discriminate.
Qed.

(** On the taxonomy of the documentation every constant is its own name in
    upper case. *)
Example constants_of_taxonomy_v1 :
  Forall (fun n => ANALYTICS_EVENTS toUpperCase_ascii taxonomy_v1 !! toUpperCase_ascii n
                   = Some n)
    (ANALYTICS_EVENT_NAMES taxonomy_v1)
  /\ ANALYTICS_EVENTS toUpperCase_ascii taxonomy_v1 !! "SITE_VISITED" = Some "site_visited"
  /\ length (ANALYTICS_EVENT_NAMES taxonomy_v1) = 15%nat.
Proof. split; [|split]; [|vm_compute; reflexivity..]. repeat constructor. Qed.

End AnalyticsEventsFacts.

(** * Properties of the progress dialog and of what the card shows *)

Module GenerateContentViewFacts.
Import ProgressDialog GenerateContent GenerateContentView.
Import GenerateContentFacts.

#[local] Arguments prop : simpl never.
#[local] Arguments is_str : simpl never.
#[local] Arguments or_else : simpl never.
#[local] Arguments reported_status : simpl never.
#[local] Arguments String.append : simpl never.

Lemma logs_inj new new' s : logs new s = logs new' s -> new = new'.
Proof.
  intros H. apply (f_equal trace) in H. rewrite !trace_logs in H.
  now apply app_inv_head in H.
Qed.

Lemma _executeStep_step_events step_name s :
  exists new o, _executeStep step_name s = (o, logs new s) /\ Forall step_event new.
Proof.
  unfold _executeStep, try_catch, fetch, mbind, M_bind, bind, _updateProgressStep,
    emit, modify, gets.
  cbn [log trace backend blogPostId].
  destruct (backend s _ _) as [e | [[] [b|]]]; cbn.
  2: destruct (reported_status b step_name) as [info|]; cbn;
       [destruct (is_str (si_status info) "failed"); cbn|].
  all: first [ eexists [_; _; _; _], _; split; [reflexivity|]; repeat constructor
             | eexists [_; _; _], _; split; [reflexivity|]; repeat constructor ].
Qed.

Lemma loop_step_events todo s :
  exists new o, for_of todo _executeStep s = (o, logs new s) /\ Forall step_event new.
Proof.
  revert s. induction todo as [|step_name todo IH]; intros s.
  - exists [], (Return tt). split; [reflexivity|constructor].
  - cbn [for_of]. unfold bind.
    destruct (_executeStep_step_events step_name s) as (new1 & [[]|e] & -> & H1).
    + destruct (IH (logs new1 s)) as (new2 & o & -> & H2).
      exists (new1 ++ new2), o. rewrite logs_app. split; [reflexivity|].
      apply Forall_app; auto.
    + exists new1, (Throw e). auto.
Qed.

(** The loop over the steps, with all that the runs below need. *)
Lemma loop_run todo s :
  exists new o done failed rest,
    for_of todo _executeStep s = (o, logs new s)
    /\ todo = done ++ option_list failed ++ rest
    /\ Forall step_event new
    /\ pipeline_events new = run_of done failed
    /\ requests new = map (PostStep (blogPostId s)) (done ++ option_list failed)
    /\ match failed with
       | None => o = Return tt /\ rest = []
       | Some _ => exists e, o = Throw e
       end.
Proof.
  destruct (pipeline_loop todo s) as (new & o & done & failed & rest & E & -> & R & P & H).
  destruct (loop_step_events (done ++ option_list failed ++ rest) s) as (new' & o' & E' & F).
  rewrite E in E'. injection E' as <- E'. apply logs_inj in E'. subst new'.
  exists new, o, done, failed, rest. auto 10.
Qed.

Lemma show_generated_run text s :
  exists tail o,
    show_generated text s = (o, logs (closing s (blogPostId s) ++ tail) s)
    /\ if settings_readable s
       then o = Return tt
            /\ exists b, tail = [AppendPostButton b (blogPostId s); ShowMessage text "success"]
       else o = Throw json_error /\ tail = [].
Proof.
  unfold show_generated, _appendPostButton, _hideProgressDialog, showMessage, when,
    read_flag, emit, modify, gets, mbind, M_bind, bind, mret, ret, throw,
    closing, status_update, settings_readable.
  destruct s as [sid pid [] [| |[]] [| |[]] post todo be t]; cbn;
    first [ eexists [_; _], _; split; [reflexivity|]; eauto
          | eexists [], _; split; [reflexivity|]; eauto ].
Qed.

Ltac added_eq :=
  unfold added, exec; cbn [snd when mret ret M_ret];
  repeat first [ rewrite trace_logs
               | progress cbn [trace log set_pipelineSteps set_blogPostId] ];
  rewrite <- ?app_assoc; rewrite drop_app_length; cbn [app]; reflexivity.

Lemma generate_run s startData :
  start_gives s startData ->
  exists loop done failed rest tail,
    the_pipeline_steps = done ++ option_list failed ++ rest
    /\ (failed = None -> rest = [])
    /\ Forall step_event loop
    /\ pipeline_events loop = run_of done failed
    /\ added generate s
       = [ ButtonContainer GeneratingButton; ShowProgressDialog;
           Fetch (PostStart (suggestionIdValue s)) ] ++ loop ++ tail
    /\ match failed with
       | Some _ => exists e, tail = generate_catch s e
       | None =>
           if settings_readable s
           then exists b,
                  tail = closing s (blog_post_id startData)
                         ++ [ AppendPostButton b (blog_post_id startData);
                              ShowMessage "Blog post generated successfully!" "success" ]
           else tail = closing s (blog_post_id startData) ++ generate_catch s json_error
       end.
Proof.
  intros Hb.
  unfold added, generate, exec, try_catch, fetch, json, _showProgressDialog,
    GenerateContent._hideProgressDialog,
    showMessage, emit, modify, gets, mbind, M_bind, bind, mret, ret, throw.
  cbn [log trace backend suggestionIdValue].
  rewrite !requests_app. cbn [requests omap]. rewrite !app_nil_r, Hb.
  cbn [ok json_body negb].
  cbn [pipelineSteps set_pipelineSteps].
  match goal with |- context [for_of _ _ ?s1] => set (s1' := s1) end.
  destruct (loop_run the_pipeline_steps s1')
    as (loop & o & done & failed & rest & -> & Hsplit & Hev & Hrun & _ & Hout).
  exists loop, done, failed, rest.
  destruct failed as [f|].
  - destruct Hout as [e ->].
    exists (generate_catch s e).
    split; [exact Hsplit|]. split; [discriminate|]. split; [exact Hev|]. split; [exact Hrun|].
    split; [|eauto].
    cbn [hasStatusTarget log]. rewrite hasStatusTarget_logs.
    subst s1'. cbn [hasStatusTarget log set_pipelineSteps set_blogPostId].
    unfold generate_catch, status_update.
    destruct (hasStatusTarget s); cbn [when snd mret ret M_ret];
      repeat first [ rewrite trace_logs
                   | progress cbn [trace log set_pipelineSteps set_blogPostId] ];
      rewrite <- ?app_assoc; rewrite drop_app_length; reflexivity.
  - destruct Hout as [-> ->].
    destruct (show_generated_run "Blog post generated successfully!" (logs loop s1'))
      as (tail & o2 & -> & Hout).
    assert (Hset : settings_readable (logs loop s1') = settings_readable s).
    { unfold settings_readable. clear. induction loop as [|x loop IH] using rev_ind.
      - now destruct s.
      - rewrite logs_app. cbn. exact IH. }
    assert (Hcl : closing (logs loop s1') (blogPostId (logs loop s1'))
                  = closing s (blog_post_id startData)).
    { unfold closing, status_update.
      rewrite hasStatusTarget_logs, blogPostId_logs.
      replace (projectIdValue (logs loop s1')) with (projectIdValue s); [now destruct s|].
      clear. induction loop as [|x loop IH] using rev_ind; [now destruct s|].
      rewrite logs_app. cbn. exact IH. }
    rewrite Hset, blogPostId_logs in Hout. rewrite Hcl.
    change (blogPostId s1') with (blog_post_id startData) in Hout.
    clear Hset Hcl.
    destruct (settings_readable s).
    + destruct Hout as (-> & b & ->).
      eexists. split; [rewrite Hsplit at 1; cbn; now rewrite ?app_nil_r|]. split; [reflexivity|]. split; [exact Hev|].
      split; [exact Hrun|]. split; [|exists b; reflexivity].
      subst s1'. cbn [snd].
      repeat first [ rewrite trace_logs
                   | progress cbn [trace log set_pipelineSteps set_blogPostId] ].
      rewrite <- ?app_assoc. rewrite drop_app_length. reflexivity.
    + destruct Hout as (-> & ->). rewrite app_nil_r.
      eexists. split; [rewrite Hsplit at 1; cbn; now rewrite ?app_nil_r|]. split; [reflexivity|]. split; [exact Hev|].
      split; [exact Hrun|]. split; [|reflexivity].
      cbn [hasStatusTarget log]. rewrite !hasStatusTarget_logs.
      subst s1'. cbn [hasStatusTarget log set_pipelineSteps set_blogPostId].
      unfold generate_catch, status_update.
      destruct (hasStatusTarget s); cbn [when snd mret ret M_ret];
        repeat first [ rewrite trace_logs
                     | progress cbn [trace log set_pipelineSteps set_blogPostId] ];
        rewrite <- ?app_assoc; rewrite drop_app_length; reflexivity.
Qed.

Lemma start_error_none s :
  start_error s = None -> exists startData, start_gives s startData.
Proof.
  unfold start_error, start_gives.
  destruct (backend s _ _) as [e|[[] [b|]]]; cbn; try discriminate. eauto.
Qed.

Lemma generate_fails_to_start s e :
  start_error s = Some e ->
  added generate s
  = [ ButtonContainer GeneratingButton; ShowProgressDialog;
      Fetch (PostStart (suggestionIdValue s)) ] ++ generate_catch s e
  /\ blogPostId (exec generate s) = blogPostId s.
Proof.
  unfold start_error. intros He.
  unfold added, generate, exec, try_catch, fetch, json, _showProgressDialog,
    GenerateContent._hideProgressDialog,
    showMessage, emit, modify, gets, mbind, M_bind, bind, mret, ret, throw.
  cbn [log trace backend suggestionIdValue].
  rewrite !requests_app. cbn [requests omap]. rewrite !app_nil_r.
  unfold generate_catch, status_update.
  destruct (backend s _ _) as [e'|[[] [b|]]]; cbn [ok json_body negb] in *;
    try discriminate; injection He as <-;
    cbn [hasStatusTarget log]; destruct (hasStatusTarget s) eqn:Hs;
    cbn [when snd mret ret M_ret trace log blogPostId];
    rewrite <- ?app_assoc; rewrite drop_app_length; split; reflexivity.
Qed.

(** ** The dialog *)

Lemma replay_app a b doc : replay (a ++ b) doc = replay b (replay a doc).
Proof. apply fold_left_app. Qed.

Lemma length_update_row step_name f d d' :
  update_row step_name f d = Some d' -> length d' = length d.
Proof.
  revert d'. induction d as [|r d IH]; intros d'; cbn; [discriminate|].
  destruct (String.eqb (data_step r) step_name); [now intros [= <-]|].
  destruct (update_row step_name f d) as [d2|]; cbn; [|discriminate].
  intros [= <-]. cbn. f_equal. now apply IH.
Qed.

Lemma length_updateProgressStep step_name status display_text doc :
  length (ProgressDialog._updateProgressStep step_name status display_text doc) = length doc.
Proof.
  induction doc as [|d doc IH]; cbn; [reflexivity|].
  destruct (update_row _ _ d); cbn; [reflexivity|]. now rewrite IH.
Qed.

Lemma steps_keep_the_dialogs loop doc :
  Forall step_event loop -> length (replay loop doc) = length doc.
Proof.
  intros H. revert doc. induction H as [|e loop He _ IH]; intros doc; [reflexivity|].
  cbn. rewrite IH. destruct e as [[]| | | | | | | |]; cbn in He |- *; try tauto.
  apply length_updateProgressStep.
Qed.

Lemma generate_catch_closes s e doc :
  (length doc <= 1)%nat -> replay (generate_catch s e) doc = [].
Proof.
  intros H. unfold generate_catch, status_update.
  destruct doc as [|d [|d' doc]]; cbn in H; try lia; destruct (hasStatusTarget s); reflexivity.
Qed.

Lemma continue_catch_closes id e doc :
  (length doc <= 1)%nat -> replay (continue_catch id e) doc = [].
Proof.
  intros H. destruct doc as [|d [|d' doc]]; cbn in H; try lia; reflexivity.
Qed.

Lemma closing_closes s post doc :
  (length doc <= 1)%nat -> replay (closing s post) doc = [].
Proof.
  intros H. unfold closing, status_update.
  destruct doc as [|d [|d' doc]]; cbn in H; try lia; destruct (hasStatusTarget s); reflexivity.
Qed.

Lemma generate_closes_the_dialog s : page_after generate s [] = [].
Proof.
  unfold page_after. fold (added generate s).
  destruct (start_error s) as [e|] eqn:E.
  - rewrite (proj1 (generate_fails_to_start s e E)), replay_app.
    apply generate_catch_closes. cbn. lia.
  - destruct (start_error_none s E) as [startData Hb].
    destruct (generate_run s startData Hb)
      as (loop & done & failed & rest & tail & _ & _ & Hev & _ & -> & Htail).
    rewrite !replay_app.
    set (doc := replay loop _).
    assert (Hdoc : length doc = 1%nat) by (subst doc; now rewrite steps_keep_the_dialogs).
    destruct failed as [f|].
    + destruct Htail as [e ->]. apply generate_catch_closes. lia.
    + destruct (settings_readable s).
      * destruct Htail as [b ->]. rewrite replay_app, closing_closes by lia. reflexivity.
      * rewrite Htail, replay_app, closing_closes by lia.
        apply generate_catch_closes. cbn. lia.
Qed.

Lemma show_completed_ticks entries s :
  show_completed entries s = (Return tt, logs (ticks entries) s).
Proof.
  unfold show_completed. revert s.
  induction entries as [|[k info] entries IH]; intros s; cbn [for_of ticks flat_map]; [reflexivity|].
  unfold bind, tick_completed. cbn [fst snd].
  destruct (prop step_name_map k) as [f|]; [|apply IH].
  destruct (truthy f && is_str (si_status info) "completed"); [|apply IH].
  cbn [when]. unfold GenerateContent._updateProgressStep, emit, modify.
  rewrite IH, logs_app. reflexivity.
Qed.

Lemma projectIdValue_logs new s : projectIdValue (logs new s) = projectIdValue s.
Proof. revert s. induction new as [|e new IH]; intros s; simpl; [easy|now rewrite IH]. Qed.

Lemma settings_readable_logs new s : settings_readable (logs new s) = settings_readable s.
Proof.
  unfold settings_readable. revert s.
  induction new as [|e new IH]; intros s; simpl; [easy|now rewrite IH].
Qed.

Lemma continue_run s id statusData :
  status_gives s id statusData ->
  exists loop done failed rest tail,
    List.filter (needs_execution statusData) the_pipeline_steps
    = done ++ option_list failed ++ rest
    /\ (failed = None -> rest = [])
    /\ Forall step_event loop
    /\ pipeline_events loop = run_of done failed
    /\ added (continue id) s
       = [ ButtonContainer ContinuingButton; ShowProgressDialog; Fetch (GetStatus id) ]
         ++ ticks (default [] (steps statusData)) ++ loop ++ tail
    /\ match failed with
       | Some _ => exists e, tail = continue_catch id e
       | None =>
           if settings_readable s
           then exists b,
                  tail = closing s id
                         ++ [ AppendPostButton b id;
                              ShowMessage "Blog post generation completed!" "success" ]
           else tail = closing s id ++ continue_catch id json_error
       end.
Proof.
  intros Hb. unfold status_gives in Hb.
  unfold added, continue, exec, try_catch, fetch, json, _showProgressDialog,
    GenerateContent._hideProgressDialog,
    showMessage, emit, modify, gets, mbind, M_bind, bind, mret, ret, throw.
  cbn [log trace backend blogPostId set_blogPostId].
  rewrite !requests_app. cbn [requests omap]. rewrite !app_nil_r, Hb.
  cbn [ok json_body negb].
  match goal with
  | |- context [match steps statusData with Some e => show_completed e | None => ?r end ?s0] =>
      assert (Hticks :
                 (match steps statusData with Some e => show_completed e | None => r end) s0
                 = (Return tt, logs (ticks (default [] (steps statusData))) s0));
      [ destruct (steps statusData) as [entries|];
        [apply show_completed_ticks | reflexivity] | ]
  end.
  rewrite Hticks. clear Hticks.
  cbn [pipelineSteps set_pipelineSteps].
  rewrite steps_to_execute_filter.
  match goal with |- context [for_of _ _ ?s1] => set (s1' := s1) end.
  destruct (loop_run (List.filter (needs_execution statusData) the_pipeline_steps) s1')
    as (loop & o & done & failed & rest & -> & Hsplit & Hev & Hrun & _ & Hout).
  exists loop, done, failed, rest.
  assert (Hid : blogPostId s1' = id)
    by (subst s1'; cbn [blogPostId set_pipelineSteps]; now rewrite blogPostId_logs).
  destruct failed as [f|].
  - destruct Hout as [e ->].
    exists (continue_catch id e).
    split; [exact Hsplit|]. split; [discriminate|]. split; [exact Hev|]. split; [exact Hrun|].
    split; [|eauto].
    cbn [blogPostId log]. rewrite blogPostId_logs, Hid.
    subst s1'. unfold continue_catch. cbn [snd].
    repeat first [ rewrite trace_logs
                 | progress cbn [trace log set_pipelineSteps set_blogPostId] ].
    rewrite <- ?app_assoc. rewrite drop_app_length. reflexivity.
  - destruct Hout as [-> ->].
    destruct (show_generated_run "Blog post generation completed!" (logs loop s1'))
      as (tail & o2 & -> & Hout).
    assert (Hcl : closing (logs loop s1') (blogPostId (logs loop s1')) = closing s id).
    { unfold closing, status_update.
      rewrite hasStatusTarget_logs, blogPostId_logs, projectIdValue_logs, Hid.
      subst s1'. cbn [projectIdValue hasStatusTarget set_pipelineSteps].
      rewrite hasStatusTarget_logs, projectIdValue_logs. now destruct s. }
    assert (Hset : settings_readable (logs loop s1') = settings_readable s).
    { rewrite settings_readable_logs. subst s1'.
      unfold settings_readable at 1. cbn [userProfileSettings projectSettings set_pipelineSteps].
      fold (settings_readable (logs (ticks (default [] (steps statusData)))
              (log (Fetch (GetStatus id)) (log ShowProgressDialog
                 (log (ButtonContainer ContinuingButton) (set_blogPostId id s)))))).
      rewrite settings_readable_logs. now destruct s. }
    rewrite Hset, blogPostId_logs, Hid in Hout. rewrite Hcl. clear Hset Hcl.
    destruct (settings_readable s).
    + destruct Hout as (-> & b & ->).
      eexists. split; [rewrite Hsplit at 1; cbn; now rewrite ?app_nil_r|].
      split; [reflexivity|]. split; [exact Hev|].
      split; [exact Hrun|]. split; [|exists b; reflexivity].
      subst s1'. cbn [snd].
      repeat first [ rewrite trace_logs
                   | progress cbn [trace log set_pipelineSteps set_blogPostId] ].
      rewrite <- ?app_assoc. rewrite drop_app_length. reflexivity.
    + destruct Hout as (-> & ->). rewrite app_nil_r.
      eexists. split; [rewrite Hsplit at 1; cbn; now rewrite ?app_nil_r|].
      split; [reflexivity|]. split; [exact Hev|].
      split; [exact Hrun|]. split; [|reflexivity].
      cbn [blogPostId log]. rewrite !blogPostId_logs, Hid.
      subst s1'. unfold continue_catch. cbn [snd].
      repeat first [ rewrite trace_logs
                   | progress cbn [trace log set_pipelineSteps set_blogPostId] ].
      rewrite <- ?app_assoc. rewrite drop_app_length. reflexivity.
Qed.

Lemma status_error_none s id :
  status_error s id = None -> exists statusData, status_gives s id statusData.
Proof.
  unfold status_error, status_gives.
  destruct (backend s _ _) as [e|[[] [b|]]]; cbn; try discriminate. eauto.
Qed.

Lemma continue_fails_to_start s id e :
  status_error s id = Some e ->
  added (continue id) s
  = [ ButtonContainer ContinuingButton; ShowProgressDialog; Fetch (GetStatus id) ]
    ++ continue_catch id e.
Proof.
  unfold status_error. intros He.
  unfold added, continue, exec, try_catch, fetch, json, _showProgressDialog,
    GenerateContent._hideProgressDialog,
    showMessage, emit, modify, gets, mbind, M_bind, bind, mret, ret, throw.
  cbn [log trace backend blogPostId set_blogPostId].
  rewrite !requests_app. cbn [requests omap]. rewrite !app_nil_r.
  unfold continue_catch.
  destruct (backend s _ _) as [e'|[[] [b|]]]; cbn [ok json_body negb] in *;
    try discriminate; injection He as <-;
    cbn [snd trace log blogPostId];
    rewrite <- ?app_assoc; rewrite drop_app_length; reflexivity.
Qed.

Lemma ticks_step_events entries : Forall step_event (ticks entries).
Proof.
  unfold ticks. induction entries as [|[k info] entries IH]; cbn; [constructor|].
  apply Forall_app. split; [|exact IH].
  destruct (prop step_name_map k) as [f|]; [|constructor].
  destruct (truthy f && _); repeat constructor.
Qed.

Lemma continue_closes_the_dialog id s : page_after (continue id) s [] = [].
Proof.
  unfold page_after.
  fold (added (continue id) s).
  destruct (status_error s id) as [e|] eqn:E.
  - rewrite (continue_fails_to_start s id e E), replay_app.
    apply continue_catch_closes. cbn. lia.
  - destruct (status_error_none s id E) as [statusData Hb].
    destruct (continue_run s id statusData Hb)
      as (loop & done & failed & rest & tail & _ & _ & Hev & _ & -> & Htail).
    rewrite !replay_app.
    set (doc := replay loop _).
    assert (Hdoc : length doc = 1%nat).
    { subst doc. rewrite steps_keep_the_dialogs by exact Hev.
      rewrite steps_keep_the_dialogs by apply ticks_step_events. reflexivity. }
    destruct failed as [f|].
    + destruct Htail as [e ->]. apply continue_catch_closes. lia.
    + destruct (settings_readable s).
      * destruct Htail as [b ->]. rewrite replay_app, closing_closes by lia. reflexivity.
      * rewrite Htail, replay_app, closing_closes by lia.
        apply continue_catch_closes. cbn. lia.
Qed.

(** X1: Neither handler leaves a progress dialog on the page: on a page
    without one, whatever the back end answers and whatever the stored
    settings hold, the dialog that [generate] or [continue] opens is removed
    again before the handler ends. *)
Theorem handlers_close_the_progress_dialog (s : state) (id : option Z) :
  page_after generate s [] = [] /\ page_after (continue id) s [] = [].
Proof. split; [apply generate_closes_the_dialog | apply continue_closes_the_dialog]. Qed.

(** ** What the card shows *)

Lemma buttons_app a b : buttons (a ++ b) = buttons a ++ buttons b.
Proof. apply omap_app. Qed.

Lemma messages_app a b : messages (a ++ b) = messages a ++ messages b.
Proof. apply omap_app. Qed.

Lemma step_events_are_silent loop :
  Forall step_event loop -> buttons loop = [] /\ messages loop = [].
Proof.
  induction 1 as [|e loop He _ [IH1 IH2]]; [split; reflexivity|].
  destruct e as [[]| | | | | | | |]; cbn in He |- *; try tauto.
Qed.

Lemma length_run_of done failed :
  length (run_of done failed)
  = (2 * length done + match failed with Some _ => 1 | None => 0 end)%nat.
Proof.
  unfold run_of. rewrite length_app.
  replace (length (flat_map (fun s => [Requested s; Completed s]) done))
    with (2 * length done)%nat
    by (induction done as [|x done IH]; cbn in *; lia).
  destruct failed; reflexivity.
Qed.

Lemma run_of_failed_differs done f todo : run_of done (Some f) <> run_of todo None.
Proof.
  intros H. apply (f_equal length) in H. rewrite !length_run_of in H. lia.
Qed.

Lemma generate_catch_view s e :
  buttons (generate_catch s e) = [GenerateButton]
  /\ messages (generate_catch s e)
     = [(or_else (Some e) "Failed to generate content. Please try again later.", "error")]
  /\ pipeline_events (generate_catch s e) = [].
Proof. unfold generate_catch, status_update. destruct (hasStatusTarget s); repeat split. Qed.

Lemma continue_catch_view id e :
  buttons (continue_catch id e) = [ContinueButton id]
  /\ messages (continue_catch id e)
     = [(or_else (Some e) "Failed to continue generation. Please try again later.", "error")]
  /\ pipeline_events (continue_catch id e) = [].
Proof. repeat split. Qed.

Lemma closing_view s post :
  buttons (closing s post) = [ViewPostLink (projectIdValue s) post]
  /\ messages (closing s post) = []
  /\ pipeline_events (closing s post) = [].
Proof. unfold closing, status_update. destruct (hasStatusTarget s); repeat split. Qed.

(** X2: [generate], once the pipeline has started, ends in one of two ways.  It
    ends with the link to the post in the button container and the one
    message that the post was generated exactly when all five steps were
    requested and completed and both stored settings items could be read.
    In every other case it ends with the Generate button back in place and
    one error message. *)
Theorem generate_shows_the_post_iff_all_steps_completed (s : state) (startData : body) :
  start_gives s startData ->
  let new := added generate s in
  let view_post := ViewPostLink (projectIdValue s) (blog_post_id startData) in
  (final_button new = Some view_post
   <-> all_completed the_pipeline_steps new /\ settings_readable s = true)
  /\ (final_button new = Some view_post ->
      messages new = [("Blog post generated successfully!", "success")])
  /\ (final_button new <> Some view_post ->
      final_button new = Some GenerateButton
      /\ exists text, messages new = [(text, "error")]).
Proof.
  intros Hb new view_post. subst new view_post.
  destruct (generate_run s startData Hb)
    as (loop & done & failed & rest & tail & Hsplit & Hrest & Hev & Hrun & -> & Htail).
  destruct (step_events_are_silent loop Hev) as [Hlb Hlm].
  unfold final_button, all_completed.
  rewrite !buttons_app, !messages_app, !pipeline_events_app, Hlb, Hlm, Hrun.
  cbn [buttons messages pipeline_events omap app].
  destruct failed as [f|].
  - destruct Htail as [e ->].
    destruct (generate_catch_view s e) as (-> & -> & ->). cbn [last app]. rewrite app_nil_r.
    split; [split; [discriminate|]|split; [discriminate|]].
    + intros [H _]. destruct (run_of_failed_differs _ _ _ H).
    + intros _. split; [reflexivity|eauto].
  - specialize (Hrest eq_refl). subst rest. cbn [option_list app] in Hsplit.
    rewrite app_nil_r in Hsplit. subst done.
    destruct (closing_view s (blog_post_id startData)) as (Hb1 & Hm1 & He1).
    destruct (settings_readable s).
    + destruct Htail as [b ->].
      rewrite !buttons_app, !messages_app, !pipeline_events_app, Hb1, Hm1, He1.
      cbn. rewrite ?app_nil_r.
      split; [split; auto|split; [reflexivity|]]. intros H. now destruct H.
    + rewrite Htail.
      destruct (generate_catch_view s json_error) as (Hb2 & Hm2 & He2).
      rewrite !buttons_app, !messages_app, !pipeline_events_app, Hb1, Hm1, He1, Hb2, Hm2, He2.
      cbn. rewrite ?app_nil_r.
      split; [split; [discriminate|intros [_ [=]]]|split; [discriminate|]].
      intros _. split; [reflexivity|eauto].
Qed.

Lemma generate_shows_the_post_iff_all_steps_completed_witness :
  let s := card every_step_ok in
  let new := added generate s in
  let view_post := ViewPostLink 1 (Some 42) in
  (final_button new = Some view_post
   <-> all_completed the_pipeline_steps new /\ settings_readable s = true)
  /\ (final_button new = Some view_post ->
      messages new = [("Blog post generated successfully!", "success")])
  /\ (final_button new <> Some view_post ->
      final_button new = Some GenerateButton
      /\ exists text, messages new = [(text, "error")]).
Proof.
  apply (generate_shows_the_post_iff_all_steps_completed (card every_step_ok) post_42).
  reflexivity.
Defined.

Example generate_with_broken_settings :
  let new := added generate (card_with_broken_settings every_step_ok) in
  all_completed the_pipeline_steps new
  /\ buttons new = [GeneratingButton; ViewPostLink 1 (Some 42); GenerateButton]
  /\ messages new = [(json_error, "error")].
Proof. cbv zeta. repeat split. Qed.

Lemma prop_elem_of {V} (o : list (string * V)) k v : prop o k = Some v -> (k, v) ∈ o.
Proof.
  induction o as [|[k' v'] o IH]; unfold prop; fold (@prop V); [discriminate|].
  destruct (String.eqb_spec k' k) as [->|Hne].
  - intros [= ->]. apply list_elem_of_here.
  - intros H. apply list_elem_of_further, IH, H.
Qed.

Lemma completed_in_run_of f done : f ∈ done -> Completed f ∈ run_of done None.
Proof.
  unfold run_of. rewrite app_nil_r. intros H.
  apply list_elem_of_In, in_flat_map. exists f. split; [now apply list_elem_of_In|].
  right. left. reflexivity.
Qed.

(** A step that the status reports as completed gets its tick. *)
Lemma completed_step_is_ticked statusData f :
  f ∈ the_pipeline_steps ->
  needs_execution statusData f = false ->
  Completed f ∈ pipeline_events (ticks (default [] (steps statusData))).
Proof.
  intros Hf Hdone.
  apply needs_execution_spec in Hdone as (entries & info & -> & Hprop & Hst).
  apply prop_elem_of in Hprop. cbn [default].
  apply list_elem_of_omap.
  exists (ProgressStep f "completed" (Some (_getStepDisplayName f))). split; [|reflexivity].
  unfold ticks. apply list_elem_of_In, in_flat_map.
  exists (_getBackendStepName f, info). split; [now apply list_elem_of_In|].
  cbn [fst snd]. rewrite Hst.
  unfold the_pipeline_steps in Hf. rewrite !elem_of_cons, elem_of_nil in Hf.
  destruct Hf as [->|[->|[->|[->|[->|[]]]]]]; left; reflexivity.
Qed.

(** X3: [continue], once it has the status of the pipeline, ends either with the
    link to the post in the button container or with the Continue button of
    the same post.  When it ends with the link, every one of the five steps
    was marked completed on the way, ticked from the status or run to its
    end, and the one message says that the generation completed; when it
    ends with the Continue button, the one message is an error. *)
Theorem continue_shows_the_post_only_when_all_steps_completed
    (s : state) (id : option Z) (statusData : body) :
  status_gives s id statusData ->
  let new := added (continue id) s in
  let view_post := ViewPostLink (projectIdValue s) id in
  (final_button new = Some view_post \/ final_button new = Some (ContinueButton id))
  /\ (final_button new = Some view_post ->
      (forall f, f ∈ the_pipeline_steps -> Completed f ∈ pipeline_events new)
      /\ messages new = [("Blog post generation completed!", "success")])
  /\ (final_button new = Some (ContinueButton id) ->
      exists text, messages new = [(text, "error")]).
Proof.
  intros Hb new view_post. subst new view_post.
  destruct (continue_run s id statusData Hb)
    as (loop & done & failed & rest & tail & Hsplit & Hrest & Hev & Hrun & -> & Htail).
  destruct (step_events_are_silent loop Hev) as [Hlb Hlm].
  destruct (step_events_are_silent _ (ticks_step_events (default [] (steps statusData))))
    as [Htb Htm].
  unfold final_button.
  rewrite !buttons_app, !messages_app, !pipeline_events_app, Hlb, Hlm, Htb, Htm, Hrun.
  cbn [buttons messages pipeline_events omap app].
  destruct failed as [f|].
  - destruct Htail as [e ->].
    destruct (continue_catch_view id e) as (-> & -> & ->). cbn [last app].
    split; [now right|]. split; [discriminate|eauto].
  - specialize (Hrest eq_refl). subst rest. cbn [option_list app] in Hsplit.
    rewrite app_nil_r in Hsplit.
    destruct (closing_view s id) as (Hb1 & Hm1 & He1).
    destruct (settings_readable s).
    + destruct Htail as [b ->].
      rewrite !buttons_app, !messages_app, !pipeline_events_app, Hb1, Hm1, He1.
      cbn [buttons messages pipeline_events omap app last]. rewrite ?app_nil_r.
      split; [now left|]. split; [|discriminate].
      intros _. split; [|reflexivity].
      intros f Hf.
      assert (H : Completed f ∈ pipeline_events (ticks (default [] (steps statusData)))
                  \/ Completed f ∈ run_of done None).
      { destruct (needs_execution statusData f) eqn:Hneed.
        - right. apply completed_in_run_of. rewrite <- Hsplit.
          apply list_elem_of_In, List.filter_In. split; [now apply list_elem_of_In|exact Hneed].
        - left. now apply completed_step_is_ticked. }
      rewrite !elem_of_app. tauto.
    + rewrite Htail.
      destruct (continue_catch_view id json_error) as (Hb2 & Hm2 & He2).
      rewrite !buttons_app, !messages_app, !pipeline_events_app, Hb1, Hm1, He1, Hb2, Hm2, He2.
      cbn [buttons messages pipeline_events omap app last]. rewrite ?app_nil_r.
      split; [now right|]. split; [discriminate|eauto].
Qed.

Lemma continue_shows_the_post_only_when_all_steps_completed_witness :
  let s := card resumable in
  let new := added (continue (Some 42)) s in
  let view_post := ViewPostLink 1 (Some 42) in
  (final_button new = Some view_post \/ final_button new = Some (ContinueButton (Some 42)))
  /\ (final_button new = Some view_post ->
      (forall f, f ∈ the_pipeline_steps -> Completed f ∈ pipeline_events new)
      /\ messages new = [("Blog post generation completed!", "success")])
  /\ (final_button new = Some (ContinueButton (Some 42)) ->
      exists text, messages new = [(text, "error")]).
Proof.
  apply (continue_shows_the_post_only_when_all_steps_completed
           (card resumable) (Some 42) two_steps_done).
  reflexivity.
Defined.

(** X4: When the first request fails, neither handler requests a step: the
    only request is the one that failed, the message of the error is shown
    (the default text for an error without one), and the button the user
    pressed is back in place, for [continue] with the same post. *)
Theorem first_request_failure (s : state) (id : option Z) :
  (forall e, start_error s = Some e ->
     requests (added generate s) = [PostStart (suggestionIdValue s)]
     /\ final_button (added generate s) = Some GenerateButton
     /\ messages (added generate s)
        = [(or_else (Some e) "Failed to generate content. Please try again later.", "error")]
     /\ blogPostId (exec generate s) = blogPostId s)
  /\ (forall e, status_error s id = Some e ->
        requests (added (continue id) s) = [GetStatus id]
        /\ final_button (added (continue id) s) = Some (ContinueButton id)
        /\ messages (added (continue id) s)
           = [(or_else (Some e) "Failed to continue generation. Please try again later.",
               "error")])
  /\ (start_error s = None <-> exists startData, start_gives s startData)
  /\ (status_error s id = None <-> exists statusData, status_gives s id statusData).
Proof.
  split; [|split; [|split]].
  - intros e He. destruct (generate_fails_to_start s e He) as [-> Hid].
    unfold final_button, generate_catch, status_update.
    destruct (hasStatusTarget s); repeat split; auto.
  - intros e He. rewrite (continue_fails_to_start s id e He). repeat split.
  - split; [apply start_error_none|]. intros [startData H].
    unfold start_error, start_gives in *. now rewrite H.
  - split; [apply status_error_none|]. intros [statusData H].
    unfold status_error, status_gives in *. now rewrite H.
Qed.

Example generate_offline :
  let new := added generate (card offline) in
  requests new = [PostStart 7]
  /\ final_button new = Some GenerateButton
  /\ messages new = [("Failed to fetch", "error")].
Proof. cbv zeta. repeat split. Qed.

(** ** The row of a step *)

Lemma known_step step_name text :
  prop step_display_names step_name = Some text ->
  (step_name, text) ∈ step_display_names.
Proof. apply prop_elem_of. Qed.

(** X5: In an open progress dialog, [_executeStep] leaves the row of its step
    with the check mark and the struck-through text when it returns, and
    with the cross and the red text when it throws; in both cases the text is
    the display name of the step (the text that says [Failed], written when
    the back end reports the step as failed, is overwritten by the [catch]
    block), and no other row changes. *)
Theorem executeStep_marks_the_row (s : state) (step_name text : string) :
  prop step_display_names step_name = Some text ->
  let doc := ProgressDialog._showProgressDialog [] in
  let doc' := page_after (_executeStep step_name) s doc in
  row_of step_name doc'
  = Some (match result (_executeStep step_name) s with
          | Return _ => completed_row step_name text
          | Throw _ => failed_row step_name text
          end)
  /\ forall other, other <> step_name -> row_of other doc' = row_of other doc.
Proof.
  intros Hknown doc doc'. subst doc doc'.
  apply known_step in Hknown. unfold step_display_names in Hknown.
  rewrite !elem_of_cons, elem_of_nil in Hknown.
  unfold page_after, result, exec, _executeStep, try_catch, fetch, json, mbind, M_bind, bind,
    GenerateContent._updateProgressStep, emit, modify, gets, throw, ret.
  cbn [log trace backend blogPostId].
  destruct Hknown as [[= -> ->]|[[= -> ->]|[[= -> ->]|[[= -> ->]|[[= -> ->]|[]]]]]].
  all: destruct (backend s _ _) as [e | [[] [b|]]]; cbn [ok json_body negb fst snd].
  all: try (destruct (reported_status b _) as [info|];
            [destruct (is_str (si_status info) "failed")|]).
  all: cbn [fst snd trace log]; rewrite <- ?app_assoc; rewrite drop_app_length.
  all: split; [reflexivity|].
  all: intros other Hne; apply String.eqb_neq in Hne; rewrite String.eqb_sym in Hne.
  all: match goal with |- row_of _ ?d' = row_of _ ?d =>
         let x := eval vm_compute in d' in change d' with x;
         let y := eval vm_compute in d in change d with y
       end.
  all: unfold row_of; cbn [concat app List.filter data_step new_row].
  all: rewrite Hne; reflexivity.
Qed.

Lemma executeStep_marks_the_row_witness :
  let s := card content_fails in
  let doc := ProgressDialog._showProgressDialog [] in
  let doc' := page_after (_executeStep "content") s doc in
  row_of "content" doc'
  = Some (match result (_executeStep "content") s with
          | Return _ => completed_row "content" "Generating Content"
          | Throw _ => failed_row "content" "Generating Content"
          end)
  /\ forall other, other <> "content" -> row_of other doc' = row_of other doc.
Proof.
  apply (executeStep_marks_the_row (card content_fails) "content" "Generating Content").
  reflexivity.
Defined.

(** ** The name tables *)

(** X6: The tables of step names agree on the five steps of the pipeline:
    the two tables keyed by step have the five steps as their keys, in
    pipeline order; the table that [continue] reads the status with is the
    inverse of the one that gives the back-end names; every step has a
    display name; and the rows of the progress dialog carry the five names,
    in pipeline order, with the display names as their texts. *)
Theorem name_tables_agree :
  map fst backend_step_names = the_pipeline_steps
  /\ map fst step_display_names = the_pipeline_steps
  /\ map data_step (concat (ProgressDialog._showProgressDialog [])) = the_pipeline_steps
  /\ (forall step_name,
        step_name ∈ the_pipeline_steps ->
        prop step_name_map (_getBackendStepName step_name) = Some step_name
        /\ prop backend_step_names step_name = Some (_getBackendStepName step_name)
        /\ prop step_display_names step_name = Some (_getStepDisplayName step_name)
        /\ row_of step_name (ProgressDialog._showProgressDialog [])
           = Some (new_row step_name (_getStepDisplayName step_name)))
  /\ (forall backend_step_name frontend_step_name,
        (backend_step_name, frontend_step_name) ∈ step_name_map ->
        frontend_step_name ∈ the_pipeline_steps
        /\ _getBackendStepName frontend_step_name = backend_step_name).
Proof.
  split; [reflexivity|]. split; [reflexivity|]. split; [reflexivity|]. split.
  - intros step_name. unfold the_pipeline_steps. rewrite !elem_of_cons, elem_of_nil.
    intros [->|[->|[->|[->|[->|[]]]]]]; repeat split.
  - intros b f Hf. unfold step_name_map in Hf.
    rewrite !elem_of_cons, elem_of_nil in Hf.
    destruct Hf as [[= -> ->]|[[= -> ->]|[[= -> ->]|[[= -> ->]|[[= -> ->]|[]]]]]].
    all: split; [|reflexivity].
    all: unfold the_pipeline_steps; rewrite !elem_of_cons; tauto.
Qed.

End GenerateContentViewFacts.

(** * Properties of the dialog of the pipeline controller *)

Module BlogGenerationPipelineViewFacts.
Import BlogGenerationPipeline BlogGenerationPipelineView.
Import BlogGenerationPipelineFacts.

#[local] Arguments is_str : simpl never.
#[local] Arguments or_else : simpl never.
#[local] Arguments Z.ltb : simpl never.
#[local] Arguments Qmult : simpl never.
#[local] Arguments Qdiv : simpl never.
#[local] Arguments inject_Z : simpl never.

(** The row of a step after [executeStep]: completed when it returns
    [true], failed when it returns [false]. *)
Lemma executeStep_rows st i s :
  (i < length (rows (ui s)))%nat ->
  exists success s',
    executeStep (Some st) i s = (Return success, s')
    /\ rows (ui s') = <[i := if success then Completed else Failed]> (rows (ui s)).
Proof.
  intros Hi.
  destruct s as [sid pid post cur counts max names
                   [hd hp he hr hc dh rws pr em eh rb rh cl ch] t be].
  cbn in Hi.
  unfold executeStep, updateStepStatus, try_catch, fetch, json, showRetryOption, showError,
    updateProgress, when, retries, modify, gets, mbind, M_bind, bind, mret, M_ret, ret, throw.
  repeat (first
    [ progress cbn
    | rewrite length_insert
    | rewrite bool_decide_eq_true_2 by exact Hi
    | match goal with
          | |- context [match be ?h ?r with _ => _ end] => destruct (be h r) as [e|[b|]]
          | |- context [if is_str ?a ?b then _ else _] => destruct (is_str a b)
          | |- context [if ?x <? ?y then _ else _] => destruct (x <? y)
          | |- context [if ?b then _ else _] => is_var b; destruct b
          end ]).
  all: eexists _, _; (split; [reflexivity|]); cbn; apply list_insert_insert_eq.
Qed.

Lemma step_loop_rows record_current todo i s :
  (i + length todo <= length (rows (ui s)))%nat ->
  exists new s' done failed rest,
    step_loop record_current i todo s = (Return tt, s')
    /\ extends s new s'
    /\ todo = done ++ option_list failed ++ rest
    /\ pipeline_events new = run_of i done failed
    /\ (failed = None -> rest = [])
    /\ rows (ui s')
       = take i (rows (ui s))
         ++ map (fun _ => Completed) done
         ++ map (fun _ => Failed) (option_list failed)
         ++ drop (i + length done + length (option_list failed)) (rows (ui s)).
Proof.
  revert i s. induction todo as [|st todo IH]; intros i s Hlen.
  - exists [], s, [], None, []. cbn. rewrite !Nat.add_0_r, take_drop.
    repeat split; auto using extends_refl. all: apply extends_refl.
  - cbn [step_loop]. cbn [length] in Hlen.
    set (s0 := exec (when record_current (modify (set_currentStep (Some (key st))))) s).
    assert (H0 : when record_current (modify (set_currentStep (Some (key st)))) s = (Return tt, s0)
                 /\ extends s [] s0 /\ rows (ui s0) = rows (ui s)).
    { subst s0. destruct record_current; cbn; repeat split; auto using extends_refl, extends_currentStep.
      all: try apply extends_currentStep; try apply extends_refl. all: now destruct s. }
    destruct H0 as (E0 & X0 & R0).
    unfold mbind, M_bind, bind. rewrite E0.
    destruct (executeStep_run st i s0) as (new1 & success & s1 & E1 & X1 & _ & P1).
    { rewrite R0. lia. }
    destruct (executeStep_rows st i s0) as (success' & s1' & E1' & Hrows).
    { rewrite R0. lia. }
    rewrite E1 in E1'. injection E1' as <- <-. rewrite E1. rewrite R0 in Hrows.
    destruct success.
    + destruct (IH (S i) s1) as (new2 & s2 & done & failed & rest & E2 & X2 & -> & P2 & Hrest & Hrows2).
      { rewrite Hrows, length_insert. lia. }
      exists (new1 ++ new2), s2, (st :: done), failed, rest.
      rewrite dialog_events_app, P1, P2.
      split; [exact E2|]. split; [exact (extends_trans _ _ _ _ _ (extends_trans _ _ _ _ _ X0 X1) X2)|].
      split; [reflexivity|]. split; [reflexivity|]. split; [exact Hrest|].
      rewrite Hrows2, Hrows.
      rewrite (take_S_r _ _ Completed) by (apply list_lookup_insert_eq; lia).
      rewrite take_insert_ge by lia. rewrite drop_insert_lt by lia.
      cbn [map length]. rewrite <- !app_assoc. cbn [app].
      replace (i + S (length done) + length (option_list failed))%nat
        with (S i + length done + length (option_list failed))%nat by lia.
      reflexivity.
    + exists new1, s1, [], (Some st), todo.
      rewrite P1.
      split; [reflexivity|]. split; [exact (extends_trans _ _ _ _ _ X0 X1)|].
      split; [reflexivity|]. split; [reflexivity|]. split; [discriminate|].
      rewrite Hrows, insert_take_drop by lia. cbn.
      replace (i + 0 + 1)%nat with (S i) by lia. reflexivity.
Qed.

(** X7: After [startPipeline], once the pipeline has started, the step list
    shows what the run did: [Completed] for every step that completed, in
    order, then [Failed] for the step that failed, if one did, and [Pending]
    for the steps after it, which were not requested. *)
Theorem step_list_shows_the_run (s : state) (data : body) :
  start_gives s data ->
  exists done failed rest,
    stepNames s = done ++ option_list failed ++ rest
    /\ (failed = None -> rest = [])
    /\ pipeline_events (added startPipeline s) = run_of 0 done failed
    /\ rows (ui (exec startPipeline s)) = rows_of_run done failed rest.
Proof.
  intros [Hb Hok].
  destruct s as [sid pid post cur counts max names
                   [hd hp he hr hc dh rws pr em eh rb rh cl ch] t be].
  cbn in Hb.
  unfold added, exec, startPipeline, renderSteps, onPipelineComplete, showMessage, try_catch,
    fetch, json, showError, updateProgress, when, modify, gets, mbind, M_bind, bind, mret,
    M_ret, ret, throw.
  destruct hd, hp; cbn; rewrite Hb; cbn; rewrite Hok; cbn.
  all: match goal with |- context [step_loop true 0 ?todo ?s1] =>
         destruct (step_loop_rows true todo 0 s1)
           as (run & s2 & done & failed & rest & E & X & Hsplit & P & Hrest & Hrows);
         [cbn; rewrite length_map; lia|]
       end.
  all: rewrite E; cbn in Hrows.
  all: destruct X as [Xt _ _ _ _ _ _ Xp [Xf1 [Xf2 [Xf3 Xf4]]]]; cbn in Xt, Xp, Xf1, Xf4.
  all: destruct s2 as [sid2 pid2 post2 cur2 counts2 max2 names2
                   [hd2 hp2 he2 hr2 hc2 dh2 rws2 pr2 em2 eh2 rb2 rh2 cl2 ch2] t2 be2].
  all: cbn in *; subst.
  all: exists done, failed, rest.
  all: split; [reflexivity|]; split; [exact Hrest|].
  all: destruct hc; cbn; rewrite <- ?app_assoc; rewrite drop_app_length.
  all: fold (pipeline_events ([Fetch (PostStart sid)] ++ run
              ++ [ShowMessage "Blog post generated successfully!" "success"])).
  all: rewrite !dialog_events_app, P; cbn [pipeline_events omap app]; rewrite ?app_nil_r.
  all: split; [reflexivity|].
  all: unfold rows_of_run; cbn [take app]; rewrite skipn_map.
  all: replace (drop (length done + length (option_list failed))
                  (done ++ option_list failed ++ rest)) with rest; [reflexivity|].
  all: rewrite app_assoc, <- length_app; symmetry; apply drop_app_length.
Qed.

Lemma step_list_shows_the_run_witness :
  exists done failed rest,
    stepNames (loaded steps_fail) = done ++ option_list failed ++ rest
    /\ (failed = None -> rest = [])
    /\ pipeline_events (added startPipeline (loaded steps_fail)) = run_of 0 done failed
    /\ rows (ui (exec startPipeline (loaded steps_fail))) = rows_of_run done failed rest.
Proof.
  apply (step_list_shows_the_run (loaded steps_fail) started_42).
  split; reflexivity.
Defined.

(** ** Completion after a retry *)

Ltac keeps_unreported :=
  let H := fresh in
  intros [? ? ? ? ? ? ? [] ? ?] H; unfold unreported in *; unfold exec;
  unfold_handlers; crunch; unfold messages in *; rewrite ?omap_app; cbn;
  rewrite ?app_nil_r; exact H.

Lemma executeStep_reports_nothing s0 st i : preserves (unreported s0) (executeStep st i).
Proof. destruct st as [st|]; keeps_unreported. Qed.

Lemma step_loop_reports_nothing s0 record_current todo i :
  preserves (unreported s0) (step_loop record_current i todo).
Proof.
  revert i. induction todo as [|st todo IH]; intros i; [apply preserves_ret|].
  cbn [step_loop]. apply preserves_bind.
  - apply preserves_when. keeps_unreported.
  - intros _. apply preserves_bind; [apply executeStep_reports_nothing|].
    intros []; [apply IH|apply preserves_ret].
Qed.

(** X8: A retry of any step but the last never reports completion: whatever
    the back end answers, also when the retried step and every step after it
    complete, [retryStep] shows no message and does not touch the close
    button or its link. *)
Theorem retry_of_an_inner_step_reports_nothing (s : state) (stepKey : string) (stepIndex : nat) :
  (stepIndex + 1 <> length (stepNames s))%nat ->
  let s' := exec (retryStep stepKey stepIndex) s in
  messages (trace s') = messages (trace s)
  /\ closeButtonHidden (ui s') = closeButtonHidden (ui s)
  /\ closeLink (ui s') = closeLink (ui s).
Proof.
  intros Hinner s'. subst s'.
  change (unreported s (exec (retryStep stepKey stepIndex) s)).
  unfold retryStep. rewrite !exec_gets_bind, exec_modify_bind.
  assert (Hlast : (Z.of_nat stepIndex =? Z.of_nat (length (stepNames s)) - 1) = false)
    by (apply Z.eqb_neq; lia).
  rewrite Hlast. generalize (stepNames s). intros names.
  apply preserves_elim; [|destruct s; repeat split].
  apply preserves_bind; [keeps_unreported|]. intros _.
  apply preserves_bind; [apply preserves_gets|]. intros id.
  apply preserves_bind; [keeps_unreported|]. intros _.
  apply preserves_bind; [apply executeStep_reports_nothing|]. intros [].
  - cbn [when]. apply preserves_bind; [apply step_loop_reports_nothing|].
    intros _. apply preserves_ret.
  - apply preserves_ret.
Qed.

Lemma retry_of_an_inner_step_reports_nothing_witness :
  let s := exec startPipeline (loaded fails_until_retried) in
  let s' := exec (retryStep "structure" 0) s in
  messages (trace s') = messages (trace s)
  /\ closeButtonHidden (ui s') = closeButtonHidden (ui s)
  /\ closeLink (ui s') = closeLink (ui s).
Proof.
  apply (retry_of_an_inner_step_reports_nothing
           (exec startPipeline (loaded fails_until_retried)) "structure" 0).
  vm_compute. discriminate.
Defined.

Example retry_completes_every_step :
  let s := exec startPipeline (loaded fails_until_retried) in
  let s' := exec click_retry s in
  rows (ui s) = [Failed; Pending; Pending; Pending; Pending]
  /\ rows (ui s') = [Completed; Completed; Completed; Completed; Completed]
  /\ messages (trace s') = messages (trace s).
Proof. cbv zeta. repeat split; vm_compute; reflexivity. Qed.

(** X9: When the start request of [startPipeline] fails, no step is requested
    and nothing is reported as complete: the rows all stay [Pending], the
    progress bar is at 0, and the error target, when the page has one, shows
    the message of the error (the default text for an error without one). *)
Theorem startPipeline_start_failure (s : state) (e : string) :
  start_error s = Some e ->
  let s' := exec startPipeline s in
  requests (added startPipeline s) = [PostStart (suggestionIdValue s)]
  /\ messages (trace s') = messages (trace s)
  /\ rows (ui s') = map (fun _ => Pending) (stepNames s)
  /\ closeButtonHidden (ui s') = closeButtonHidden (ui s)
  /\ (hasProgressBarTarget (ui s) = true -> progress (ui s') = Some 0%Q)
  /\ (hasErrorMessageTarget (ui s) = true ->
      errorMessage (ui s') = Some (Text (or_else (Some e) "Failed to start pipeline"))
      /\ errorMessageHidden (ui s') = false).
Proof.
  intros He s'. subst s'. unfold start_error in He.
  destruct s as [sid pid post cur counts max names
                   [hd hp he hr hc dh rws pr em eh rb rh cl ch] t be].
  cbn in He.
  unfold added, exec, startPipeline, renderSteps, onPipelineComplete, showMessage, try_catch,
    fetch, json, showError, updateProgress, when, modify, gets, mbind, M_bind, bind, mret,
    M_ret, ret, throw.
  destruct hd, hp; cbn; destruct (be _ _) as [e'|[data|]]; cbn in *;
    try (destruct (is_str (status data) "error")); try discriminate;
    injection He as <-; destruct he; cbn; rewrite drop_app_length;
    unfold messages; rewrite ?omap_app; cbn; rewrite ?app_nil_r;
    repeat split; auto; discriminate.
Qed.

Lemma startPipeline_start_failure_witness :
  let s := loaded (fun _ _ => NetworkError "Failed to fetch") in
  let s' := exec startPipeline s in
  requests (added startPipeline s) = [PostStart (suggestionIdValue s)]
  /\ messages (trace s') = messages (trace s)
  /\ rows (ui s') = map (fun _ => Pending) (stepNames s)
  /\ closeButtonHidden (ui s') = closeButtonHidden (ui s)
  /\ (hasProgressBarTarget (ui s) = true -> progress (ui s') = Some 0%Q)
  /\ (hasErrorMessageTarget (ui s) = true ->
      errorMessage (ui s') = Some (Text (or_else (Some "Failed to fetch") "Failed to start pipeline"))
      /\ errorMessageHidden (ui s') = false).
Proof.
  apply (startPipeline_start_failure (loaded (fun _ _ => NetworkError "Failed to fetch"))
           "Failed to fetch").
  reflexivity.
Defined.


Example retries_are_counted_per_step :
  let s := exec (retryStep "content" 1) (exec startPipeline (loaded steps_fail)) in
  retries s "content" = 1 /\ retries s "structure" = 0.
Proof. cbv zeta. split; vm_compute; reflexivity. Qed.



End BlogGenerationPipelineViewFacts.

(** * Properties of the dropdown, the pricing switch and the image button *)

Module CardToggleFacts.
Import OnboardingModal CardToggle.
Import OnboardingModalFacts.

Lemma elem_of_classList_toggle token other c :
  other ∈ classList_toggle token c
  <-> (other = token /\ token ∉ c) \/ (other <> token /\ other ∈ c).
Proof.
  unfold classList_toggle, contains.
  destruct (bool_decide_reflect (token ∈ c)) as [Hin|Hout].
  - rewrite elem_of_remove, list_elem_of_singleton. split.
    + intros [H Hne]. right. auto.
    + intros [[_ H]|[Hne H]]; [contradiction|auto].
  - rewrite elem_of_add, list_elem_of_singleton. split.
    + intros [->|H]; [left; auto|]. right. split; [|exact H]. intros ->. contradiction.
    + intros [[-> _]|[_ H]]; auto.
Qed.

Lemma classList_toggle_twice token c :
  same_tokens (classList_toggle token (classList_toggle token c)) c.
Proof.
  intros other. rewrite !elem_of_classList_toggle.
  destruct (decide (other = token)) as [->|Hne]; [|tauto].
  destruct (decide (token ∈ c)); tauto.
Qed.

Lemma classList_toggle_flips token c :
  contains (classList_toggle token c) token = negb (contains c token).
Proof.
  unfold contains.
  destruct (bool_decide_reflect (token ∈ c)) as [Hin|Hout]; cbn.
  - apply bool_decide_eq_false. rewrite elem_of_classList_toggle. tauto.
  - apply bool_decide_eq_true. rewrite elem_of_classList_toggle. tauto.
Qed.

(** X12: One [toggle] flips the card: the flag, whether the dropdown is on
    display, and whether the chevron is turned.  A second [toggle] brings the
    card back: the flag is as before and both elements carry the tokens they
    carried, though not always in the same order. *)
Theorem toggle_flips_and_toggles_back (v : card) :
  expandedValue (toggle v) = negb (expandedValue v)
  /\ (forall c, dropdownTarget v = Some c ->
        exists c', dropdownTarget (toggle v) = Some c' /\ visible c' = negb (visible c))
  /\ (forall c, chevronTarget v = Some c ->
        exists c', chevronTarget (toggle v) = Some c'
                   /\ contains c' "rotate-180" = negb (contains c "rotate-180"))
  /\ expandedValue (toggle (toggle v)) = expandedValue v
  /\ same_target (dropdownTarget (toggle (toggle v))) (dropdownTarget v)
  /\ same_target (chevronTarget (toggle (toggle v))) (chevronTarget v).
Proof.
  destruct v as [expanded [dropdown|] [chevron|]]; cbn.
  all: repeat split; try apply negb_involutive; try discriminate.
  all: try (intros c [= <-]; eexists; split; [reflexivity|]).
  all: try (unfold visible; now rewrite classList_toggle_flips).
  all: try apply classList_toggle_flips.
  all: apply classList_toggle_twice.
Qed.

Example toggle_opens_the_dropdown :
  dropdownTarget (toggle collapsed) = Some ["mt-4"]
  /\ chevronTarget (toggle collapsed) = Some ["w-5"; "h-5"; "rotate-180"]
  /\ dropdownTarget (toggle (toggle collapsed)) = Some ["mt-4"; "hidden"]
  /\ expandedValue (connect (toggle collapsed)) = false.
Proof. repeat split. Qed.

End CardToggleFacts.

Module PricingToggleFacts.
Import OnboardingModal PricingToggle.
Import OnboardingModalFacts.

Lemma visible_show c : visible (show c) = true.
Proof.
  apply visible_spec. unfold show. rewrite elem_of_remove, list_elem_of_singleton. tauto.
Qed.

Lemma visible_hide c : visible (hide c) = false.
Proof. apply hidden. Qed.

Lemma selected_select label : selected (select label).
Proof.
  split; intros token Htoken; unfold select.
  - rewrite elem_of_remove, elem_of_add. split; [now left|].
    revert Htoken. unfold selected_classes, unselected_classes.
    rewrite !elem_of_cons, !elem_of_nil. intuition congruence.
  - rewrite elem_of_remove. tauto.
Qed.

Lemma unselected_unselect label : unselected (unselect label).
Proof.
  split; intros token Htoken; unfold unselect.
  - rewrite elem_of_remove, elem_of_add. split; [now left|].
    revert Htoken. unfold selected_classes, unselected_classes.
    rewrite !elem_of_cons, !elem_of_nil. intuition congruence.
  - rewrite elem_of_remove. tauto.
Qed.

Lemma updateUI_shows s : showing (isMonthly s) (updateUI s).
Proof.
  unfold showing, updateUI. destruct (isMonthly s); cbn.
  all: repeat split; try apply Forall_map; try (apply Forall_true; intros c).
  all: first [ apply visible_show | apply visible_hide
             | apply selected_select | apply unselected_unselect ].
Qed.

(** X13: After [connect] the page shows the monthly prices, and every [switch]
    shows the other period than the one before it: the prices and checkout
    links of the period on display are all visible and those of the other
    period all hidden, and of the two labels only the one of the period on
    display carries the classes of the selected state.  No target is added or
    dropped. *)
Theorem switch_shows_one_period (s : state) :
  showing true (connect s)
  /\ isMonthly (connect s) = true
  /\ showing (negb (isMonthly s)) (switch s)
  /\ isMonthly (switch s) = negb (isMonthly s)
  /\ isMonthly (switch (switch s)) = isMonthly s
  /\ length (monthlyPriceDisplayTargets (switch s)) = length (monthlyPriceDisplayTargets s)
  /\ length (yearlyPriceDisplayTargets (switch s)) = length (yearlyPriceDisplayTargets s)
  /\ length (monthlyCheckoutTargets (switch s)) = length (monthlyCheckoutTargets s)
  /\ length (yearlyCheckoutTargets (switch s)) = length (yearlyCheckoutTargets s).
Proof.
  assert (Hm : forall s, isMonthly (updateUI s) = isMonthly s)
    by (intros s0; unfold updateUI; destruct (isMonthly s0) eqn:E; cbn; auto).
  assert (Hs : forall v s, isMonthly (set_isMonthly v s) = v) by (intros v []; reflexivity).
  split; [|split; [|split; [|split; [|split]]]].
  - unfold connect. pose proof (updateUI_shows (set_isMonthly true s)) as H.
    now rewrite Hs in H.
  - unfold connect. now rewrite Hm, Hs.
  - unfold switch. pose proof (updateUI_shows (set_isMonthly (negb (isMonthly s)) s)) as H.
    now rewrite Hs in H.
  - unfold switch. now rewrite Hm, Hs.
  - unfold switch. repeat first [rewrite Hm | rewrite Hs]. apply negb_involutive.
  - destruct s as [[] a b c d e f]; cbn; rewrite !length_map; auto.
Qed.

End PricingToggleFacts.

Module OgImageFacts.
Import OnboardingModal OgImage.
Import OnboardingModalFacts.

#[local] Arguments is_str : simpl never.
#[local] Arguments or_else : simpl never.
#[local] Arguments add : simpl never.
#[local] Arguments remove : simpl never.

(** X14: [generate] gives the button back exactly when it fails.  When the
    request fails, is not OK, has no JSON body or reports an error, the button
    is enabled again with the content it had, one error message is shown and
    no target is touched.  When it succeeds, the button stays disabled with
    the spinner, the one message says so, and the image is put on display:
    with an image container on the page the container is shown and the empty
    state hidden, without one the page reloads after a second. *)
Theorem generate_restores_the_button_on_failure (s : state) :
  let s' := exec generate s in
  requests (trace s') = requests (trace s) ++ [blogPostIdValue s]
  /\ match generated s with
     | None =>
         buttonDisabled s' = false
         /\ buttonInnerHTML s' = buttonInnerHTML s
         /\ (exists text, messages (trace s') = messages (trace s) ++ [(text, "error")])
         /\ emptyStateTarget s' = emptyStateTarget s
         /\ imageContainerTarget s' = imageContainerTarget s
         /\ imageUrlValue s' = imageUrlValue s
         /\ imageDisplaySrc s' = imageDisplaySrc s
     | Some data =>
         buttonDisabled s' = true
         /\ buttonInnerHTML s' = Generating
         /\ messages (trace s')
            = messages (trace s) ++ [("OG image generated successfully!", "success")]
         /\ emptyStateTarget s' = add ["hidden"] <$> emptyStateTarget s
         /\ match imageContainerTarget s with
            | Some c =>
                imageContainerTarget s' = Some (remove ["hidden"] c)
                /\ (hasImageUrlTarget s = true -> imageUrlValue s' = image_url data)
                /\ (hasImageDisplayTarget s = true -> imageDisplaySrc s' = image_url data)
                /\ trace s' = trace s ++ [ Fetch (blogPostIdValue s);
                                           ShowMessage "OG image generated successfully!"
                                             "success" ]
            | None =>
                trace s' = trace s ++ [ Fetch (blogPostIdValue s);
                                        ShowMessage "OG image generated successfully!" "success";
                                        ReloadAfter 1000 ]
            end
     end.
Proof.
  intros s'. subst s'.
  destruct s as [id disabled html empty container hu url hd src t be].
  unfold generated, exec, generate, try_catch, fetch, json, showMessage, when,
    modify, gets, mbind, M_bind, bind, mret, M_ret, ret, throw.
  cbn.
  destruct (be _ _) as [e|[[] [data|]]]; cbn;
    try destruct (is_str (status data) "error"); cbn;
    try destruct container as [c|]; cbn;
    try destruct hu; try destruct hd; cbn;
    unfold requests, messages; rewrite ?omap_app; cbn; rewrite ?app_nil_r.
  all: rewrite <- ?app_assoc; repeat split; eauto; try discriminate.
Qed.

Example image_is_put_on_display :
  let s' := exec generate (post_page image_ready) in
  imageContainerTarget s' = Some []
  /\ emptyStateTarget s' = Some ["text-center"; "hidden"]
  /\ imageDisplaySrc s' = Some "https://cdn.example/og.png"
  /\ buttonDisabled s' = true.
Proof. cbv zeta. repeat split. Qed.

End OgImageFacts.

(** * More properties of the controller with a background task *)

Module GenerateContentTaskViewFacts.
Import GenerateContentTask GenerateContentTaskView.
Import GenerateContentTaskFacts.

#[local] Arguments is_str : simpl never.
#[local] Arguments or_else : simpl never.
#[local] Arguments truthy : simpl never.
#[local] Arguments Z.geb : simpl never.
#[local] Arguments Z.mul : simpl never.
#[local] Arguments Z.div : simpl never.
#[local] Arguments Z.modulo : simpl never.
#[local] Arguments Z.add : simpl never.
#[local] Arguments String.append : simpl never.
#[local] Arguments pretty : simpl never.

(** X15: [generate] records a task exactly when the back end queued one.  When
    the answer is OK, says [processing] and carries a task id, the task and
    the time are stored under the key of the suggestion, the user is told
    that generation started, the card shows the generating button and the
    first poll is armed for the task.  In every other case nothing is left in
    the store under that key, no timer is armed, one error message is shown
    and the Generate button is back. *)
Theorem generate_records_the_task_iff_queued (JSON : json_codec) (now : Z) (s : state) :
  let run := generate JSON now s in
  match queued s with
  | Some taskId =>
      fst run = Return (Some {| poll_taskId := Some taskId; attempts := 0 |})
      /\ localStorage (snd run)
         = <[taskKey s := stringify_task JSON (Some taskId) now]> (localStorage s)
      /\ buttonContainer (snd run) = GeneratingButton
      /\ messages (added (generate JSON now) s) = [(started, "success")]
      /\ timeouts (added (generate JSON now) s) = [initialDelay]
  | None =>
      fst run = Return None
      /\ localStorage (snd run) = delete (taskKey s) (localStorage s)
      /\ buttonContainer (snd run) = GenerateButton
      /\ (exists text, messages (added (generate JSON now) s) = [(text, "error")])
      /\ timeouts (added (generate JSON now) s) = []
  end.
Proof.
  intros run. subst run.
  destruct s as [sid pid hs ex tid store btn badge pb t be].
  unfold queued, added, exec. do 2 unfold_handlers. unfold taskKey.
  destruct hs; crunch.
  all: try match goal with
           | H1 : is_str ?v "processing" = true, H2 : is_str ?v "error" = true |- _ =>
               exfalso; unfold is_str in H1, H2; destruct v; [|discriminate];
               apply String.eqb_eq in H1, H2; congruence
           end.
  all: try match goal with
           | |- context [task_id ?b] => destruct (task_id b) as [i|]; [destruct (truthy i)|]
           end.
  all: cbn; rewrite <- ?app_assoc, ?drop_app_length; cbn.
  all: repeat split; eauto.
Qed.

Example generate_queues_a_task :
  let run := generate one_text 1000 (reloaded ∅ done_at_third) in
  fst run = Return (Some {| poll_taskId := Some "abc"; attempts := 0 |})
  /\ localStorage (snd run) !! "blog_generation_task_7" = Some stored_text
  /\ buttonContainer (snd run) = GeneratingButton.
Proof. cbv zeta. repeat split; vm_compute; reflexivity. Qed.

Lemma generate_stores_the_queued_task JSON now s taskId :
  queued s = Some taskId ->
  fst (generate JSON now s) = Return (Some {| poll_taskId := Some taskId; attempts := 0 |})
  /\ localStorage (snd (generate JSON now s))
     = <[taskKey s := stringify_task JSON (Some taskId) now]> (localStorage s).
Proof.
  destruct s as [sid pid hs ex tid store btn badge pb t be].
  unfold queued. do 2 unfold_handlers. unfold taskKey.
  destruct hs; crunch.
  all: try match goal with
           | H1 : is_str ?v "processing" = true, H2 : is_str ?v "error" = true |- _ =>
               intros _; exfalso; unfold is_str in H1, H2; destruct v; [|discriminate];
               apply String.eqb_eq in H1, H2; congruence
           end.
  all: try discriminate.
  all: try match goal with
           | |- context [task_id ?b] => destruct (task_id b) as [i|]; [destruct (truthy i)|]
           end.
  all: cbn; try discriminate; intros [= <-]; split; reflexivity.
Qed.

(** X16: A task that [generate] recorded is picked up again after the card was
    disconnected and connected anew, as after a reload of the page: when the
    stored text parses back to the task and its start time, and less than 10
    minutes have passed, [connect] shows the generating state and arms the
    first poll for the same task. *)
Theorem reconnect_resumes_the_queued_task
    (JSON : json_codec) (now later : Z) (s : state) (taskId : string) :
  queued s = Some taskId ->
  stringify_task JSON (Some taskId) now <> EmptyString ->
  parse_task JSON (stringify_task JSON (Some taskId) now) = Some (Some taskId, Some now) ->
  later - now < 600000 ->
  let left := exec (disconnect) (exec (generate JSON now) s) in
  pollingTimeoutId left = None
  /\ resumes (Some taskId) left (connect JSON later left).
Proof.
  intros Hq Hne Hparse Hlater left.
  destruct (generate_stores_the_queued_task JSON now s taskId Hq) as (Hres & Hstore).
  assert (Hkey : taskKey left = taskKey s).
  { subst left. unfold exec in *. unfold taskKey.
    destruct (generate_outcome JSON now s) as [(c & E & _ & I)|(E & _)].
    - destruct (generate JSON now s) as [o s1]. cbn in *.
      unfold disconnect, mbind, M_bind, bind, gets, modify, mret, M_ret, ret.
      destruct s1 as [? ? ? ? [?|] ? ? ? ? ? ?]; cbn in *; now rewrite I.
    - congruence. }
  assert (Hleft : localStorage left
                  = <[taskKey s := stringify_task JSON (Some taskId) now]> (localStorage s)).
  { subst left. rewrite <- Hstore. unfold exec.
    destruct (generate JSON now s) as [o s1]. cbn.
    unfold disconnect, mbind, M_bind, bind, gets, modify, mret, M_ret, ret.
    destruct s1 as [? ? ? ? [?|] ? ? ? ? ? ?]; reflexivity. }
  split.
  - subst left. unfold exec. destruct (generate JSON now s) as [o s1]. cbn.
    unfold disconnect, mbind, M_bind, bind, gets, modify, mret, M_ret, ret.
    destruct s1 as [? ? ? ? [?|] ? ? ? ? ? ?]; reflexivity.
  - pose proof (connect_on_entry JSON later left (stringify_task JSON (Some taskId) now)) as H.
    rewrite Hparse in H.
    destruct (Z.ltb_spec (later - now) 600000) as [_|?]; [|lia].
    apply H; [|exact Hne].
    rewrite Hkey, Hleft. apply lookup_insert_eq.
Qed.

Lemma reconnect_resumes_the_queued_task_witness :
  let left := exec disconnect (exec (generate one_text 1000) (reloaded ∅ done_at_third)) in
  pollingTimeoutId left = None
  /\ resumes (Some "abc") left (connect one_text 5000 left).
Proof.
  apply (reconnect_resumes_the_queued_task one_text 1000 5000 (reloaded ∅ done_at_third) "abc").
  - reflexivity.
  - discriminate.
  - reflexivity.
  - lia.
Defined.

(** X17: While a task is processing, the status badge counts three seconds for
    every status request made so far, the one just answered included, and
    shows them as minutes and seconds: neither the two seconds before the
    first request nor the time the requests took are counted. *)
Theorem badge_counts_three_seconds_per_request (JSON : json_codec) (c : poll_closure) (s : state) :
  still_processing s (poll_taskId c) ->
  hasStatusTarget s = true ->
  0 <= attempts c ->
  attempts c + 1 < maxAttempts ->
  exists minutes seconds,
    statusBadge (exec (poll JSON c) s) = Some (GeneratingFor minutes seconds)
    /\ 60 * minutes + seconds = 3 * (attempts c + 1)
    /\ 0 <= seconds < 60.
Proof.
  intros (b & Hb & Hst) Hs Ha Hmax.
  destruct s as [sid pid hs ex tid store btn badge pb t be].
  cbn in Hb, Hs. subst hs.
  unfold exec. do 2 unfold_handlers. unfold taskKey. cbn. rewrite Hb. cbn. rewrite Hst.
  unfold is_str. cbn.
  destruct (Z.geb_spec (attempts c + 1) maxAttempts) as [?|_]; [lia|]. cbn.
  eexists _, _. split; [reflexivity|].
  unfold pollInterval.
  replace ((attempts c + 1) * 3000) with (1000 * (3 * (attempts c + 1))) by lia.
  change 60000 with (1000 * 60).
  rewrite Z.div_mul_cancel_l by lia.
  rewrite Z.mul_mod_distr_l by lia.
  rewrite (Z.mul_comm 1000), Z.div_mul by lia.
  pose proof (Z.div_mod (3 * (attempts c + 1)) 60 ltac:(lia)).
  pose proof (Z.mod_pos_bound (3 * (attempts c + 1)) 60 ltac:(lia)).
  lia.
Qed.

Lemma badge_counts_three_seconds_per_request_witness :
  exists minutes seconds,
    statusBadge (exec (poll one_text {| poll_taskId := Some "abc"; attempts := 24 |})
                   (reloaded ∅ always_processing))
    = Some (GeneratingFor minutes seconds)
    /\ 60 * minutes + seconds = 3 * (24 + 1)
    /\ 0 <= seconds < 60.
Proof.
  apply (badge_counts_three_seconds_per_request one_text
           {| poll_taskId := Some "abc"; attempts := 24 |} (reloaded ∅ always_processing)).
  - exists (says "processing"). split; reflexivity.
  - reflexivity.
  - cbn. lia.
  - cbn. unfold maxAttempts. lia.
Defined.

(** X18: When a status request answers that the task is completed, the polling
    ends and the entry of the task is removed.  With stored settings that can
    be read, the card shows the link to the post, the badge [Generated], the
    button for posting and the success message.  With a settings item that
    is not JSON, the error thrown while the post button is built is caught by
    [poll]: the card is reset to the Generate button and shows the message of
    that error instead, although the post was generated. *)
Theorem poll_on_completion (JSON : json_codec) (c : poll_closure) (s : state) (b : body) :
  backend s (requests (trace s)) (GetTaskStatus (poll_taskId c))
  = Answer {| ok := true; json_body := Some b |} ->
  status b = Some "completed" ->
  let s' := exec (poll JSON c) s in
  result (poll JSON c) s = Return None
  /\ localStorage s' = delete (taskKey s) (localStorage s)
  /\ timeouts (added (poll JSON c) s) = []
  /\ if settings_readable JSON s
     then buttonContainer s' = ViewPostLink (projectIdValue s) (blog_post_id b)
          /\ (hasStatusTarget s = true -> statusBadge s' = Some Generated)
          /\ (exists button, postButton s' = Some (button, blog_post_id b))
          /\ messages (added (poll JSON c) s) = [("Content generated successfully!", "success")]
     else buttonContainer s' = GenerateButton
          /\ (hasStatusTarget s = true -> statusBadge s' = Some ReadyToGenerate)
          /\ postButton s' = None
          /\ messages (added (poll JSON c) s) = [(json_error, "error")].
Proof.
  intros Hb Hst s'. subst s'.
  destruct s as [sid pid hs ex tid store btn badge pb t be].
  cbn in Hb.
  assert (Hk1 : delete ("blog_generation_task_" +:+ pretty sid) store !! "userProfileSettings"
                = store !! "userProfileSettings")
    by (apply lookup_delete_ne; unfold String.append; discriminate).
  assert (Hk2 : delete ("blog_generation_task_" +:+ pretty sid) store
                  !! ("projectSettings:" +:+ pretty pid)
                = store !! ("projectSettings:" +:+ pretty pid))
    by (apply lookup_delete_ne; unfold String.append; discriminate).
  unfold settings_readable, readable, added, exec, result.
  do 2 unfold_handlers. unfold taskKey. cbn. rewrite Hb. cbn.
  rewrite Hst. unfold is_str. destruct hs; cbn; rewrite Hk1, ?Hk2.
  all: destruct (store !! "userProfileSettings") as [profile|]; cbn;
    [destruct (truthy profile); cbn;
     [destruct (parse_flag JSON "has_pro_subscription" profile) as [[]|]; cbn|]|].
  all: rewrite ?Hk2.
  all: try (destruct (store !! ("projectSettings:" +:+ pretty pid)) as [project|]; cbn;
    [destruct (truthy project); cbn;
     [destruct (parse_flag JSON "has_auto_submission_setting" project) as [[]|]; cbn|]|]).
  all: cbn; rewrite <- ?app_assoc, ?drop_app_length; cbn.
  all: repeat split; eauto; try discriminate.
  all: apply delete_delete_eq.
Qed.

Lemma poll_on_completion_witness :
  let s := reloaded {[ "blog_generation_task_7" := stored_text ]}
             (fun _ _ => Answer {| ok := true; json_body := Some (says "completed") |}) in
  let c := {| poll_taskId := Some "abc"; attempts := 3 |} in
  let s' := exec (poll one_text c) s in
  result (poll one_text c) s = Return None
  /\ localStorage s' = delete (taskKey s) (localStorage s)
  /\ timeouts (added (poll one_text c) s) = []
  /\ if settings_readable one_text s
     then buttonContainer s' = ViewPostLink (projectIdValue s) (Some 42)
          /\ (hasStatusTarget s = true -> statusBadge s' = Some Generated)
          /\ (exists button, postButton s' = Some (button, Some 42))
          /\ messages (added (poll one_text c) s)
             = [("Content generated successfully!", "success")]
     else buttonContainer s' = GenerateButton
          /\ (hasStatusTarget s = true -> statusBadge s' = Some ReadyToGenerate)
          /\ postButton s' = None
          /\ messages (added (poll one_text c) s) = [(json_error, "error")].
Proof.
  apply (poll_on_completion one_text {| poll_taskId := Some "abc"; attempts := 3 |}
           (reloaded {[ "blog_generation_task_7" := stored_text ]}
              (fun _ _ => Answer {| ok := true; json_body := Some (says "completed") |}))
           (says "completed")); reflexivity.
Defined.

Lemma task_messages_app a b : messages (a ++ b) = messages a ++ messages b.
Proof. apply omap_app. Qed.

(** One run of [poll] shows no message when it arms the next timer, and at
    most one when it does not. *)
Lemma poll_messages JSON c s :
  exists next tail s',
    poll JSON c s = (Return next, s')
    /\ trace s' = trace s ++ tail
    /\ match next with
       | Some _ => messages tail = []
       | None => (length (messages tail) <= 1)%nat
       end.
Proof.
  destruct s as [sid pid hs ex tid store btn badge pb t be].
  do 2 unfold_handlers. unfold taskKey.
  crunch.
  all: eexists _, _, _; (split; [reflexivity|]); cbn; rewrite <- ?app_assoc.
  all: split; [reflexivity|]; cbn; lia || reflexivity.
Qed.

Lemma poll_chain_messages JSON fuel c s :
  exists ended tail s',
    poll_chain JSON fuel c s = (Return ended, s')
    /\ trace s' = trace s ++ tail
    /\ (length (messages tail) <= 1)%nat
    /\ (ended = false -> messages tail = []).
Proof.
  revert c s. induction fuel as [|fuel IH]; intros c s.
  - exists false, [], s. cbn. rewrite app_nil_r. repeat split; auto.
  - cbn [poll_chain]. unfold mbind, M_bind, bind.
    destruct (poll_messages JSON c s) as (next & tail & s1 & -> & T & Hm).
    destruct next as [c'|].
    + destruct (IH c' s1) as (ended & tail' & s2 & -> & T' & Hlen & Hgo).
      exists ended, (tail ++ tail'), s2.
      rewrite T', T, <- app_assoc, task_messages_app, Hm. cbn. auto.
    + exists true, tail, s1. repeat split; auto. discriminate.
Qed.

(** X19: A polling session shows at most one message, and none while it goes
    on: the message comes with the run of [poll] that ends the session, the
    success of the task or the error that stopped the polling. *)
Theorem polling_session_shows_at_most_one_message
    (JSON : json_codec) (fuel : nat) (taskId : option string) (s : state) :
  (length (messages (added (polling JSON fuel taskId) s)) <= 1)%nat
  /\ (fst (polling JSON fuel taskId s) = Return false ->
      messages (added (polling JSON fuel taskId) s) = []).
Proof.
  unfold added, exec, polling, _pollTaskStatus, arm, mbind, M_bind, bind, modify, gets, mret,
    M_ret, ret.
  cbn [fst snd].
  match goal with |- context [poll_chain _ _ ?c ?s1] =>
    destruct (poll_chain_messages JSON fuel c s1) as (ended & tail & s2 & -> & T & Hlen & Hgo)
  end.
  cbn [fst snd]. rewrite T. destruct s. cbn.
  rewrite <- app_assoc, drop_app_length. cbn. split; [exact Hlen|].
  intros [= ->]. auto.
Qed.

Example polling_ends_with_one_message :
  messages (added (polling one_text 100 (Some "abc")) (reloaded ∅ done_at_third))
  = [("Content generated successfully!", "success")]
  /\ messages (added (polling one_text 2 (Some "abc")) (reloaded ∅ done_at_third)) = [].
Proof. split; vm_compute; reflexivity. Qed.

(** ** The other entries of the store *)

Ltac keeps_entry :=
  let H := fresh in
  intros [? ? ? ? ? ? ? ? ? ? ?] H; unfold kept in *; cbn in H; destruct H as [-> H];
  unfold exec; do 2 unfold_handlers; unfold taskKey; crunch;
  repeat (match goal with
          | |- context [if Qltb ?a ?b then _ else _] => destruct (Qltb a b)
          end; crunch);
  (split; [reflexivity|]);
  rewrite ?lookup_delete_ne, ?lookup_insert_ne by congruence; exact H.

Lemma poll_keeps_entries JSON sid k v c :
  k <> "blog_generation_task_" +:+ pretty sid ->
  preserves (kept sid k v) (poll JSON c).
Proof. intros Hk. keeps_entry. Qed.

Lemma poll_chain_keeps_entries JSON sid k v fuel c :
  k <> "blog_generation_task_" +:+ pretty sid ->
  preserves (kept sid k v) (poll_chain JSON fuel c).
Proof.
  intros Hk. revert c. induction fuel as [|fuel IH]; intros c; [apply preserves_ret|].
  cbn [poll_chain]. apply preserves_bind; [now apply poll_keeps_entries|].
  intros [c'|]; [apply IH|apply preserves_ret].
Qed.

Lemma generate_keeps_entries JSON sid k v now :
  k <> "blog_generation_task_" +:+ pretty sid ->
  preserves (kept sid k v) (generate JSON now).
Proof. intros Hk. keeps_entry. Qed.

Lemma connect_keeps_entries JSON sid k v now :
  k <> "blog_generation_task_" +:+ pretty sid ->
  preserves (kept sid k v) (connect JSON now).
Proof. intros Hk. keeps_entry. Qed.

(** X20: The card touches no entry of [localStorage] but its own: whatever the
    back end answers, [connect], [generate] with all the polls that follow
    it, a chain of polls of any length and [disconnect] leave every other
    key as it was, the settings items and the tasks of other suggestions
    among them. *)
Theorem other_entries_are_left_alone
    (JSON : json_codec) (now : Z) (fuel : nat) (c : poll_closure) (s : state) (k : string) :
  k <> taskKey s ->
  localStorage (exec (connect JSON now) s) !! k = localStorage s !! k
  /\ localStorage (exec (then_timers JSON (connect JSON now)) s) !! k = localStorage s !! k
  /\ localStorage (exec (generate JSON now) s) !! k = localStorage s !! k
  /\ localStorage (exec (then_timers JSON (generate JSON now)) s) !! k = localStorage s !! k
  /\ localStorage (exec (poll_chain JSON fuel c) s) !! k = localStorage s !! k
  /\ localStorage (exec disconnect s) !! k = localStorage s !! k.
Proof.
  unfold taskKey. intros Hk.
  assert (H0 : kept (suggestionIdValue s) k (localStorage s !! k) s) by (split; reflexivity).
  assert (Htimers : forall handler,
             preserves (kept (suggestionIdValue s) k (localStorage s !! k)) handler ->
             preserves (kept (suggestionIdValue s) k (localStorage s !! k))
               (then_timers JSON handler)).
  { intros handler H. unfold then_timers. apply preserves_bind; [exact H|].
    intros [c'|]; [now apply poll_chain_keeps_entries|apply preserves_ret]. }
  repeat split.
  - now apply (connect_keeps_entries JSON _ k _ now Hk s).
  - now apply (Htimers _ (connect_keeps_entries JSON _ k _ now Hk) s).
  - now apply (generate_keeps_entries JSON _ k _ now Hk s).
  - now apply (Htimers _ (generate_keeps_entries JSON _ k _ now Hk) s).
  - now apply (poll_chain_keeps_entries JSON _ k _ fuel c Hk s).
  - destruct s as [? ? ? ? [?|] ? ? ? ? ? ?]; reflexivity.
Qed.

Lemma other_entries_are_left_alone_witness :
  let s := reloaded {[ "blog_generation_task_7" := stored_text;
                       "userProfileSettings" := "{}" ]} done_at_third in
  let c := {| poll_taskId := Some "abc"; attempts := 0 |} in
  let k := "userProfileSettings" in
  localStorage (exec (connect one_text 5000) s) !! k = localStorage s !! k
  /\ localStorage (exec (then_timers one_text (connect one_text 5000)) s) !! k
     = localStorage s !! k
  /\ localStorage (exec (generate one_text 5000) s) !! k = localStorage s !! k
  /\ localStorage (exec (then_timers one_text (generate one_text 5000)) s) !! k
     = localStorage s !! k
  /\ localStorage (exec (poll_chain one_text 10 c) s) !! k = localStorage s !! k
  /\ localStorage (exec disconnect s) !! k = localStorage s !! k.
Proof.
  apply (other_entries_are_left_alone one_text 5000 10
           {| poll_taskId := Some "abc"; attempts := 0 |}
           (reloaded {[ "blog_generation_task_7" := stored_text;
                        "userProfileSettings" := "{}" ]} done_at_third)
           "userProfileSettings").
  vm_compute. discriminate.
Defined.

End GenerateContentTaskViewFacts.

(** * More properties of the onboarding modal *)

Module OnboardingModalViewFacts.
Import OnboardingModal OnboardingModalView.
Import OnboardingModalFacts.

#[local] Arguments is_str : simpl never.
#[local] Arguments or_else : simpl never.
#[local] Arguments truthy : simpl never.
#[local] Arguments add : simpl never.
#[local] Arguments remove : simpl never.
#[local] Arguments project_url : simpl never.

Example url_pattern :
  map url_pattern_test_ascii
    ["https://example.com"; "HTTP://x"; "http://"; "ftp://example.com"; "example.com"]
  = [true; true; false; false; false].
Proof. reflexivity. Qed.

Lemma shown_again c : visible (add ["flex"] (remove ["hidden"] c)) = true.
Proof.
  apply visible_spec. rewrite elem_of_add, elem_of_remove, list_elem_of_singleton.
  intros [[=]|[_ H]]. apply H, list_elem_of_here.
Qed.

Lemma hidden_still c : visible (remove ["flex"] (add ["hidden"] c)) = false.
Proof.
  apply not_true_iff_false. rewrite visible_spec, elem_of_remove, elem_of_add.
  intros H. apply H. split; [left; apply list_elem_of_here|].
  rewrite list_elem_of_singleton. discriminate.
Qed.

(** X21: [goToStep] with a number that is none of 1, 2 and 3 leaves the modal
    without a panel: all three are hidden and all three indicators are marked
    inactive, while [currentStep] takes the number. *)
Theorem goToStep_outside_the_steps (n : Z) (s : state) :
  n <> 1 -> n <> 2 -> n <> 3 ->
  let s' := exec (goToStep n) s in
  currentStep s' = n
  /\ (forall i, visible (panel s' i) = false)
  /\ (forall i, marked_inactive (indicator s' i))
  /\ projectLinkHref s' = projectLinkHref s
  /\ trace s' = trace s.
Proof.
  intros H1 H2 H3 s'. subst s'.
  apply Z.eqb_neq in H1, H2, H3.
  destruct s as [a1 a2 a3 a4 a5 a6 a7 a8 a9 a10 a11 a12 a13 a14 a15 a16 a17 a18 a19 a20 a21 a22].
  unfold exec, panel, indicator. do 2 unfold_handlers. rewrite H1, H2, H3. cbn.
  split; [reflexivity|]. split; [|split; [|split; reflexivity]].
  - intros i. destruct (i =? 1); [|destruct (i =? 2)]; apply hidden.
  - intros i. destruct (i =? 1); [|destruct (i =? 2)]; apply switched_off.
Qed.

Lemma goToStep_outside_the_steps_witness :
  let s' := exec (goToStep 4) (opened "https://example.com" site_is_up) in
  currentStep s' = 4
  /\ (forall i, visible (panel s' i) = false)
  /\ (forall i, marked_inactive (indicator s' i))
  /\ projectLinkHref s' = projectLinkHref (opened "https://example.com" site_is_up)
  /\ trace s' = trace (opened "https://example.com" site_is_up).
Proof.
  apply (goToStep_outside_the_steps 4 (opened "https://example.com" site_is_up)); lia.
Defined.

(** X22: After a reachability check exactly one of the two result indicators is
    on display and the checking indicator is hidden: the reachable one when
    the flag is set, the unreachable one, with its text, when it is not; the
    continue button is enabled exactly when the flag is set.  The text is the
    message of the back end, a default when it has none, and another default
    when the check itself failed. *)
Theorem check_shows_one_indicator (url_value : string) (s : state) :
  let s' := exec (checkUrlReachability url_value) s in
  requests (trace s') = requests (trace s) ++ [PostValidateUrl url_value]
  /\ visible (checkingIndicatorTarget s') = false
  /\ visible (reachableIndicatorTarget s') = isUrlReachable s'
  /\ visible (unreachableIndicatorTarget s') = negb (isUrlReachable s')
  /\ continueButtonDisabled s' = negb (isUrlReachable s')
  /\ (if isUrlReachable s'
      then unreachableMessage s' = unreachableMessage s
      else unreachableMessage s' = unreachable_text s url_value).
Proof.
  intros s'. subst s'.
  destruct s as [a1 a2 a3 a4 a5 a6 a7 a8 a9 a10 a11 a12 a13 a14 a15 a16 a17 a18 a19 a20 a21 a22].
  unfold exec, unreachable_text. do 2 unfold_handlers. cbn.
  destruct (a22 _ _) as [e|[[] [b|]]]; cbn; try destruct (reachable b) eqn:Hb; cbn.
  all: unfold requests; rewrite ?omap_app; cbn; rewrite ?app_nil_r.
  all: rewrite ?shown_again, ?hidden_still.
  all: repeat split.
Qed.

Lemma timeouts_app a b : timeouts (a ++ b) = timeouts a ++ timeouts b.
Proof. apply omap_app. Qed.

(** X23: [validateUrl] never issues a request and always takes the continue
    button away: the flag is cleared, the button disabled and both result
    indicators hidden.  For a text that matches the pattern it hides the
    format error, shows the checking indicator and arms one timer of 500 ms
    for the trimmed text; for any other text it arms none, and it shows the
    format error when the text is not empty: an empty text leaves the error
    as it was. *)
Theorem validateUrl_resets_and_schedules
    (trim : string -> string) (url_pattern_test : string -> bool) (s : state) :
  let url_value := trim (urlInputValue s) in
  let s' := exec (validateUrl trim url_pattern_test) s in
  requests (trace s') = requests (trace s)
  /\ isUrlReachable s' = false
  /\ continueButtonDisabled s' = true
  /\ visible (reachableIndicatorTarget s') = false
  /\ visible (unreachableIndicatorTarget s') = false
  /\ if url_pattern_test url_value
     then result (validateUrl trim url_pattern_test) s = Return (Some url_value)
          /\ timeouts (added (validateUrl trim url_pattern_test) s) = [500]
          /\ visible (checkingIndicatorTarget s') = true
          /\ visible (urlErrorTarget s') = false
     else result (validateUrl trim url_pattern_test) s = Return None
          /\ trace s' = trace s
          /\ visible (checkingIndicatorTarget s') = false
          /\ if truthy url_value
             then visible (urlErrorTarget s') = true
             else urlErrorTarget s' = urlErrorTarget s.
Proof.
  intros url_value s'. subst url_value s'.
  destruct s as [a1 a2 a3 a4 a5 a6 a7 a8 a9 a10 a11 a12 a13 a14 a15 a16 a17 a18 a19 a20 a21 a22].
  unfold added, exec, result. do 2 unfold_handlers. cbn.
  destruct (url_pattern_test (trim a5)); cbn; [|destruct (truthy (trim a5)); cbn].
  all: unfold requests, timeouts; rewrite ?omap_app, ?drop_app_length; cbn; rewrite ?app_nil_r.
  all: rewrite ?shown_again, ?hidden_still, ?hidden.
  all: repeat split.
  all: apply visible_spec; rewrite elem_of_remove, list_elem_of_singleton; tauto.
Qed.

Example clearing_the_field_keeps_the_error :
  let s1 := exec (type no_trim url_pattern_test_ascii "example") (opened EmptyString site_is_up) in
  let s2 := exec (type no_trim url_pattern_test_ascii EmptyString) s1 in
  visible (urlErrorTarget s1) = true /\ visible (urlErrorTarget s2) = true.
Proof. cbv zeta. split; reflexivity. Qed.

(** ** Sessions *)

Lemma type_run trim url_pattern_test text s :
  exists s',
    type trim url_pattern_test text s
    = (Return (if url_pattern_test (trim text) then Some (trim text) else None), s')
    /\ requests (trace s') = requests (trace s)
    /\ backend s' = backend s
    /\ button_in_step s'.
Proof.
  destruct s as [a1 a2 a3 a4 a5 a6 a7 a8 a9 a10 a11 a12 a13 a14 a15 a16 a17 a18 a19 a20 a21 a22].
  unfold type, button_in_step. do 2 unfold_handlers. cbn.
  destruct (url_pattern_test (trim text)); cbn; [|destruct (truthy (trim text)); cbn].
  all: eexists; split; [reflexivity|]; cbn.
  all: unfold requests; rewrite ?omap_app; cbn; rewrite ?app_nil_r; repeat split.
Qed.

Lemma typing_run trim url_pattern_test texts pending s :
  exists s',
    typing trim url_pattern_test texts pending s
    = (Return (match last texts with
               | Some text => if url_pattern_test (trim text) then Some (trim text) else None
               | None => pending
               end), s')
    /\ requests (trace s') = requests (trace s)
    /\ backend s' = backend s.
Proof.
  revert pending s. induction texts as [|text texts IH]; intros pending s.
  - exists s. repeat split.
  - cbn [typing]. unfold mbind, M_bind, bind.
    destruct (type_run trim url_pattern_test text s) as (s1 & -> & R1 & B1 & _).
    destruct (IH (if url_pattern_test (trim text) then Some (trim text) else None) s1)
      as (s2 & -> & R2 & B2).
    exists s2. split; [|split; congruence].
    destruct texts as [|text' texts]; [reflexivity|].
    change (last (text :: text' :: texts)) with (last (text' :: texts)).
    destruct (last (text' :: texts)) eqn:E; [reflexivity|].
    apply last_None in E. discriminate.
Qed.

Lemma check_requests url_value s :
  requests (trace (exec (checkUrlReachability url_value) s))
  = requests (trace s) ++ [PostValidateUrl url_value].
Proof.
  destruct s as [a1 a2 a3 a4 a5 a6 a7 a8 a9 a10 a11 a12 a13 a14 a15 a16 a17 a18 a19 a20 a21 a22].
  unfold exec. do 2 unfold_handlers. cbn.
  destruct (a22 _ _) as [e|[[] [b|]]]; cbn; try destruct (reachable b); cbn.
  all: unfold requests; rewrite ?omap_app; cbn; rewrite ?app_nil_r; reflexivity.
Qed.

(** X24: Of the texts typed in a row, only the last one is checked: when the
    timer fires, one request goes out, for the trimmed last text, if that
    text matches the pattern, and none if it does not; the texts typed before
    it are never sent. *)
Theorem only_the_last_text_is_checked
    (trim : string -> string) (url_pattern_test : string -> bool)
    (texts : list string) (s : state) :
  let session := pending ← typing trim url_pattern_test texts None ; fire pending in
  requests (trace (exec session s))
  = requests (trace s)
    ++ match last texts with
       | Some text =>
           if url_pattern_test (trim text) then [PostValidateUrl (trim text)] else []
       | None => []
       end.
Proof.
  intros session. subst session. unfold exec, mbind, M_bind, bind.
  destruct (typing_run trim url_pattern_test texts None s) as (s1 & -> & R & _).
  destruct (last texts) as [text|]; [destruct (url_pattern_test (trim text))|]; cbn [fire].
  - fold (exec (checkUrlReachability (trim text)) s1). rewrite check_requests. congruence.
  - cbn. now rewrite app_nil_r.
  - cbn. now rewrite app_nil_r.
Qed.

Example typing_a_url :
  requests (trace (exec (pending ← typing no_trim url_pattern_test_ascii
                                     ["h"; "http://exa"; "http://example.com"] None ;
                         fire pending)
                     (opened EmptyString site_is_up)))
  = [PostValidateUrl "http://example.com"].
Proof. reflexivity. Qed.

Lemma fire_in_step pending s : button_in_step s -> button_in_step (exec (fire pending) s).
Proof.
  destruct pending as [url_value|]; [intros _|trivial].
  destruct s as [a1 a2 a3 a4 a5 a6 a7 a8 a9 a10 a11 a12 a13 a14 a15 a16 a17 a18 a19 a20 a21 a22].
  unfold fire, exec, button_in_step. do 2 unfold_handlers. cbn.
  destruct (a22 _ _) as [e|[[] [b|]]]; cbn; try destruct (reachable b); reflexivity.
Qed.

Lemma goToStep_in_step n s : button_in_step s -> button_in_step (exec (goToStep n) s).
Proof.
  destruct s as [a1 a2 a3 a4 a5 a6 a7 a8 a9 a10 a11 a12 a13 a14 a15 a16 a17 a18 a19 a20 a21 a22].
  unfold exec, button_in_step. do 2 unfold_handlers. cbn. intros H. crunch; exact H.
Qed.

Lemma submitProject_in_step trim s :
  button_in_step s -> button_in_step (exec (submitProject trim) s).
Proof.
  destruct s as [a1 a2 a3 a4 a5 a6 a7 a8 a9 a10 a11 a12 a13 a14 a15 a16 a17 a18 a19 a20 a21 a22].
  unfold exec, button_in_step. do 2 unfold_handlers. cbn. intros H.
  destruct (truthy (trim a5)); cbn; [|exact H].
  destruct a4; cbn; [|exact H].
  crunch; exact H.
Qed.

Lemma perform_in_step trim url_pattern_test a session :
  button_in_step (snd session) ->
  button_in_step (snd (perform trim url_pattern_test a session)).
Proof.
  destruct session as [pending s]. cbn [snd perform]. intros H.
  destruct a as [text| | |n]; cbn [snd].
  - destruct (type_run trim url_pattern_test text s) as (s' & -> & _ & _ & H'). exact H'.
  - now apply fire_in_step.
  - now apply submitProject_in_step.
  - now apply goToStep_in_step.
Qed.

(** X25: From the first input event on, the continue button is enabled exactly
    while the URL counts as reachable, whatever the user types and presses,
    whichever timers fire and whatever the back end answers. *)
Theorem button_follows_the_flag
    (trim : string -> string) (url_pattern_test : string -> bool)
    (text : string) (actions : list action) (pending : option string) (s : state) :
  button_in_step
    (snd (perform_all trim url_pattern_test (Typed text :: actions) (pending, s))).
Proof.
  unfold perform_all. cbn [fold_left].
  assert (H : button_in_step (snd (perform trim url_pattern_test (Typed text) (pending, s)))).
  { cbn [perform]. destruct (type_run trim url_pattern_test text s) as (s' & -> & _ & _ & H').
    exact H'. }
  revert H. generalize (perform trim url_pattern_test (Typed text) (pending, s)).
  induction actions as [|a actions IH]; intros session H; [exact H|].
  cbn [fold_left]. apply IH, perform_in_step, H.
Qed.

Example a_session :
  let session :=
    perform_all no_trim url_pattern_test_ascii
      [Typed "https://example.com"; TimerFired; ContinuePressed]
      (None, opened EmptyString site_is_up) in
  isUrlReachable (snd session) = true
  /\ continueButtonDisabled (snd session) = false
  /\ requests (trace (snd session))
     = [PostValidateUrl "https://example.com"; PostProject "https://example.com"].
Proof. cbv zeta. repeat split. Qed.

(** ** Creating the project *)

(** X26: When the request of [submitProject] fails, in whatever way, the modal
    is back on step 1: the handler has shown step 2, alerts the user with a
    fixed text (the message of the back end is not shown), shows step 1 again
    and arms no timer; no project is recorded. *)
Theorem submitProject_failure_returns_to_step_1
    (trim : string -> string) (s : state) (e : string) :
  truthy (trim (urlInputValue s)) = true ->
  isUrlReachable s = true ->
  project_error s (trim (urlInputValue s)) = Some e ->
  let s' := exec (submitProject trim) s in
  result (submitProject trim) s = Return false
  /\ currentStep s' = 1
  /\ visible (step1Target s') = true
  /\ visible (step2Target s') = false
  /\ visible (step3Target s') = false
  /\ alerts (added (submitProject trim) s)
     = ["There was an error creating your project. Please try again."]
  /\ timeouts (added (submitProject trim) s) = []
  /\ createdProjectId s' = createdProjectId s.
Proof.
  intros Hurl Hreach He s'. subst s'.
  destruct s as [a1 a2 a3 a4 a5 a6 a7 a8 a9 a10 a11 a12 a13 a14 a15 a16 a17 a18 a19 a20 a21 a22].
  cbn in Hurl, Hreach, He. subst a4. unfold project_error in He. cbn in He.
  unfold added, exec, result. do 2 unfold_handlers. cbn. rewrite Hurl. cbn.
  destruct (a22 _ _) as [e'|[[] [b|]]]; cbn in He |- *;
    try destruct (is_str (status b) "success"); cbn; try discriminate.
  all: rewrite <- ?app_assoc, ?drop_app_length; cbn.
  all: rewrite ?shown, ?hidden.
  all: repeat split.
Qed.

Lemma submitProject_failure_returns_to_step_1_witness :
  let s := exec (checkUrlReachability "https://example.com")
             (opened "https://example.com" project_refused) in
  let s' := exec (submitProject no_trim) s in
  result (submitProject no_trim) s = Return false
  /\ currentStep s' = 1
  /\ visible (step1Target s') = true
  /\ visible (step2Target s') = false
  /\ visible (step3Target s') = false
  /\ alerts (added (submitProject no_trim) s)
     = ["There was an error creating your project. Please try again."]
  /\ timeouts (added (submitProject no_trim) s) = []
  /\ createdProjectId s' = createdProjectId s.
Proof.
  apply (submitProject_failure_returns_to_step_1 no_trim
           (exec (checkUrlReachability "https://example.com")
              (opened "https://example.com" project_refused))
           "Project already exists"); reflexivity.
Defined.

(** X27: When the project is created, [submitProject] shows step 2, records the
    id of the project and arms the timer of 1500 ms; when that timer fires,
    step 3 is the one panel on display, and the link of the modal, the
    declared target or else the placeholder link, leads to the page of the
    project that was created. *)
Theorem submitProject_success_leads_to_the_project
    (trim : string -> string) (s : state) (data : body) (project : Z) :
  truthy (trim (urlInputValue s)) = true ->
  isUrlReachable s = true ->
  backend s (requests (trace s)) (PostProject (trim (urlInputValue s)))
  = Answer {| ok := true; json_body := Some data |} ->
  is_str (status data) "success" = true ->
  id data = Some project ->
  project <> 0 ->
  let s2 := exec (submitProject trim) s in
  let s3 := exec (goToStep 3) s2 in
  result (submitProject trim) s = Return true
  /\ timeouts (added (submitProject trim) s) = [1500]
  /\ createdProjectId s2 = Some project
  /\ currentStep s2 = 2
  /\ (visible (step1Target s2), visible (step2Target s2), visible (step3Target s2))
     = (false, true, false)
  /\ currentStep s3 = 3
  /\ (visible (step1Target s3), visible (step2Target s3), visible (step3Target s3))
     = (false, false, true)
  /\ (hasProjectLinkTarget s || hasPlaceholderLink s = true ->
      projectLinkHref s3 = Some (project_url project)).
Proof.
  intros Hurl Hreach Hb Hok Hid Hnz s2 s3. subst s2 s3.
  destruct s as [a1 a2 a3 a4 a5 a6 a7 a8 a9 a10 a11 a12 a13 a14 a15 a16 a17 a18 a19 a20 a21 a22].
  cbn in Hurl, Hreach, Hb. subst a4. apply Z.eqb_neq in Hnz.
  unfold added, exec, result. do 3 unfold_handlers. cbn. rewrite Hurl. cbn.
  rewrite Hb. cbn. rewrite Hok. cbn. rewrite Hid, Hnz.
  destruct a18, a19; cbn.
  all: rewrite <- ?app_assoc, ?drop_app_length; cbn.
  all: rewrite ?shown, ?hidden.
  all: repeat split; try discriminate.
Qed.

Lemma submitProject_success_leads_to_the_project_witness :
  let s := exec (checkUrlReachability "https://example.com")
             (opened "https://example.com" site_is_up) in
  let s2 := exec (submitProject no_trim) s in
  let s3 := exec (goToStep 3) s2 in
  result (submitProject no_trim) s = Return true
  /\ timeouts (added (submitProject no_trim) s) = [1500]
  /\ createdProjectId s2 = Some 5
  /\ currentStep s2 = 2
  /\ (visible (step1Target s2), visible (step2Target s2), visible (step3Target s2))
     = (false, true, false)
  /\ currentStep s3 = 3
  /\ (visible (step1Target s3), visible (step2Target s3), visible (step3Target s3))
     = (false, false, true)
  /\ (hasProjectLinkTarget s || hasPlaceholderLink s = true ->
      projectLinkHref s3 = Some (project_url 5)).
Proof.
  apply (submitProject_success_leads_to_the_project no_trim
           (exec (checkUrlReachability "https://example.com")
              (opened "https://example.com" site_is_up))
           {| reachable := true; status := Some "success"; message := None; id := Some 5 |}
           5); try reflexivity. lia.
Defined.

End OnboardingModalViewFacts.

(** * More properties of the analytics constants *)

Module AnalyticsEventsMoreFacts.
Import AnalyticsEvents.
Import AnalyticsEventsFacts.

Section WithTaxonomy.
Context {event_info : Type} (toUpperCase : string -> string).

Lemma reduce_size (names : list string) (acc : gmap string string) :
  (size (fold_left (fun events eventName => <[toUpperCase eventName := eventName]> events)
           names acc)
   <= size acc + length names)%nat.
Proof.
  revert acc. induction names as [|x names IH]; intros acc; cbn [fold_left length]; [lia|].
  etransitivity; [apply IH|]. rewrite map_size_insert.
  destruct (acc !! toUpperCase x); cbn; lia.
Qed.

(** X28: [ANALYTICS_EVENTS] holds nothing but the canonical names: a constant
    exists exactly for the upper-case forms of the names of the taxonomy, the
    value of a constant is a canonical name, the key of that value is the
    constant itself, and there are no more constants than names. *)
Theorem constants_hold_canonical_names (eventTaxonomy : @taxonomy event_info) (k : string) :
  (is_Some (ANALYTICS_EVENTS toUpperCase eventTaxonomy !! k)
   <-> exists n, n ∈ ANALYTICS_EVENT_NAMES eventTaxonomy /\ toUpperCase n = k)
  /\ (forall m, ANALYTICS_EVENTS toUpperCase eventTaxonomy !! k = Some m ->
        m ∈ ANALYTICS_EVENT_NAMES eventTaxonomy /\ toUpperCase m = k)
  /\ (size (ANALYTICS_EVENTS toUpperCase eventTaxonomy)
      <= length (ANALYTICS_EVENT_NAMES eventTaxonomy))%nat.
Proof.
  assert (Hlookup : ANALYTICS_EVENTS toUpperCase eventTaxonomy !! k
                    = last (upper_cased_to toUpperCase k (ANALYTICS_EVENT_NAMES eventTaxonomy))).
  { unfold ANALYTICS_EVENTS, analyticsEvents. rewrite reduce_lookup.
    fold (ANALYTICS_EVENT_NAMES eventTaxonomy). now destruct (last _). }
  assert (Hvalue : forall m, ANALYTICS_EVENTS toUpperCase eventTaxonomy !! k = Some m ->
                     m ∈ ANALYTICS_EVENT_NAMES eventTaxonomy /\ toUpperCase m = k).
  { intros m Hm. rewrite Hlookup in Hm. apply last_Some in Hm as [l' E].
    apply (elem_of_upper_cased_to toUpperCase). rewrite E. apply elem_of_app. right.
    apply list_elem_of_here. }
  split; [split|split; [exact Hvalue|]].
  - intros [m Hm]. exists m. now apply Hvalue.
  - intros (n & Hn & Hk). rewrite Hlookup.
    destruct (last _) eqn:E; [eauto|]. apply last_None in E.
    assert (Hin : n ∈ upper_cased_to toUpperCase k (ANALYTICS_EVENT_NAMES eventTaxonomy))
      by (apply elem_of_upper_cased_to; auto).
    rewrite E in Hin. inversion Hin.
  - unfold ANALYTICS_EVENTS, analyticsEvents.
    etransitivity; [apply reduce_size|]. rewrite map_size_empty. reflexivity.
Qed.

End WithTaxonomy.

Example no_constant_for_an_alias :
  ANALYTICS_EVENTS toUpperCase_ascii taxonomy_v1 !! "USER_SIGNED_UP" = None
  /\ DEPRECATED_ANALYTICS_EVENT_ALIASES taxonomy_v1 = [("user_signed_up", "signup_completed")]
  /\ size (ANALYTICS_EVENTS toUpperCase_ascii taxonomy_v1) = 15%nat.
Proof. repeat split; vm_compute; reflexivity. Qed.

End AnalyticsEventsMoreFacts.
